(** * biggan/data.py: dataset construction pipeline

    A shallow embedding of [src/biggan/data.py]: file discovery
    ([glob_image_files]), the image transform ([load_crop_resize_img]),
    per-replica batch sizing ([get_per_replica_batch_size]), the in-place
    resize of a [.npy] file ([resize_npy_file]), the scoped temporary files
    ([temporary_file]) and the threaded [create_dataset] pipeline with its
    lock-guarded reservation counter.

    Library calls (glob, cv2, numpy.lib.format, tempfile, joblib) are
    modelled by what they do on the values the program hands them; the
    functions of the repository keep their names. *)

From Stdlib Require Import ZArith Lia Ascii String.
From Stdlib.Strings Require Import Byte.
From Stdlib.Sorting Require Import Sorted.
From stdpp Require Import base list gmap strings.

Local Open Scope string_scope.
Local Open Scope list_scope.

(* ===================================================================== *)
(** ** Python values shared by the modules                                *)
(* ===================================================================== *)

Module Py.

(** The exceptions the program raises or lets through. *)
Inductive exn : Type :=
| ValueError (msg : string)
| IOError (msg : string)
| ImageTooSmall (size : nat * nat)
| AttributeError (msg : string)
| Cv2Error (msg : string)
| IndexError (msg : string)
| FileNotFoundError (filename : string)
| OSError (msg : string).

(** Outcome of a call: a value or a raised exception. *)
Inductive result (A : Type) : Type :=
| Ok (a : A)
| Raise (e : exn).
Arguments Ok {A} a.
Arguments Raise {A} e.

Definition raises {A} (r : result A) : bool :=
  match r with Ok _ => false | Raise _ => true end.

Definition value_or {A} (d : A) (r : result A) : A :=
  match r with Ok a => a | Raise _ => d end.

(** [repr] of a non-negative int: its decimal digits.  [fuel] bounds the
    number of digits; [repr_nat] gives enough of it. *)
Definition digit (d : nat) : ascii := ascii_of_nat (48 + d).

Fixpoint repr_digits (fuel n : nat) (acc : string) : string :=
  match fuel with
  | O => acc
  | S fuel' =>
      let acc' := String (digit (n mod 10)) acc in
      if (n / 10 =? 0)%nat then acc' else repr_digits fuel' (n / 10) acc'
  end.

Definition repr_nat (n : nat) : string := repr_digits (S n) n "".

Definition repr_Z (z : Z) : string :=
  if (z <? 0)%Z then "-" ++ repr_nat (Z.to_nat (- z)) else repr_nat (Z.to_nat z).

(** [repr] of a tuple of ints: "()", "(5,)", "(5, 256, 256, 3)". *)
Fixpoint join_comma (l : list string) : string :=
  match l with
  | [] => ""
  | [x] => x
  | x :: rest => x ++ ", " ++ join_comma rest
  end.

Definition repr_tuple (t : list nat) : string :=
  match t with
  | [] => "()"
  | [x] => "(" ++ repr_nat x ++ ",)"
  | _ => "(" ++ join_comma (map repr_nat t) ++ ")"
  end.

(** [str.upper] and [str.lower] on ASCII letters. *)
Definition ascii_upper (c : ascii) : ascii :=
  let n := nat_of_ascii c in
  if ((97 <=? n) && (n <=? 122))%nat then ascii_of_nat (n - 32) else c.

Definition ascii_lower (c : ascii) : ascii :=
  let n := nat_of_ascii c in
  if ((65 <=? n) && (n <=? 90))%nat then ascii_of_nat (n + 32) else c.

Fixpoint map_string (f : ascii -> ascii) (s : string) : string :=
  match s with
  | EmptyString => EmptyString
  | String c s' => String (f c) (map_string f s')
  end.

Definition upper := map_string ascii_upper.
Definition lower := map_string ascii_lower.

(** [sorted] on a list of [str]: ascending code-point order.  The order is
    total, so the result does not depend on the sorting algorithm. *)
Fixpoint insert_sorted (x : string) (l : list string) : list string :=
  match l with
  | [] => [x]
  | y :: l' => if String.leb x y then x :: l else y :: insert_sorted x l'
  end.

Fixpoint sorted (l : list string) : list string :=
  match l with
  | [] => []
  | x :: l' => insert_sorted x (sorted l')
  end.

(** [enumerate]. *)
Fixpoint enumerate_from {A} (i : nat) (l : list A) : list (nat * A) :=
  match l with
  | [] => []
  | x :: l' => (i, x) :: enumerate_from (S i) l'
  end.

Definition enumerate {A} (l : list A) : list (nat * A) := enumerate_from 0 l.

Definition startswith (p s : string) : bool := String.prefix p s.

Definition endswith (suffix s : string) : bool :=
  let n := String.length s in
  let k := String.length suffix in
  (k <=? n)%nat && String.eqb (String.substring (n - k) k s) suffix.

End Py.

(* ===================================================================== *)
(** ** get_per_replica_batch_size                                         *)
(* ===================================================================== *)

Module Replica.
Import Py.

Definition not_divisible_msg (global_batch_size : Z) (n_gpus : nat) : string :=
  "batch size (" ++ repr_Z global_batch_size
    ++ ") is not evenly divisible by number of GPUs ("
    ++ repr_nat n_gpus ++ ")".

(** [gpus] is what [get_gpus()] returned: the names of the GPU devices.
    Python's [%] and [//] with a positive divisor are [Z.modulo] and
    [Z.div]. *)
Definition get_per_replica_batch_size (gpus : list string) (global_batch_size : Z)
  : result Z :=
  let n_gpus := length gpus in
  if (n_gpus =? 0)%nat then Ok global_batch_size
  else if negb (global_batch_size mod Z.of_nat n_gpus =? 0)%Z then
    Raise (ValueError (not_divisible_msg global_batch_size n_gpus))
  else Ok (global_batch_size / Z.of_nat n_gpus)%Z.

(** The devices [get_strategy] mirrors over: the GPUs, or the CPU when
    there is none. *)
Definition strategy_devices (gpus : list string) : list string :=
  match gpus with [] => ["/CPU:0"] | _ => gpus end.

End Replica.

(* ===================================================================== *)
(** ** glob_image_files                                                   *)
(* ===================================================================== *)

Module Discovery.
Import Py.

(** An immediate subdirectory of the root: its name and the names of its
    entries, in the order the operating system lists them.  Names hold no
    glob metacharacter and no slash. *)
Record subdirectory : Type := { dirname : string; entries : list string }.

(** [os.path.join a b] for a relative [b]. *)
Definition path_join (a b : string) : string :=
  if String.eqb a "" then b
  else if endswith "/" a then a ++ b
  else a ++ "/" ++ b.

(** A wildcard does not match a leading dot. *)
Definition hidden (name : string) : bool := startswith "." name.

(** [glob.glob(os.path.join(data_dir, "*/"))]: the non-hidden
    subdirectories, each with a trailing slash. *)
Definition glob_subdirs (data_dir : string) (root : list subdirectory)
  : list (string * subdirectory) :=
  map (fun d => (path_join data_dir (dirname d ++ "/"), d))
      (filter (fun d => negb (hidden (dirname d))) root).

(** [glob.glob(os.path.join(subdir, "*." + extension))] on a
    case-sensitive file system. *)
Definition glob_extension (subdir : string) (d : subdirectory) (extension : string)
  : list string :=
  map (fun name => path_join subdir name)
      (filter (fun name => negb (hidden name) && endswith ("." ++ extension) name)
              (entries d)).

Definition extensions : list string := ["jpg"; "jpeg"; "png"].

(** The subdirectories in sorted order of their paths. *)
Definition sorted_subdirs (data_dir : string) (root : list subdirectory)
  : list (string * subdirectory) :=
  let found := glob_subdirs data_dir root in
  flat_map (fun p => match find (fun q => String.eqb (fst q) p) found with
                     | Some q => [q]
                     | None => []
                     end)
           (sorted (map fst found)).

(** The groups of one subdirectory: one sorted list per extension and
    case. *)
Definition subdir_groups (sd : string * subdirectory) : list (list string) :=
  flat_map (fun extension =>
    map (fun extension' => sorted (glob_extension (fst sd) (snd sd) extension'))
        [upper extension; lower extension])
    extensions.

(** The inner comprehension: the groups of every subdirectory, in sorted
    order of the subdirectories. *)
Definition all_groups (data_dir : string) (root : list subdirectory)
  : list (list string) :=
  flat_map subdir_groups (sorted_subdirs data_dir root).

Definition nonempty {A} (l : list A) : bool :=
  match l with [] => false | _ => true end.

Definition groups (data_dir : string) (root : list subdirectory) : list (list string) :=
  filter nonempty (all_groups data_dir root).

Definition glob_image_files (data_dir : string) (root : list subdirectory)
  : list string * list nat :=
  let groups := groups data_dir root in
  let files := flat_map (fun group => group) groups in
  let labels := flat_map (fun ig => map (fun _ => fst ig) (snd ig)) (enumerate groups) in
  (files, labels).

(** What the specification asks of a label: the rank of the file's parent
    subdirectory among the sorted subdirectories. *)
Definition subdir_rank (data_dir : string) (root : list subdirectory) (file : string)
  : option nat :=
  let dirs := map fst (sorted_subdirs data_dir root) in
  fst <$> find (fun id => startswith (snd id) file) (enumerate dirs).

End Discovery.

(* ===================================================================== *)
(** ** load_crop_resize_img                                               *)
(* ===================================================================== *)

Module Image.
Import Py.

(** An image as [cv2.imread] returns it: rows of columns of channels,
    8 bits per channel. *)
Definition pixel : Type := list byte.
Definition image : Type := list (list pixel).

Definition height (img : image) : nat := length img.
Definition width (img : image) : nat :=
  match img with [] => 0 | row :: _ => length row end.
Definition channels (img : image) : nat :=
  match img with (px :: _) :: _ => length px | _ => 0 end.

(** [image.shape]. *)
Definition shape (img : image) : list nat := [height img; width img; channels img].

(** A decoded colour image: rectangular, not empty, three channels. *)
Definition bgr_image (img : image) : bool :=
  (0 <? height img)%nat && (0 <? width img)%nat
  && forallb (fun row => (length row =? width img)%nat
                         && forallb (fun px => (length px =? 3)%nat) row) img.

(** Rows of [w] pixels of three channels each. *)
Definition rect (w : nat) (img : image) : Prop :=
  Forall (fun row => length row = w /\ Forall (fun px : pixel => length px = 3) row) img.

(** The centred square: [m] rows from row [(h - m) / 2], [m] columns from
    column [(w - m) / 2], channels reversed. *)
Definition centred_square (img : image) : image :=
  let h := height img in
  let w := width img in
  let m := h `min` w in
  map (fun row => map (@rev byte) (take m (drop ((w - m) / 2) row)))
      (take m (drop ((h - m) / 2) img)).

(** The slices the function builds: [slice(start, stop, None)] and
    [slice(None, None, -1)]. *)
Inductive pyslice : Type :=
| SliceRange (start stop : option nat)
| SliceReversed.

Definition slice_axis {A} (s : pyslice) (l : list A) : list A :=
  match s with
  | SliceRange start stop =>
      let lo := default 0 start in
      let hi := default (length l) stop in
      take (hi - lo) (drop lo l)
  | SliceReversed => rev l
  end.

(** [image[crop]] for a crop of three slices. *)
Definition getitem (img : image) (crop : list pyslice) : image :=
  match crop with
  | [s0; s1; s2] => map (fun row => map (slice_axis s2) (slice_axis s1 row)) (slice_axis s0 img)
  | _ => img
  end.

(** [np.argmin] on a pair: the first index of the minimum. *)
Definition argmin (size : list nat) : nat :=
  match size with
  | [a; b] => if (a <=? b)%nat then 0 else 1
  | _ => 0
  end.

Definition build_crop (size : list nat) : list pyslice :=
  let min_ax := argmin size in
  map (fun jd : nat * nat =>
         let j := fst jd in
         if (j =? min_ax)%nat then SliceRange None None
         else
           let start := (nth j size 0 - nth min_ax size 0) / 2 in
           let stop := start + nth min_ax size 0 in
           SliceRange (Some start) (Some stop))
      (enumerate size)
  ++ [SliceReversed].

Inductive interpolation : Type :=
| INTER_NEAREST | INTER_LINEAR | INTER_CUBIC | INTER_AREA.

Section Codec.

(** [cv2.imread]: the decoded image, or [None] when the file cannot be
    read or decoded. *)
Variable cv2_imread : string -> option image.

(** The value [cv2.resize] computes for channel [c] of the output pixel
    at row [i], column [j], when it resamples [src] to [h] rows and [w]
    columns with the given method. *)
Variable resample : interpolation -> image -> nat -> nat -> nat -> nat -> nat -> byte.

(** [cv2.resize(src, dsize, interpolation)]: [dsize] is (width, height);
    the output has that size and the channels of the source.  An empty
    source or an empty [dsize] is an error. *)
Definition cv2_resize (src : image) (dsize : nat * nat) (method : interpolation)
  : result image :=
  let w := fst dsize in
  let h := snd dsize in
  if (w =? 0)%nat || (h =? 0)%nat || (height src =? 0)%nat || (width src =? 0)%nat then
    Raise (Cv2Error "resize: empty source or destination size")
  else
    Ok (map (fun i =>
               map (fun j =>
                      map (fun c => resample method src h w i j c)
                          (seq 0 (channels src)))
                   (seq 0 w))
            (seq 0 h)).

Definition load_crop_resize_img (filename : string) (image_size : nat)
  : result image :=
  match cv2_imread filename with
  | None => Raise (AttributeError "'NoneType' object has no attribute 'shape'")
  | Some image =>
      let size := take 2 (shape image) in
      let min_ax := argmin size in
      if (nth min_ax size 0 <? image_size)%nat then
        Raise (ImageTooSmall (nth 0 size 0, nth 1 size 0))
      else
        let crop := build_crop size in
        cv2_resize (getitem image crop) (image_size, image_size) INTER_AREA
  end.

End Codec.

End Image.

(* ===================================================================== *)
(** ** .npy files: header format, open_memmap, resize_npy_file            *)
(* ===================================================================== *)

Module Npy.
Import Py.

Definition bytes : Type := list byte.

(** A file of the file system: raw bytes, or a zip archive with its named
    entries. *)
Inductive file : Type :=
| Raw (content : bytes)
| Zip (entries : list (string * bytes)).

Inductive dtype : Type := uint8 | int32.

Definition itemsize (d : dtype) : nat :=
  match d with uint8 => 1 | int32 => 4 end.

Definition dtype_to_descr (d : dtype) : string :=
  match d with uint8 => "|u1" | int32 => "<i4" end.

(** Number of elements of an array of the given shape. *)
Definition size (shape : list nat) : nat := foldr Nat.mul 1 shape.

Definition encode (s : string) : bytes := list_byte_of_string s.

(** [struct.pack] of an unsigned little-endian integer on [k] bytes. *)
Fixpoint pack_le (k n : nat) : bytes :=
  match k with
  | O => []
  | S k' => byte_of_ascii (ascii_of_nat (n mod 256)) :: pack_le k' (n / 256)
  end.

Definition ARRAY_ALIGN : nat := 64.
Definition MAGIC_LEN : nat := 8.
Definition MAGIC_PREFIX : bytes := x93 :: encode "NUMPY".

(** The dictionary literal [_write_array_header] builds, keys sorted (the
    format of NumPy 1.17 to 1.23, the versions the imports of the module
    belong to). *)
Definition header_dict (d : dtype) (shape : list nat) : string :=
  "{" ++ "'descr': '" ++ dtype_to_descr d ++ "', "
      ++ "'fortran_order': False, "
      ++ "'shape': " ++ repr_tuple shape ++ ", "
      ++ "}".

(** [_wrap_header] for format version [major].0: the length field takes 2
    bytes in version 1 and 4 bytes in version 2; [None] when the header
    does not fit the field. *)
Definition wrap_header (header : string) (major : nat) : option bytes :=
  let fmt_size := if (major =? 1)%nat then 2 else 4 in
  let hlen := String.length header + 1 in
  let padlen := ARRAY_ALIGN - ((MAGIC_LEN + fmt_size + hlen) mod ARRAY_ALIGN) in
  if (N.of_nat (hlen + padlen) <? 2 ^ (8 * N.of_nat fmt_size))%N then
    Some (MAGIC_PREFIX ++ [byte_of_ascii (ascii_of_nat major); x00]
            ++ pack_le fmt_size (hlen + padlen)
            ++ encode header ++ replicate padlen x20 ++ [x0a])
  else None.

Definition wrap_header_guess_version (header : string) : result bytes :=
  match wrap_header header 1 with
  | Some b => Ok b
  | None =>
      match wrap_header header 2 with
      | Some b => Ok b
      | None => Raise (ValueError "Header length too big")
      end
  end.

Definition array_header (d : dtype) (shape : list nat) : result bytes :=
  wrap_header_guess_version (header_dict d shape).

(** [fp.write(data)] at position [pos] of a file opened for update: the
    bytes are overwritten in place, the file grows when the write runs
    past its end, and nothing is cut. *)
Definition pwrite (pos : nat) (data content : bytes) : bytes :=
  take pos content ++ replicate (pos - length content) x00
    ++ data ++ drop (pos + length data) content.

(** What [np.memmap] does to the file in mode "r+": it is extended with
    zeros when shorter than the mapped range, and left alone otherwise. *)
Definition extend_to (n : nat) (content : bytes) : bytes :=
  content ++ replicate (n - length content) x00.

(** A memory-mapped array: a typed window on a file. *)
Record memmap : Type := {
  filename : string;
  mm_dtype : dtype;
  mm_shape : list nat;
  mm_offset : nat
}.

Definition nbytes (m : memmap) : nat := size (mm_shape m) * itemsize (mm_dtype m).

Definition np_memmap (fs : gmap string file) (name : string) (d : dtype)
    (shape : list nat) (offset : nat) : result memmap * gmap string file :=
  match fs !! name with
  | Some (Raw content) =>
      (Ok {| filename := name; mm_dtype := d; mm_shape := shape; mm_offset := offset |},
       <[name := Raw (extend_to (offset + size shape * itemsize d) content)]> fs)
  | _ => (Raise (FileNotFoundError name), fs)
  end.

(** The bytes the array shows. *)
Definition memmap_data (fs : gmap string file) (m : memmap) : bytes :=
  match fs !! filename m with
  | Some (Raw content) => take (nbytes m) (drop (mm_offset m) content)
  | _ => []
  end.

(** Assigning [data] to the whole array: the bytes land in the mapped
    range of the file. *)
Definition memmap_store (fs : gmap string file) (m : memmap) (data : bytes)
  : gmap string file :=
  match fs !! filename m with
  | Some (Raw content) => <[filename m := Raw (pwrite (mm_offset m) data content)]> fs
  | _ => fs
  end.

(** [_write_array_header] on the file opened with "rb+" (positioned at 0),
    then [fp.tell()]. *)
Definition write_header_in_place (fs : gmap string file) (name : string)
    (d : dtype) (shape : list nat) : result nat * gmap string file :=
  match fs !! name with
  | Some (Raw content) =>
      match array_header d shape with
      | Ok h => (Ok (length h), <[name := Raw (pwrite 0 h content)]> fs)
      | Raise e => (Raise e, fs)
      end
  | _ => (Raise (FileNotFoundError name), fs)
  end.

(** [open_memmap(filename, shape, dtype, mode="w+")]: the file is created
    (or emptied), the header written, and the data mapped. *)
Definition open_memmap (fs : gmap string file) (name : string) (shape : list nat)
    (d : dtype) : result memmap * gmap string file :=
  match write_header_in_place (<[name := Raw []]> fs) name d shape with
  | (Ok offset, fs') => np_memmap fs' name d shape offset
  | (Raise e, fs') => (Raise e, fs')
  end.

(** [memmap.flush()] leaves the bytes of the file as the array shows
    them: the two are one store in this model. *)
Definition resize_npy_file (fs : gmap string file) (m : memmap) (new_shape : list nat)
  : result memmap * gmap string file :=
  let dtype := mm_dtype m in
  match write_header_in_place fs (filename m) dtype new_shape with
  | (Ok offset, fs') => np_memmap fs' (filename m) dtype new_shape offset
  | (Raise e, fs') => (Raise e, fs')
  end.

(** Total length of a header whose prefix and dictionary take [x] bytes:
    the next multiple of [ARRAY_ALIGN] above [x]. *)
Definition aligned (x : nat) : nat := ARRAY_ALIGN * (x / ARRAY_ALIGN + 1).

(** The bytes of the entry at index [i], for entries of [entry_bytes] bytes. *)
Definition entry (entry_bytes i : nat) (data : bytes) : bytes :=
  take entry_bytes (drop (i * entry_bytes) data).

(** Byte length of a raw file. *)
Definition file_length (fs : gmap string file) (name : string) : option nat :=
  match fs !! name with
  | Some (Raw content) => Some (length content)
  | _ => None
  end.

End Npy.

(* ===================================================================== *)
(** ** create_dataset: the worker threads                                 *)
(* ===================================================================== *)

Module Pipeline.
Import Py Image.

(** Where a worker running [process(index)] stands.  [img] and
    [reservation] are its local variables; [tmp] is the value read by
    [target[0] += 1] before it is stored back.  [Done] remembers the slot
    the worker filled ([None] on the skip path), and [Crashed] the slot
    it had reserved when the exception left [process]. *)
Inductive pc : Type :=
| Start
| Loaded (img : image)
| Locked (img : image)
| Reserved (img : image) (reservation : nat)
| Adding (img : image) (reservation tmp : nat)
| Incremented (img : image) (reservation : nat)
| Released (img : image) (reservation : nat)
| Stored (reservation : nat)
| Done (slot : option nat)
| Crashed (e : exn) (slot : option nat).

(** The state the workers share. *)
Record state : Type := {
  target : nat;                      (* mutable_target[0] *)
  lock : bool;                       (* lock is held *)
  features : list (option image);    (* rows of the features memmap *)
  labels : list (option nat);        (* rows of the labels memmap *)
  warnings : list string;            (* logging.warning records *)
  threads : list pc
}.

Definition set_thread (i : nat) (p : pc) (st : state) : state :=
  {| target := target st; lock := lock st; features := features st;
     labels := labels st; warnings := warnings st;
     threads := <[i := p]> (threads st) |}.

Definition set_target (n : nat) (st : state) : state :=
  {| target := n; lock := lock st; features := features st;
     labels := labels st; warnings := warnings st; threads := threads st |}.

Definition set_lock (b : bool) (st : state) : state :=
  {| target := target st; lock := b; features := features st;
     labels := labels st; warnings := warnings st; threads := threads st |}.

Definition set_features (l : list (option image)) (st : state) : state :=
  {| target := target st; lock := lock st; features := l;
     labels := labels st; warnings := warnings st; threads := threads st |}.

Definition set_labels (l : list (option nat)) (st : state) : state :=
  {| target := target st; lock := lock st; features := features st;
     labels := l; warnings := warnings st; threads := threads st |}.

Definition log_warning (msg : string) (st : state) : state :=
  {| target := target st; lock := lock st; features := features st;
     labels := labels st; warnings := warnings st ++ [msg]; threads := threads st |}.

(** The warning of the [except ImageTooSmall] branch. *)
Definition skip_message (size : nat * nat) (file : string) : string :=
  "ImageTooSmall" ++ ": " ++ repr_tuple [fst size; snd size]
    ++ " on file " ++ file ++ "; skipping...".

Definition list_eqb (a b : list nat) : bool := bool_decide (a = b).

(** The worker is between acquiring and releasing the lock. *)
Definition in_critical (p : pc) : bool :=
  match p with
  | Locked _ | Reserved _ _ | Adding _ _ _ | Incremented _ _ => true
  | _ => false
  end.

(** The reservation a worker has obtained: the value it read, once the
    counter has been stored back. *)
Definition slot (p : pc) : option nat :=
  match p with
  | Incremented _ r | Released _ r | Stored r => Some r
  | Done s | Crashed _ s => s
  | _ => None
  end.

(** The reservations handed out so far, in worker order. *)
Definition returned (st : state) : list nat := omap slot (threads st).

Fixpoint count (P : pc -> bool) (l : list pc) : nat :=
  match l with
  | [] => 0
  | p :: l' => (if P p then 1 else 0) + count P l'
  end.

(** Steps a worker still has to take, at most. *)
Definition remaining (p : pc) : nat :=
  match p with
  | Start => 8
  | Loaded _ => 7
  | Locked _ => 6
  | Reserved _ _ => 5
  | Adding _ _ _ => 4
  | Incremented _ _ => 3
  | Released _ _ => 2
  | Stored _ => 1
  | Done _ | Crashed _ _ => 0
  end.

Fixpoint total_remaining (l : list pc) : nat :=
  match l with
  | [] => 0
  | p :: l' => remaining p + total_remaining l'
  end.

Definition work (st : state) : nat := total_remaining (threads st).

Definition is_ok {A} (r : result A) : bool :=
  match r with Ok _ => true | Raise _ => false end.

Definition is_too_small {A} (r : result A) : bool :=
  match r with Raise (ImageTooSmall _) => true | _ => false end.

(** Every file that decodes gives a colour image. *)
Definition colour_images (cv2_imread : string -> option image) (files : list string) : bool :=
  forallb (fun f => match cv2_imread f with
                    | Some img => bgr_image img
                    | None => true
                    end) files.

Section Workers.

Variable cv2_imread : string -> option image.
Variable resample : interpolation -> image -> nat -> nat -> nat -> nat -> nat -> byte.
Variable files : list string.
Variable classes : list nat.
Variable image_size : nat.

Definition load (filename : string) : result image :=
  load_crop_resize_img cv2_imread resample filename image_size.

Definition num_files : nat := length files.

(** The state when [Parallel] starts: both memmaps hold [num_files]
    rows nobody wrote, the counter is 0, the lock is free. *)
Definition init : state :=
  {| target := 0; lock := false;
     features := replicate num_files None;
     labels := replicate num_files None;
     warnings := [];
     threads := replicate num_files Start |}.

(** [process(i)], one step at a time: the next step of worker [i] in
    state [st]; [None] when it cannot move (it waits for the lock, it
    has returned, or there is no such worker). *)
Definition process (i : nat) (st : state) : option state :=
  match threads st !! i with
  | None => None
  | Some Start =>
      match files !! i with
      | None => Some (set_thread i (Crashed (IndexError "list index out of range") None) st)
      | Some f =>
          match load f with
          | Ok img => Some (set_thread i (Loaded img) st)
          | Raise (ImageTooSmall size) =>
              Some (set_thread i (Done None) (log_warning (skip_message size f) st))
          | Raise e => Some (set_thread i (Crashed e None) st)
          end
      end
  | Some (Loaded img) =>
      if lock st then None else Some (set_thread i (Locked img) (set_lock true st))
  | Some (Locked img) => Some (set_thread i (Reserved img (target st)) st)
  | Some (Reserved img r) => Some (set_thread i (Adding img r (target st)) st)
  | Some (Adding img r tmp) =>
      Some (set_thread i (Incremented img r) (set_target (tmp + 1) st))
  | Some (Incremented img r) =>
      Some (set_thread i (Released img r) (set_lock false st))
  | Some (Released img r) =>
      if (r <? length (features st))%nat then
        if list_eqb (shape img) [image_size; image_size; 3] then
          Some (set_thread i (Stored r) (set_features (<[r := Some img]> (features st)) st))
        else
          Some (set_thread i (Crashed (ValueError "could not broadcast input array") (Some r)) st)
      else Some (set_thread i (Crashed (IndexError "index out of bounds") (Some r)) st)
  | Some (Stored r) =>
      match classes !! i with
      | None =>
          Some (set_thread i (Crashed (IndexError "list index out of range") (Some r)) st)
      | Some c =>
          if (r <? length (labels st))%nat then
            Some (set_thread i (Done (Some r)) (set_labels (<[r := Some c]> (labels st)) st))
          else Some (set_thread i (Crashed (IndexError "index out of bounds") (Some r)) st)
      end
  | Some (Done _) => None
  | Some (Crashed _ _) => None
  end.

(** The same steps as a relation: [move i st p p' st0] when worker [i],
    standing at [p] in [st], goes to [p'] and leaves the shared state
    as [st0]. *)
Inductive move (i : nat) (st : state) : pc -> pc -> state -> Prop :=
| move_load f img :
    files !! i = Some f -> load f = Ok img ->
    move i st Start (Loaded img) st
| move_skip f size :
    files !! i = Some f -> load f = Raise (ImageTooSmall size) ->
    move i st Start (Done None) (log_warning (skip_message size f) st)
| move_fail f e :
    files !! i = Some f -> load f = Raise e ->
    (forall size, e <> ImageTooSmall size) ->
    move i st Start (Crashed e None) st
| move_no_file :
    files !! i = None ->
    move i st Start (Crashed (IndexError "list index out of range") None) st
| move_acquire img :
    lock st = false ->
    move i st (Loaded img) (Locked img) (set_lock true st)
| move_read img :
    move i st (Locked img) (Reserved img (target st)) st
| move_fetch img r :
    move i st (Reserved img r) (Adding img r (target st)) st
| move_store img r tmp :
    move i st (Adding img r tmp) (Incremented img r) (set_target (tmp + 1) st)
| move_release img r :
    move i st (Incremented img r) (Released img r) (set_lock false st)
| move_write img r :
    r < length (features st) ->
    shape img = [image_size; image_size; 3] ->
    move i st (Released img r) (Stored r)
         (set_features (<[r := Some img]> (features st)) st)
| move_write_shape img r :
    r < length (features st) ->
    shape img <> [image_size; image_size; 3] ->
    move i st (Released img r)
         (Crashed (ValueError "could not broadcast input array") (Some r)) st
| move_write_index img r :
    length (features st) <= r ->
    move i st (Released img r)
         (Crashed (IndexError "index out of bounds") (Some r)) st
| move_label r c :
    classes !! i = Some c ->
    r < length (labels st) ->
    move i st (Stored r) (Done (Some r))
         (set_labels (<[r := Some c]> (labels st)) st)
| move_label_no_class r :
    classes !! i = None ->
    move i st (Stored r)
         (Crashed (IndexError "list index out of range") (Some r)) st
| move_label_index r c :
    classes !! i = Some c ->
    length (labels st) <= r ->
    move i st (Stored r)
         (Crashed (IndexError "index out of bounds") (Some r)) st.

Definition crash_of (p : pc) : option exn :=
  match p with Crashed e _ => Some e | _ => None end.

(** The exception of the first crashed worker, if any. *)
Definition crashed (st : state) : option exn :=
  list_find (fun p => is_Some (crash_of p)) (threads st) ≫= (fun ip => crash_of (snd ip)).

Definition is_done (p : pc) : bool :=
  match p with Done _ => true | _ => false end.

Definition finished (st : state) : bool := forallb is_done (threads st).

(** [Parallel] under a schedule: the workers named by the schedule move
    in turn (a worker that cannot move is passed over); the run stops
    at the first crash, which [Parallel] raises again in the caller. *)
Fixpoint run (schedule : list nat) (st : state) : state :=
  match crashed st with
  | Some _ => st
  | None =>
      match schedule with
      | [] => st
      | i :: rest => run rest (default st (process i st))
      end
  end.

(** [Parallel] returns when every worker has: after the schedule, the
    workers that can still move are run, lowest index first. *)
Definition next (st : state) : option state :=
  list_find (fun i => is_Some (process i st)) (seq 0 (length (threads st)))
    ≫= (fun ki => process (snd ki) st).

Fixpoint drain (fuel : nat) (st : state) : state :=
  match fuel with
  | O => st
  | S fuel' =>
      match crashed st with
      | Some _ => st
      | None => match next st with
                | Some st' => drain fuel' st'
                | None => st
                end
      end
  end.

Definition parallel (schedule : list nat) : result state :=
  let st := drain (8 * num_files) (run schedule init) in
  match crashed st with
  | Some e => Raise e
  | None => Ok st
  end.

Inductive reachable : state -> Prop :=
| reachable_init : reachable init
| reachable_step st i st' : reachable st -> process i st = Some st' -> reachable st'.

(** Worker [i] loaded [img] from its file. *)
Definition loaded (i : nat) (img : image) : Prop :=
  exists f, files !! i = Some f /\ load f = Ok img.

(** What holds of worker [i] at each point of [process]. *)
Definition thread_ok (st : state) (i : nat) (p : pc) : Prop :=
  match p with
  | Start => True
  | Loaded img | Locked img => loaded i img
  | Reserved img r => loaded i img /\ r = target st
  | Adding img r tmp => loaded i img /\ r = target st /\ tmp = target st
  | Incremented img r | Released img r => loaded i img
  | Stored r => exists img, loaded i img /\ features st !! r = Some (Some img)
  | Done (Some r) =>
      exists img c, loaded i img /\ features st !! r = Some (Some img)
                    /\ classes !! i = Some c /\ labels st !! r = Some (Some c)
  | Done None =>
      exists f size, files !! i = Some f /\ load f = Raise (ImageTooSmall size)
                     /\ skip_message size f ∈ warnings st
  | Crashed _ _ => True
  end.

Record invariant (st : state) : Prop := {
  inv_threads : length (threads st) = num_files;
  inv_features : length (features st) = num_files;
  inv_labels : length (labels st) = num_files;
  inv_lock : count in_critical (threads st) = if lock st then 1 else 0;
  inv_returned : returned st ≡ₚ seq 0 (target st);
  inv_local : forall i p, threads st !! i = Some p -> thread_ok st i p
}.

End Workers.

End Pipeline.

(* ===================================================================== *)
(** ** create_dataset: temporary files, finalization, archive             *)
(* ===================================================================== *)

Module Dataset.
Import Py Image Npy Discovery.

(** The places where the operating system can refuse an operation. *)
Inductive io_op : Type :=
| OpOpenMemmap (name : string)
| OpResize (name : string)
| OpOpenArchive (name : string)
| OpWriteEntry (key : string).

Definition dquote : string := String (ascii_of_nat 34) EmptyString.

Definition no_files_message (data_dir : string) : string :=
  "no image files found in " ++ dquote ++ data_dir ++ dquote.

(** Row-major bytes of a row of the features array; a row nobody wrote
    holds the zeros the file was created with. *)
Definition feature_bytes (image_size : nat) (row : option image) : bytes :=
  match row with
  | Some img => concat (concat img)
  | None => replicate (image_size * image_size * 3) x00
  end.

(** An int32 label, little-endian. *)
Definition label_bytes (row : option nat) : bytes := pack_le 4 (default 0 row).

Definition os_remove (name : string) (fs : gmap string file)
  : result unit * gmap string file :=
  match fs !! name with
  | Some _ => (Ok tt, delete name fs)
  | None => (Raise (FileNotFoundError name), fs)
  end.

Section CreateDataset.

Variable cv2_imread : string -> option image.
Variable resample : interpolation -> image -> nat -> nat -> nat -> nat -> nat -> byte.
(** [tempfile.mkstemp]: the name of the file it creates. *)
Variable mkstemp : gmap string file -> string.
(** The error, if any, the operating system answers an operation with. *)
Variable os_fault : io_op -> option exn.
(** The interleaving of the workers. *)
Variable schedule : list nat.

(** [with temporary_file() as filename: body]: the file is created, the
    body runs, and [os.remove] runs in the [finally] clause whether the
    body returned or raised; an error of [os.remove] replaces the
    outcome. *)
Definition temporary_file {A} (body : string -> gmap string file -> result A * gmap string file)
    (fs : gmap string file) : result A * gmap string file :=
  let filename := mkstemp fs in
  let '(outcome, fs') := body filename (<[filename := Raw []]> fs) in
  match os_remove filename fs' with
  | (Ok _, fs'') => (outcome, fs'')
  | (Raise e, fs'') => (Raise e, fs'')
  end.

Definition guarded {A} (op : io_op)
    (k : gmap string file -> result A * gmap string file)
    (fs : gmap string file) : result A * gmap string file :=
  match os_fault op with
  | Some e => (Raise e, fs)
  | None => k fs
  end.

(** [write_array(fid, val)] into the entry [key] of the open archive. *)
Definition write_entry (output_npz key : string) (val : memmap)
    (fs : gmap string file) : result unit * gmap string file :=
  guarded (OpWriteEntry key) (fun fs =>
    match array_header (mm_dtype val) (mm_shape val), fs !! output_npz with
    | Ok h, Some (Zip entries) =>
        (Ok tt, <[output_npz := Zip (entries ++ [(key, h ++ memmap_data fs val)])]> fs)
    | Raise e, _ => (Raise e, fs)
    | _, _ => (Raise (OSError "archive is not open"), fs)
    end) fs.

(** The body of the [with] statement of [create_dataset]. *)
Definition build (files : list string) (classes : list nat)
    (output_npz : string) (image_size : nat) (features_file labels_file : string)
    (fs : gmap string file) : result unit * gmap string file :=
  let num_files := length files in
  match guarded (OpOpenMemmap features_file) (fun fs =>
          open_memmap fs features_file [num_files; image_size; image_size; 3] uint8) fs with
  | (Raise e, fs) => (Raise e, fs)
  | (Ok features, fs) =>
  match guarded (OpOpenMemmap labels_file) (fun fs =>
          open_memmap fs labels_file [num_files] int32) fs with
  | (Raise e, fs) => (Raise e, fs)
  | (Ok labels, fs) =>
  match Pipeline.parallel cv2_imread resample files classes image_size schedule with
  | Raise e => (Raise e, fs)
  | Ok st =>
  let fs := memmap_store fs features
              (concat (map (feature_bytes image_size) (Pipeline.features st))) in
  let fs := memmap_store fs labels (concat (map label_bytes (Pipeline.labels st))) in
  let mutable_target := [Pipeline.target st] in
  match guarded (OpResize features_file) (fun fs =>
          resize_npy_file fs features (mutable_target ++ drop 1 (mm_shape features))) fs with
  | (Raise e, fs) => (Raise e, fs)
  | (Ok features, fs) =>
  match guarded (OpResize labels_file) (fun fs =>
          resize_npy_file fs labels mutable_target) fs with
  | (Raise e, fs) => (Raise e, fs)
  | (Ok labels, fs) =>
  match guarded (OpOpenArchive output_npz) (fun fs =>
          (Ok tt, <[output_npz := Zip []]> fs)) fs with
  | (Raise e, fs) => (Raise e, fs)
  | (Ok _, fs) =>
  match write_entry output_npz "features.npy" features fs with
  | (Raise e, fs) => (Raise e, fs)
  | (Ok _, fs) => write_entry output_npz "labels.npy" labels fs
  end end end end end end end.

(** [root] is the directory tree under [data_dir]; [fs] holds the other
    files (temporary files, archives). *)
Definition create_dataset (root : list subdirectory) (data_dir output_npz : string)
    (image_size : nat) (fs : gmap string file) : result unit * gmap string file :=
  let '(files, classes) := glob_image_files data_dir root in
  let num_files := length files in
  if (num_files =? 0)%nat then (Raise (IOError (no_files_message data_dir)), fs)
  else
    temporary_file (fun features_file =>
      temporary_file (fun labels_file =>
        build files classes output_npz image_size features_file labels_file)) fs.

End CreateDataset.

End Dataset.

(* ===================================================================== *)
(** ** Sample inputs                                                      *)
(* ===================================================================== *)

Module Samples.
Import Py Image Npy Discovery.

(** Two classes, 3 and 2 images, one extension per class. *)
Definition plain_classes : list subdirectory :=
  [ {| dirname := "catB"; entries := ["4.PNG"; "5.PNG"] |};
    {| dirname := "catA"; entries := ["1.jpg"; "2.jpg"; "3.jpg"] |} ].

(** Two classes, 3 and 2 images; the first mixes extensions. *)
Definition two_classes : list subdirectory :=
  [ {| dirname := "catA"; entries := ["1.jpg"; "2.jpg"; "3.png"] |};
    {| dirname := "catB"; entries := ["4.jpg"; "5.jpg"] |} ].

(** The labels file of a run over two files, as [open_memmap] leaves it. *)
Definition labels_fs : gmap string file := (open_memmap ∅ "/tmp/labels" [2] int32).2.

Definition labels_memmap : memmap :=
  {| filename := "/tmp/labels"; mm_dtype := int32; mm_shape := [2]; mm_offset := 128 |}.

(** An array of ten bytes whose shape has twenty trailing axes of length
    one: its header dictionary is 117 characters long, and one digit less
    in the leading dimension brings the header from 192 bytes to 128. *)
Definition long_shape (n : nat) : list nat := n :: replicate 20 1.

Definition ten_bytes : bytes := [x01; x02; x03; x04; x05; x06; x07; x08; x09; x0a].

Definition long_fs : gmap string file :=
  memmap_store (open_memmap ∅ "/tmp/long" (long_shape 10) uint8).2
    {| filename := "/tmp/long"; mm_dtype := uint8; mm_shape := long_shape 10;
       mm_offset := 192 |}
    ten_bytes.

Definition long_memmap : memmap :=
  {| filename := "/tmp/long"; mm_dtype := uint8; mm_shape := long_shape 10;
     mm_offset := 192 |}.

(** A small data set: two images that load at target size 2 and one
    that is too small, in two classes. *)
Definition px (n : nat) : pixel :=
  [byte_of_ascii (ascii_of_nat n); byte_of_ascii (ascii_of_nat (n + 1));
   byte_of_ascii (ascii_of_nat (n + 2))].

Definition wide : image := [[px 10; px 20; px 30]; [px 40; px 50; px 60]].
Definition tall : image := [[px 1; px 4]; [px 7; px 11]; [px 14; px 17]].
Definition tiny : image := [[px 70]].

Definition sample_imread (f : string) : option image :=
  if String.eqb f "d/a/x.jpg" then Some wide
  else if String.eqb f "d/a/y.jpg" then Some tiny
  else if String.eqb f "d/b/z.jpg" then Some tall
  else None.

(** Nearest-neighbour sampling stands for the resampling of OpenCV. *)
Definition nearest (_ : interpolation) (src : image) (h w i j c : nat) : byte :=
  nth c (nth (j * width src / w) (nth (i * height src / h) src []) []) x00.

Definition sample_mkstemp (fs : gmap string file) : string :=
  if bool_decide (fs !! "/tmp/tmp0" = None) then "/tmp/tmp0" else "/tmp/tmp1".

Definition no_fault (_ : Dataset.io_op) : option exn := None.

Definition sample_tree : list subdirectory :=
  [ {| dirname := "b"; entries := ["z.jpg"] |};
    {| dirname := "a"; entries := ["y.jpg"; "x.jpg"] |} ].

(** The same tree with a file that does not decode. *)
Definition broken_tree : list subdirectory :=
  [ {| dirname := "b"; entries := ["z.jpg"; "w.jpg"] |};
    {| dirname := "a"; entries := ["y.jpg"; "x.jpg"] |} ].

Definition sample_files : list string := ["d/a/x.jpg"; "d/a/y.jpg"; "d/b/z.jpg"].
Definition sample_classes : list nat := [0; 0; 1].

(** An interleaving in which the third worker reserves first. *)
Definition sample_schedule : list nat :=
  [0; 2; 1; 2; 0; 2; 2; 0; 2; 2; 0; 0; 2; 0; 0; 2; 0; 0].

Definition sample_state : Pipeline.state :=
  Pipeline.drain sample_imread nearest sample_files sample_classes 2 24
    (Pipeline.run sample_imread nearest sample_files sample_classes 2
       sample_schedule (Pipeline.init sample_files)).

End Samples.

(* ===================================================================== *)
(** ** get_gpus, get_strategy                                             *)
(* ===================================================================== *)

Module Devices.
Import Py.

(** A device as [device_lib.list_local_devices()] describes it. *)
Record device : Type := { name : string; device_type : string }.

(** [get_gpus()], on the devices the machine lists. *)
Definition get_gpus (local_devices : list device) : list string :=
  map name (List.filter (fun d => String.eqb (device_type d) "GPU") local_devices).

(** [get_strategy()]: the mirrored strategy, as the devices it is built
    over, [get_gpus() or ["/CPU:0"]]. *)
Definition get_strategy (local_devices : list device) : list string :=
  match get_gpus local_devices with
  | [] => ["/CPU:0"]
  | gpus => gpus
  end.

End Devices.

(* ===================================================================== *)
(** ** custom_layers: UnPooling2D, DropChannels                           *)
(* ===================================================================== *)

Module Layers.
Import Py.

(** A tensor: its shape and its element at each index.  Only indices
    within the shape are meaningful. *)
Record tensor (A : Type) : Type := { shape : list nat; at_index : list nat -> A }.
Arguments shape {A} t.
Arguments at_index {A} t idx.

Definition rank {A} (x : tensor A) : nat := length (shape x).

(** Position of axis [d] in a permutation. *)
Definition position (d : nat) (perm : list nat) : nat :=
  match list_find (fun p => p = d) perm with
  | Some (k, _) => k
  | None => 0
  end.

Definition is_permutation (perm : list nat) : bool :=
  forallb (fun d => bool_decide (d ∈ perm)) (seq 0 (length perm)).

(** [tf.transpose(a, perm)]: axis [k] of the result is axis [perm[k]] of
    the argument. *)
Definition transpose {A} (x : tensor A) (perm : list nat) : result (tensor A) :=
  if (length perm =? rank x)%nat && is_permutation perm then
    Ok {| shape := map (fun p => nth p (shape x) 0) perm;
          at_index := fun j =>
            at_index x (map (fun d => nth (position d perm) j 0) (seq 0 (rank x))) |}
  else Raise (ValueError "transpose: perm does not match the rank").

(** [tf.expand_dims(x, 0)]. *)
Definition expand_dims0 {A} (x : tensor A) : tensor A :=
  {| shape := 1 :: shape x; at_index := fun j => at_index x (tail j) |}.

(** [tf.tile(x, multiples)]: the tensor repeated [multiples[k]] times
    along axis [k]. *)
Definition tile {A} (x : tensor A) (multiples : list nat) : result (tensor A) :=
  if (length multiples =? rank x)%nat then
    Ok {| shape := zip_with Nat.mul (shape x) multiples;
          at_index := fun j => at_index x (zip_with Nat.modulo j (shape x)) |}
  else Raise (ValueError "tile: multiples do not match the rank").

(** [tf.batch_to_space(x, [b0, b1], [[0, 0], [0, 0]])]: the batch axis is
    split into [b0 * b1] blocks that are interleaved into the two
    spatial axes: element [n, y * b0 + i, z * b1 + j, ...] of the result
    is element [(i * b1 + j) * (batch / (b0 * b1)) + n, y, z, ...] of the
    argument. *)
Definition batch_to_space {A} (x : tensor A) (b0 b1 : nat) : result (tensor A) :=
  match shape x with
  | batch :: h :: w :: rest =>
      if (0 <? b0 * b1)%nat && (batch mod (b0 * b1) =? 0)%nat then
        Ok {| shape := batch / (b0 * b1) :: h * b0 :: w * b1 :: rest;
              at_index := fun idx =>
                match idx with
                | n :: y :: z :: r =>
                    at_index x
                      (((y mod b0) * b1 + z mod b1) * (batch / (b0 * b1)) + n
                         :: y / b0 :: z / b1 :: r)
                | _ => at_index x idx
                end |}
      else Raise (ValueError "batch_to_space: batch is not a multiple of the block")
  | _ => Raise (ValueError "batch_to_space: rank below 3")
  end.

(** [x[k]]. *)
Definition getitem0 {A} (x : tensor A) (k : nat) : result (tensor A) :=
  match shape x with
  | n :: rest =>
      if (k <? n)%nat then
        Ok {| shape := rest; at_index := fun j => at_index x (k :: j) |}
      else Raise (IndexError "index out of range")
  | [] => Raise (IndexError "too many indices")
  end.

Definition bind {A B} (r : result A) (k : A -> result B) : result B :=
  match r with Ok a => k a | Raise e => Raise e end.

(** The [call] of [UnPooling2D()]. *)
Definition UnPooling2D_call {A} (x : tensor A) : result (tensor A) :=
  bind (transpose x [1; 2; 3; 0]) (fun x =>
  let x := expand_dims0 x in
  bind (tile x [4; 1; 1; 1; 1]) (fun x =>
  bind (batch_to_space x 2 2) (fun x =>
  bind (getitem0 x 0) (fun x0 =>
  transpose x0 [3; 0; 1; 2])))).

(** The [output_shape] of [UnPooling2D()]: [n, h, w, c = input_shape]. *)
Definition UnPooling2D_output_shape (input_shape : list nat) : result (list nat) :=
  match input_shape with
  | [n; h; w; c] => Ok [n; h * 2; w * 2; c]
  | _ => Raise (ValueError "not enough or too many values to unpack (expected 4)")
  end.

(** The slice [:stop] on an axis of length [n]: its length, for a
    [stop] that may be negative. *)
Definition slice_stop (stop : Z) (n : nat) : nat :=
  if (stop <? 0)%Z then n - Z.to_nat (- stop) else Z.to_nat stop `min` n.

(** The [call] of [DropChannels(output_dim)]: [x[..., :output_dim]]. *)
Definition DropChannels_call {A} (output_dim : Z) (x : tensor A) : result (tensor A) :=
  match shape x with
  | [] => Raise (IndexError "too many indices for a scalar")
  | _ =>
      Ok {| shape := removelast (shape x)
                       ++ [slice_stop output_dim (List.last (shape x) 0)];
            at_index := at_index x |}
  end.

(** The [output_shape] of [DropChannels(output_dim)]:
    [input_shape[:-1] + (output_dim,)]. *)
Definition DropChannels_output_shape (output_dim : Z) (input_shape : list nat) : list Z :=
  map Z.of_nat (removelast input_shape) ++ [output_dim].

End Layers.

(* ===================================================================== *)
(** ** What a run of the workers retains                                  *)
(* ===================================================================== *)

Module Retained.
Import Py Image Pipeline.

(** The rows of the two memmaps below the counter, paired: what
    [resize_npy_file] keeps of them. *)
Definition kept_rows (st : state) : list (option image * option nat) :=
  zip (take (target st) (features st)) (take (target st) (labels st)).

Section Expected.

Variable cv2_imread : string -> option image.
Variable resample : interpolation -> image -> nat -> nat -> nat -> nat -> nat -> byte.
Variable image_size : nat.

(** The (image, class) pair of a file that loads. *)
Definition loaded_pair (fc : string * nat) : option (option image * option nat) :=
  match load cv2_imread resample image_size fc.1 with
  | Ok img => Some (Some img, Some fc.2)
  | Raise _ => None
  end.

Definition loaded_pairs (files : list string) (classes : list nat)
  : list (option image * option nat) :=
  omap loaded_pair (zip files classes).

(** The warning a file that is too small gives rise to. *)
Definition skip_warning (f : string) : option string :=
  match load cv2_imread resample image_size f with
  | Raise (ImageTooSmall size) => Some (skip_message size f)
  | _ => None
  end.

Definition skip_warnings (files : list string) : list string :=
  omap skip_warning files.

(** The warnings of the workers that have taken the skip path. *)
Definition logged (fp : string * pc) : option string :=
  match fp.2 with
  | Done None => skip_warning fp.1
  | _ => None
  end.

End Expected.

End Retained.

(* ===================================================================== *)
(** ** Trees with something to find                                       *)
(* ===================================================================== *)

Module Tree.
Import Py Discovery.

(** The name matches one of the six patterns of [glob_image_files]. *)
Definition image_name (name : string) : bool :=
  negb (hidden name)
  && existsb (fun extension =>
                endswith ("." ++ upper extension) name
                || endswith ("." ++ lower extension) name) extensions.

(** Some visible subdirectory holds an entry with such a name. *)
Definition has_images (root : list subdirectory) : bool :=
  existsb (fun d => negb (hidden (dirname d)) && existsb image_name (entries d)) root.

End Tree.

Module MoreSamples.
Import Discovery.

(** A tree in which the patterns match nothing: the images sit in a
    hidden directory or are themselves hidden. *)
Definition barren_tree : list subdirectory :=
  [ {| dirname := ".cache"; entries := ["x.jpg"] |};
    {| dirname := "a"; entries := ["notes.txt"; ".y.png"; "jpg"] |} ].

End MoreSamples.

(* ===================================================================== *)
(** * Properties                                                          *)
(* ===================================================================== *)

(** ** Per-replica batch size *)

Module ReplicaFacts.
Import Py Replica.

Lemma get_per_replica_batch_size_no_gpu (b : Z) :
  get_per_replica_batch_size [] b = Ok b.
Proof. reflexivity. Qed.

Lemma mod_zero_divide (b n : Z) : (0 < n)%Z -> (b mod n = 0)%Z <-> (n | b)%Z.
Proof.
  intros Hn. split.
  - intros Hm. apply Z.mod_divide; [lia | exact Hm].
  - intros Hd. apply Z.mod_divide in Hd; [exact Hd | lia].
Qed.

(** C8, as the specification words it, at a machine without GPU: 8 is not
    a multiple of the 0 devices detected, and the call returns 8 instead
    of failing. *)
Lemma get_per_replica_batch_size_zero_devices :
  ~ (Z.of_nat (length (@nil string)) | 8)%Z
  /\ get_per_replica_batch_size [] 8 = Ok 8%Z
  /\ raises (get_per_replica_batch_size [] 8) = false.
Proof.
  split; [| split; reflexivity].
  intros [q Hq]. simpl in Hq. lia.
Qed.

(** C8 (amended): with at least one GPU detected the call fails with a
    [ValueError] exactly when the global batch size is not a multiple of
    the number of GPUs, and otherwise returns the quotient; with no GPU
    detected it returns the global batch size unchanged. *)
Theorem get_per_replica_batch_size_spec (gpus : list string) (b : Z) :
  let n := Z.of_nat (length gpus) in
  (gpus = [] -> get_per_replica_batch_size gpus b = Ok b)
  /\ (gpus <> [] ->
      (~ (n | b)%Z ->
         get_per_replica_batch_size gpus b
         = Raise (ValueError (not_divisible_msg b (length gpus))))
      /\ ((n | b)%Z ->
          get_per_replica_batch_size gpus b = Ok (b / n)%Z
          /\ (b / n * n = b)%Z)).
Proof.
  intros n. split.
  - intros ->. reflexivity.
  - intros Hne.
    assert (Hpos : (0 < n)%Z).
    { subst n. destruct gpus; [congruence | simpl length; lia]. }
    unfold get_per_replica_batch_size.
    destruct (Nat.eqb_spec (length gpus) 0) as [H0 | _].
    { subst n. rewrite H0 in Hpos. simpl in Hpos. lia. }
    fold n. split.
    + intros Hnd.
      destruct (Z.eqb_spec (b mod n) 0) as [Hm | Hm]; simpl.
      * exfalso. apply Hnd. apply mod_zero_divide; assumption.
      * reflexivity.
    + intros Hd.
      destruct (Z.eqb_spec (b mod n) 0) as [Hm | Hm]; simpl.
      * split; [reflexivity |].
        destruct Hd as [q ->]. rewrite Z.div_mul; lia.
      * exfalso. apply Hm. apply mod_zero_divide; assumption.
Qed.

Lemma get_per_replica_batch_size_spec_witness :
  get_per_replica_batch_size ["/GPU:0"; "/GPU:1"] 7
  = Raise (ValueError (not_divisible_msg 7 2))
  /\ get_per_replica_batch_size ["/GPU:0"; "/GPU:1"] 8 = Ok 4%Z.
Proof.
  split.
  - apply (get_per_replica_batch_size_spec ["/GPU:0"; "/GPU:1"] 7).
    + discriminate.
    + intros [q Hq]. simpl in Hq. lia.
  - apply (get_per_replica_batch_size_spec ["/GPU:0"; "/GPU:1"] 8).
    + discriminate.
    + exists 4%Z. reflexivity.
Defined.

(** Counted over the devices the strategy replicates on (the GPUs, or the
    one CPU), the rule has no exception. *)
Lemma get_per_replica_batch_size_strategy (gpus : list string) (b : Z) :
  let d := Z.of_nat (length (strategy_devices gpus)) in
  get_per_replica_batch_size gpus b
  = if (b mod d =? 0)%Z then Ok (b / d)%Z
    else Raise (ValueError (not_divisible_msg b (length gpus))).
Proof.
  destruct gpus as [| g gpus]; simpl.
  - rewrite Z.mod_1_r, Z.div_1_r. reflexivity.
  - unfold get_per_replica_batch_size. simpl length.
    destruct (Z.eqb_spec (b mod Z.of_nat (S (length gpus))) 0); reflexivity.
Qed.

End ReplicaFacts.

(** ** File discovery *)

Module DiscoveryFacts.
Import Py Discovery Samples.

Lemma labels_length_from {A} (groups : list (list A)) (k : nat) :
  length (flat_map (fun ig : nat * list A => map (fun _ => fst ig) (snd ig))
                   (enumerate_from k groups))
  = length (flat_map (fun group => group) groups).
Proof.
  revert k. induction groups as [| g groups IH]; intros k; simpl.
  - reflexivity.
  - rewrite !length_app, length_map, IH. reflexivity.
Qed.

(** The two lists are parallel. *)
Lemma glob_image_files_lengths (data_dir : string) (root : list subdirectory) :
  length (fst (glob_image_files data_dir root))
  = length (snd (glob_image_files data_dir root)).
Proof.
  unfold glob_image_files, enumerate. simpl.
  symmetry. apply labels_length_from.
Qed.

(** A label is the index of a (subdirectory, extension, case) group:
    labels never decrease along the list and a new label starts with each
    non-empty group. *)
Lemma labels_from_groups {A} (groups : list (list A)) (k : nat) :
  flat_map (fun ig : nat * list A => map (fun _ => fst ig) (snd ig))
           (enumerate_from k groups)
  = flat_map (fun ig : nat * list A => replicate (length (snd ig)) (fst ig))
             (enumerate_from k groups).
Proof.
  revert k. induction groups as [| g groups IH]; intros k; simpl.
  - reflexivity.
  - rewrite IH. f_equal. clear. induction g; simpl; congruence.
Qed.

Lemma concat_nonempty_length (l : list (list string)) :
  length (concat (filter (fun g => nonempty g) l)) = length (concat l).
Proof.
  induction l as [| g l IH]; [reflexivity |].
  destruct g as [| x g].
  - rewrite filter_cons_False by (simpl; tauto). simpl. exact IH.
  - rewrite filter_cons_True by exact I. simpl. rewrite !length_app, IH. reflexivity.
Qed.

Lemma labels_single_group (sds : list (string * subdirectory)) (k : nat) :
  Forall (fun sd => exists g, filter (fun g => nonempty g) (subdir_groups sd) = [g]) sds ->
  flat_map (fun ig : nat * list string => map (fun _ => fst ig) (snd ig))
           (enumerate_from k (filter (fun g => nonempty g) (flat_map subdir_groups sds)))
  = flat_map (fun isd : nat * (string * subdirectory) =>
                replicate (length (concat (subdir_groups (snd isd)))) (fst isd))
             (enumerate_from k sds).
Proof.
  revert k. induction sds as [| sd sds IH]; intros k Hall; [reflexivity |].
  inversion Hall as [| ? ? [g Hg] Hrest]; subst.
  cbn [flat_map enumerate_from]. rewrite filter_app, Hg.
  cbn [app enumerate_from flat_map fst snd]. rewrite (IH (S k) Hrest).
  f_equal. rewrite <- concat_nonempty_length, Hg. simpl. rewrite app_nil_r.
  clear. induction g; simpl; congruence.
Qed.

(** When every subdirectory holds images of one extension and case only,
    the label of a file is the rank of its subdirectory. *)
Lemma glob_image_files_single_group (data_dir : string) (root : list subdirectory) :
  Forall (fun sd => exists g, filter (fun g => nonempty g) (subdir_groups sd) = [g])
         (sorted_subdirs data_dir root) ->
  (glob_image_files data_dir root).2
  = flat_map (fun isd : nat * (string * subdirectory) =>
                replicate (length (concat (subdir_groups (snd isd)))) (fst isd))
             (enumerate (sorted_subdirs data_dir root)).
Proof.
  intros Hall. unfold glob_image_files, groups, all_groups, enumerate. simpl.
  apply labels_single_group. exact Hall.
Qed.

Example glob_image_files_plain_classes :
  glob_image_files "data" plain_classes
  = (["data/catA/1.jpg"; "data/catA/2.jpg"; "data/catA/3.jpg";
      "data/catB/4.PNG"; "data/catB/5.PNG"],
     [0; 0; 0; 1; 1]).
Proof. vm_compute. reflexivity. Qed.

(** C1 on a tree with two classes, 3 and 2 images, where one class mixes
    extensions: the labels are the indices of the extension groups,
    [0; 0; 1; 2; 2], and not the ranks of the subdirectories,
    [0; 0; 0; 1; 1]. *)
Theorem glob_image_files_mixed_extensions :
  glob_image_files "data" two_classes
  = (["data/catA/1.jpg"; "data/catA/2.jpg"; "data/catA/3.png";
      "data/catB/4.jpg"; "data/catB/5.jpg"],
     [0; 0; 1; 2; 2])
  /\ map (subdir_rank "data" two_classes) (fst (glob_image_files "data" two_classes))
     = [Some 0; Some 0; Some 0; Some 1; Some 1].
Proof. split; vm_compute; reflexivity. Qed.

End DiscoveryFacts.

(** ** The image transform *)

Module ImageFacts.
Import Py Image.

Lemma forallb_Forall {A} (p : A -> bool) (l : list A) :
  forallb p l = true <-> Forall (fun x => p x = true) l.
Proof.
  induction l as [| x l IH]; simpl.
  - split; [constructor | reflexivity].
  - rewrite andb_true_iff, IH. split.
    + intros [? ?]. constructor; assumption.
    + intros H. inversion H; subst. split; assumption.
Qed.

Lemma bgr_image_spec (img : image) :
  bgr_image img = true
  <-> 0 < height img /\ 0 < width img /\ rect (width img) img.
Proof.
  unfold bgr_image, rect. rewrite !andb_true_iff, !Nat.ltb_lt, forallb_Forall.
  split.
  - intros [[Hh Hw] Hall]. repeat split; try assumption.
    eapply Forall_impl; [exact Hall |]. intros row Hrow. simpl in Hrow.
    apply andb_true_iff in Hrow as [Hlen Hpx].
    apply Nat.eqb_eq in Hlen. apply forallb_Forall in Hpx. split; [exact Hlen |].
    eapply Forall_impl; [exact Hpx |]. intros px Hp. simpl in Hp.
    apply Nat.eqb_eq. exact Hp.
  - intros (Hh & Hw & Hall). repeat split; try assumption.
    eapply Forall_impl; [exact Hall |]. intros row [Hlen Hpx]. simpl.
    apply andb_true_iff. split; [apply Nat.eqb_eq; exact Hlen |].
    apply forallb_Forall. eapply Forall_impl; [exact Hpx |].
    intros px Hp. simpl. apply Nat.eqb_eq. exact Hp.
Qed.

Lemma size_of_image (img : image) : take 2 (shape img) = [height img; width img].
Proof. reflexivity. Qed.

Lemma shorter_side (h w : nat) : nth (argmin [h; w]) [h; w] 0 = h `min` w.
Proof. simpl. destruct (Nat.leb_spec h w); simpl; lia. Qed.

Lemma rect_take_drop (w a b : nat) (img : image) :
  rect w img -> rect w (take a (drop b img)).
Proof. intros H. apply Forall_take, Forall_drop, H. Qed.

Lemma getitem_build_crop (img : image) :
  rect (width img) img ->
  getitem img (build_crop (take 2 (shape img))) = centred_square img.
Proof.
  intros Hrect. rewrite size_of_image. unfold build_crop, centred_square.
  set (h := height img). set (w := width img).
  unfold enumerate, argmin.
  destruct (Nat.leb_spec h w) as [Hle | Hlt]; cbn -[Nat.div Nat.min Nat.sub].
  - replace (h `min` w) with h by lia.
    rewrite Nat.sub_diag, Nat.sub_0_r. change (0 / 2) with 0. rewrite !drop_0.
    change (take h img) with (take (length img) img). rewrite !firstn_all.
    apply map_ext. intros row.
    replace ((w - h) / 2 + h - (w - h) / 2) with h by lia. reflexivity.
  - replace (h `min` w) with w by lia.
    replace ((h - w) / 2 + w - (h - w) / 2) with w by lia.
    rewrite Nat.sub_diag. change (0 / 2) with 0.
    apply map_ext_in. intros row Hin.
    rewrite Nat.sub_0_r, !drop_0.
    assert (Hlen : length row = w).
    { apply (rect_take_drop w w ((h - w) / 2)) in Hrect.
      unfold rect in Hrect. rewrite Forall_forall in Hrect.
      apply Hrect. apply list_elem_of_In. exact Hin. }
    rewrite <- Hlen. rewrite !firstn_all. reflexivity.
Qed.

Lemma half_le (n : nat) : n / 2 <= n.
Proof. apply Nat.Div0.div_le_upper_bound. lia. Qed.

Lemma centred_square_height (img : image) :
  height (centred_square img) = height img `min` width img.
Proof.
  unfold centred_square, height. rewrite length_map, length_take, length_drop.
  assert (Hd := half_le (length img - length img `min` width img)).
  unfold image, pixel in *. lia.
Qed.

Lemma centred_square_rect (img : image) :
  rect (width img) img ->
  rect (height img `min` width img) (centred_square img).
Proof.
  intros Hrect. unfold centred_square.
  set (m := height img `min` width img).
  apply (rect_take_drop _ m ((height img - m) / 2)) in Hrect.
  unfold rect in *. rewrite Forall_map.
  eapply Forall_impl; [exact Hrect |]. intros row [Hlen Hpx]. cbn beta. split.
  - rewrite length_map, length_take, length_drop.
    assert (Hd := half_le (width img - m)).
    subst m. unfold image, pixel in *. lia.
  - rewrite Forall_map. apply Forall_take, Forall_drop.
    eapply Forall_impl; [exact Hpx |]. intros px Hp. simpl.
    rewrite length_rev. exact Hp.
Qed.

Lemma nth_map_default {A B} (f : A -> B) (l : list A) (i : nat) (dA : A) (dB : B) :
  i < length l -> nth i (map f l) dB = f (nth i l dA).
Proof.
  intros Hi. rewrite (nth_indep _ dB (f dA)) by (rewrite length_map; exact Hi).
  apply map_nth.
Qed.

(** The crop, pixel by pixel: row [i], column [j], channel [c] of the
    square is row [(h - m) / 2 + i], column [(w - m) / 2 + j], channel
    [2 - c] of the image. *)
Lemma centred_square_pixel (img : image) (i j c : nat) :
  rect (width img) img ->
  i < height img `min` width img -> j < height img `min` width img -> c < 3 ->
  nth c (nth j (nth i (centred_square img) []) []) x00
  = nth (2 - c)
        (nth ((width img - height img `min` width img) / 2 + j)
             (nth ((height img - height img `min` width img) / 2 + i) img []) [])
        x00.
Proof.
  intros Hrect Hi Hj Hc. unfold centred_square.
  set (m := height img `min` width img) in *.
  set (top := (height img - m) / 2). set (left := (width img - m) / 2).
  assert (Htop := half_le (height img - m)). fold top in Htop.
  assert (Hleft := half_le (width img - m)). fold left in Hleft.
  assert (Hrows : i < length (take m (drop top img))).
  { rewrite length_take, length_drop. unfold height in *. subst m. lia. }
  rewrite (nth_map_default _ _ _ []) by exact Hrows.
  rewrite nth_firstn. destruct (Nat.ltb_spec i m) as [_ | ?]; [| lia].
  rewrite nth_skipn.
  set (row := nth (top + i) img []).
  assert (Hrow : length row = width img /\ Forall (fun px : pixel => length px = 3) row).
  { unfold rect in Hrect. rewrite Forall_forall in Hrect. apply Hrect.
    apply list_elem_of_In. apply nth_In. unfold height in *. subst m. lia. }
  destruct Hrow as [Hlen Hpx].
  assert (Hcols : j < length (take m (drop left row))).
  { rewrite length_take, length_drop. subst m. lia. }
  rewrite (nth_map_default _ _ _ []) by exact Hcols.
  rewrite nth_firstn. destruct (Nat.ltb_spec j m) as [_ | ?]; [| lia].
  rewrite nth_skipn.
  set (pixel_here := nth (left + j) row []).
  assert (Hp : length pixel_here = 3).
  { rewrite Forall_forall in Hpx. apply Hpx.
    apply list_elem_of_In. apply nth_In. subst m. lia. }
  change (nth c (rev pixel_here) x00 = nth (2 - c) pixel_here x00).
  rewrite rev_nth by lia. rewrite Hp. f_equal.
Qed.

Lemma rect_width (m : nat) (img : image) :
  rect m img -> 0 < height img -> width img = m.
Proof.
  destruct img as [| row img]; simpl; [lia |].
  intros H _. inversion H as [| ? ? [Hlen _] _]; subst. reflexivity.
Qed.

Lemma rect_channels (m : nat) (img : image) :
  rect m img -> 0 < height img -> 0 < m -> channels img = 3.
Proof.
  destruct img as [| row img]; simpl; [lia |].
  intros H _ Hm. inversion H as [| ? ? [Hlen Hpx] _]; subst.
  destruct row as [| px row]; simpl in *; [lia |].
  inversion Hpx; subst. assumption.
Qed.

Section Codec.
Variable cv2_imread : string -> option image.
Variable resample : interpolation -> image -> nat -> nat -> nat -> nat -> nat -> byte.

(** [cv2.resize] to a positive size gives rows and columns of that size,
    with the channels of the source. *)
Lemma cv2_resize_shape (src : image) (S : nat) (method : interpolation) :
  0 < S -> 0 < height src -> 0 < width src ->
  exists out,
    cv2_resize resample src (S, S) method = Ok out
    /\ shape out = [S; S; channels src]
    /\ Forall (fun row => length row = S
                 /\ Forall (fun px : pixel => length px = channels src) row) out.
Proof.
  intros HS Hh Hw. unfold cv2_resize. simpl fst. simpl snd.
  destruct (Nat.eqb_spec S 0); [lia |].
  destruct (Nat.eqb_spec (height src) 0); [lia |].
  destruct (Nat.eqb_spec (width src) 0); [lia |].
  simpl. eexists. split; [reflexivity |]. split.
  - unfold shape, height, width, channels.
    rewrite length_map, length_seq.
    destruct S as [| S']; [lia |]. simpl.
    rewrite length_map, length_seq, length_map, length_seq. reflexivity.
  - rewrite Forall_map. apply Forall_forall. intros i _. simpl. split.
    + rewrite length_map, length_seq. reflexivity.
    + rewrite Forall_map. apply Forall_forall. intros j _. simpl.
      rewrite length_map, length_seq. reflexivity.
Qed.

(** The transform on an image that is large enough. *)
Lemma load_large_enough (filename : string) (img : image) (S : nat) :
  cv2_imread filename = Some img ->
  bgr_image img = true ->
  0 < S ->
  S <= height img `min` width img ->
  load_crop_resize_img cv2_imread resample filename S
    = cv2_resize resample (centred_square img) (S, S) INTER_AREA
  /\ shape (centred_square img)
     = [height img `min` width img; height img `min` width img; 3]
  /\ (exists out,
        load_crop_resize_img cv2_imread resample filename S = Ok out
        /\ shape out = [S; S; 3]
        /\ rect S out).
Proof.
  intros Hread Hbgr HS Hmin.
  apply bgr_image_spec in Hbgr as (Hh & Hw & Hrect).
  set (m := height img `min` width img) in *.
  assert (Hload : load_crop_resize_img cv2_imread resample filename S
                  = cv2_resize resample (centred_square img) (S, S) INTER_AREA).
  { unfold load_crop_resize_img. rewrite Hread.
    rewrite size_of_image, shorter_side.
    destruct (Nat.ltb_spec (height img `min` width img) S) as [Hlt | _];
      [subst m; lia |].
    rewrite <- size_of_image, getitem_build_crop by exact Hrect. reflexivity. }
  assert (Hsqh : height (centred_square img) = m) by apply centred_square_height.
  assert (Hsqr : rect m (centred_square img)) by (apply centred_square_rect, Hrect).
  assert (Hsqw : width (centred_square img) = m) by (apply rect_width; [exact Hsqr | lia]).
  assert (Hsqc : channels (centred_square img) = 3)
    by (apply (rect_channels m); [exact Hsqr | lia | lia]).
  split; [exact Hload |]. split.
  { unfold shape. rewrite Hsqh, Hsqw, Hsqc. reflexivity. }
  destruct (cv2_resize_shape (centred_square img) S INTER_AREA)
    as (out & Hout & Hshape & Hall); try lia.
  exists out. rewrite Hload. split; [exact Hout |].
  rewrite Hsqc in Hshape, Hall. split; [exact Hshape | exact Hall].
Qed.

(** C6: a decoded image whose shorter side is at least the target size
    [S] is cropped to the centred square of that side (offset
    [(longer - shorter) // 2] along the longer axis, the whole shorter
    axis), its channels reversed, and resampled with [INTER_AREA] to an
    [S]x[S]x3 tensor of bytes; for a 200x100 image the crop keeps rows
    50 to 149 and every column. *)
Theorem load_crop_resize_img_square (filename : string) (img : image) (S : nat) :
  cv2_imread filename = Some img ->
  bgr_image img = true ->
  0 < S ->
  S <= height img `min` width img ->
  let m := height img `min` width img in
  load_crop_resize_img cv2_imread resample filename S
    = cv2_resize resample (centred_square img) (S, S) INTER_AREA
  /\ shape (centred_square img) = [m; m; 3]
  /\ (forall i j c, i < m -> j < m -> c < 3 ->
        nth c (nth j (nth i (centred_square img) []) []) x00
        = nth (2 - c)
              (nth ((width img - m) / 2 + j)
                   (nth ((height img - m) / 2 + i) img []) [])
              x00)
  /\ (exists out,
        load_crop_resize_img cv2_imread resample filename S = Ok out
        /\ shape out = [S; S; 3]
        /\ rect S out)
  /\ build_crop [200; 100]
     = [SliceRange (Some 50) (Some 150); SliceRange None None; SliceReversed].
Proof.
  intros Hread Hbgr HS Hmin m.
  destruct (load_large_enough filename img S Hread Hbgr HS Hmin) as (H1 & H2 & H3).
  apply bgr_image_spec in Hbgr as (_ & _ & Hrect).
  split; [exact H1 |]. split; [exact H2 |].
  split; [intros i j c; apply centred_square_pixel; exact Hrect |].
  split; [exact H3 | reflexivity].
Qed.

(** The too-small test reads the shorter side, whatever the pixels. *)
Lemma load_crop_resize_img_too_small (filename : string) (img : image) (S : nat) :
  cv2_imread filename = Some img ->
  height img `min` width img < S ->
  load_crop_resize_img cv2_imread resample filename S
  = Raise (ImageTooSmall (height img, width img)).
Proof.
  intros Hread Hlt. unfold load_crop_resize_img. rewrite Hread.
  rewrite size_of_image, shorter_side.
  destruct (Nat.ltb_spec (height img `min` width img) S); [reflexivity | lia].
Qed.


Lemma load_crop_resize_img_unreadable (filename : string) (S : nat) :
  cv2_imread filename = None ->
  load_crop_resize_img cv2_imread resample filename S
  = Raise (AttributeError "'NoneType' object has no attribute 'shape'").
Proof. intros H. unfold load_crop_resize_img. rewrite H. reflexivity. Qed.

(** A file that decodes to a colour image either loads or is too
    small, for a positive target size. *)
Lemma load_decodable (filename : string) (img : image) (S : nat) :
  cv2_imread filename = Some img ->
  bgr_image img = true ->
  0 < S ->
  (exists out, load_crop_resize_img cv2_imread resample filename S = Ok out)
  \/ load_crop_resize_img cv2_imread resample filename S
     = Raise (ImageTooSmall (height img, width img)).
Proof.
  intros Hread Hbgr HS.
  destruct (Nat.lt_ge_cases (height img `min` width img) S) as [Hlt | Hge].
  - right. apply load_crop_resize_img_too_small; assumption.
  - left. destruct (load_large_enough filename img S Hread Hbgr HS Hge)
      as (_ & _ & out & Hout & _).
    exists out. exact Hout.
Qed.

(** Whatever loads has the target shape. *)
Lemma load_ok_shape (filename : string) (S : nat) (out : image) :
  (forall img, cv2_imread filename = Some img -> bgr_image img = true) ->
  load_crop_resize_img cv2_imread resample filename S = Ok out ->
  shape out = [S; S; 3] /\ rect S out.
Proof.
  intros Hbgr Hload.
  destruct (cv2_imread filename) as [img |] eqn:Hread.
  - specialize (Hbgr img eq_refl).
    destruct (Nat.lt_ge_cases (height img `min` width img) S) as [Hlt | Hge].
    { rewrite (load_crop_resize_img_too_small filename img S Hread Hlt) in Hload.
      discriminate. }
    destruct (Nat.eq_dec S 0) as [-> | HS].
    { unfold load_crop_resize_img in Hload. rewrite Hread in Hload.
      rewrite size_of_image, shorter_side in Hload.
      destruct (Nat.ltb_spec (height img `min` width img) 0); [lia |].
      unfold cv2_resize in Hload. simpl in Hload. discriminate. }
    destruct (load_large_enough filename img S Hread Hbgr ltac:(lia) Hge)
      as (_ & _ & out' & Hout & Hshape & Hrect).
    rewrite Hload in Hout. injection Hout as <-. auto.
  - rewrite (load_crop_resize_img_unreadable filename S Hread) in Hload.
    discriminate.
Qed.

(** The three ways the transform fails. *)
Lemma load_raise_cases (filename : string) (S : nat) (e : exn) :
  load_crop_resize_img cv2_imread resample filename S = Raise e ->
  (cv2_imread filename = None
   /\ e = AttributeError "'NoneType' object has no attribute 'shape'")
  \/ (exists img, cv2_imread filename = Some img
                  /\ height img `min` width img < S
                  /\ e = ImageTooSmall (height img, width img))
  \/ (exists img msg, cv2_imread filename = Some img
                      /\ S <= height img `min` width img
                      /\ e = Cv2Error msg).
Proof.
  intros Hload.
  destruct (cv2_imread filename) as [img |] eqn:Hread.
  - right.
    destruct (Nat.lt_ge_cases (height img `min` width img) S) as [Hlt | Hge].
    + left. exists img.
      rewrite (load_crop_resize_img_too_small filename img S Hread Hlt) in Hload.
      injection Hload as <-. auto.
    + right. unfold load_crop_resize_img in Hload. rewrite Hread in Hload.
      rewrite size_of_image, shorter_side in Hload.
      destruct (Nat.ltb_spec (height img `min` width img) S); [lia |].
      unfold cv2_resize in Hload.
      destruct (_ || _); [| discriminate].
      injection Hload as <-. eauto.
  - left. rewrite (load_crop_resize_img_unreadable filename S Hread) in Hload.
    injection Hload as <-. auto.
Qed.

End Codec.

Lemma load_crop_resize_img_square_witness :
  let m := height Samples.tall `min` width Samples.tall in
  load_crop_resize_img Samples.sample_imread Samples.nearest "d/b/z.jpg" 2
  = cv2_resize Samples.nearest (centred_square Samples.tall) (2, 2) INTER_AREA
  /\ shape (centred_square Samples.tall) = [m; m; 3]
  /\ (forall i j c, i < m -> j < m -> c < 3 ->
        nth c (nth j (nth i (centred_square Samples.tall) []) []) x00
        = nth (2 - c)
              (nth ((width Samples.tall - m) / 2 + j)
                   (nth ((height Samples.tall - m) / 2 + i) Samples.tall []) [])
              x00)
  /\ (exists out,
        load_crop_resize_img Samples.sample_imread Samples.nearest "d/b/z.jpg" 2 = Ok out
        /\ shape out = [2; 2; 3]
        /\ rect 2 out)
  /\ build_crop [200; 100]
     = [SliceRange (Some 50) (Some 150); SliceRange None None; SliceReversed].
Proof.
  apply (load_crop_resize_img_square Samples.sample_imread Samples.nearest
           "d/b/z.jpg" Samples.tall 2).
  - vm_compute. reflexivity.
  - vm_compute. reflexivity.
  - lia.
  - vm_compute. lia.
Defined.

End ImageFacts.

(** ** The .npy header and the in-place resize *)

Module NpyFacts.
Import Py Npy.

Lemma string_length_app (a b : string) :
  String.length (a ++ b) = String.length a + String.length b.
Proof. induction a as [| c a IH]; simpl; [reflexivity | rewrite IH; reflexivity]. Qed.

Lemma length_encode (s : string) : length (encode s) = String.length s.
Proof.
  unfold encode, list_byte_of_string. rewrite length_map.
  induction s as [| c s IH]; simpl; [reflexivity | rewrite IH; reflexivity].
Qed.

Lemma length_pack_le (k n : nat) : length (pack_le k n) = k.
Proof. revert n. induction k as [| k IH]; intros n; simpl; [| rewrite IH]; reflexivity. Qed.

Lemma length_wrap_header (header : string) (major : nat) (h : bytes) :
  wrap_header header major = Some h ->
  length h = aligned (MAGIC_LEN + (if (major =? 1)%nat then 2 else 4)
                      + (String.length header + 1)).
Proof.
  unfold wrap_header, aligned.
  set (fmt := if (major =? 1)%nat then 2 else 4).
  set (hlen := String.length header + 1).
  destruct (_ <? _)%N; [| discriminate].
  intros H. apply (inj Some) in H. subst h.
  rewrite !length_app, length_pack_le, length_encode, length_replicate.
  unfold MAGIC_PREFIX, MAGIC_LEN, ARRAY_ALIGN. simpl length.
  assert (Hmod := Nat.mod_upper_bound (8 + fmt + hlen) 64).
  assert (Hdiv := Nat.div_mod_eq (8 + fmt + hlen) 64).
  subst hlen. lia.
Qed.

(** A dictionary shorter than 118 characters gives a version-1 header of
    64 or 128 bytes; this is the case in [create_dataset]. *)
Lemma array_header_short (d : dtype) (shape : list nat) :
  String.length (header_dict d shape) < 118 ->
  exists h, array_header d shape = Ok h
            /\ length h = aligned (10 + (String.length (header_dict d shape) + 1)).
Proof.
  intros Hlen. unfold array_header, wrap_header_guess_version.
  destruct (wrap_header (header_dict d shape) 1) as [h |] eqn:Hw.
  - exists h. split; [reflexivity |].
    apply length_wrap_header in Hw. exact Hw.
  - exfalso. unfold wrap_header in Hw.
    change ((1 =? 1)%nat) with true in Hw. cbv iota in Hw.
    destruct (N.ltb_spec
      (N.of_nat (String.length (header_dict d shape) + 1
       + (ARRAY_ALIGN - (MAGIC_LEN + 2 + (String.length (header_dict d shape) + 1))
                         mod ARRAY_ALIGN)))
      (2 ^ (8 * N.of_nat 2))%N) as [_ | Hge]; [discriminate |].
    unfold ARRAY_ALIGN, MAGIC_LEN in Hge.
    change (2 ^ (8 * N.of_nat 2))%N with 65536%N in Hge. lia.
Qed.

Lemma pwrite_header (h h_old data : bytes) :
  length h = length h_old -> pwrite 0 h (h_old ++ data) = h ++ data.
Proof.
  intros Hlen. unfold pwrite. simpl.
  rewrite Hlen, drop_app_length. reflexivity.
Qed.

Lemma extend_to_enough (n : nat) (content : bytes) :
  n <= length content -> extend_to n content = content.
Proof.
  intros H. unfold extend_to.
  replace (n - length content) with 0 by lia. simpl. apply app_nil_r.
Qed.

Lemma length_pwrite (pos : nat) (data content : bytes) :
  length content <= length (pwrite pos data content).
Proof.
  unfold pwrite. rewrite !length_app, length_take, length_replicate, length_drop. lia.
Qed.

Lemma length_extend_to (n : nat) (content : bytes) :
  length content <= length (extend_to n content).
Proof. unfold extend_to. rewrite length_app. lia. Qed.

(** No step of [resize_npy_file] cuts the file: whatever the new shape,
    the file is at least as long afterwards. *)
Lemma resize_npy_file_never_shrinks (fs : gmap string file) (m : memmap)
    (new_shape : list nat) (n : nat) :
  file_length fs (filename m) = Some n ->
  exists n', file_length (resize_npy_file fs m new_shape).2 (filename m) = Some n'
             /\ n <= n'.
Proof.
  unfold file_length, resize_npy_file, write_header_in_place, np_memmap.
  destruct (fs !! filename m) as [[content |] |] eqn:Hf; try discriminate.
  intros [= <-].
  destruct (array_header (mm_dtype m) new_shape) as [h | e]; simpl.
  - rewrite lookup_insert_eq. simpl. rewrite lookup_insert_eq.
    eexists. split; [reflexivity |].
    etransitivity; [apply (length_pwrite 0 h) | apply length_extend_to].
  - rewrite Hf. eexists. split; [reflexivity | lia].
Qed.

Lemma entry_take (e i used : nat) (data : bytes) :
  i < used -> entry e i (take (used * e) data) = entry e i data.
Proof.
  intros Hi. unfold entry.
  rewrite skipn_firstn_comm, take_take.
  f_equal. nia.
Qed.

(** C10: when the rewritten header takes as many bytes as the one it
    replaces, the array returned by [resize_npy_file] starts at the same
    offset and shows, entry for entry, the bytes that were in the file
    before: every entry below the new leading dimension is unchanged. *)
Theorem resize_npy_file_keeps_entries (fs : gmap string file) (m : memmap)
    (used : nat) (trailing : list nat) (h_old h_new data : bytes) :
  fs !! filename m = Some (Raw (h_old ++ data)) ->
  mm_offset m = length h_old ->
  array_header (mm_dtype m) (used :: trailing) = Ok h_new ->
  length h_new = length h_old ->
  used * (size trailing * itemsize (mm_dtype m)) <= length data ->
  exists out fs',
    resize_npy_file fs m (used :: trailing) = (Ok out, fs')
    /\ mm_shape out = used :: trailing
    /\ mm_offset out = mm_offset m
    /\ memmap_data fs' out = take (nbytes out) data
    /\ forall i, i < used ->
         entry (size trailing * itemsize (mm_dtype m)) i (memmap_data fs' out)
         = entry (size trailing * itemsize (mm_dtype m)) i data.
Proof.
  intros Hf Hoff Hh Hlen Hfit.
  unfold resize_npy_file, write_header_in_place. rewrite Hf, Hh.
  unfold np_memmap. rewrite lookup_insert_eq.
  rewrite pwrite_header by exact Hlen.
  assert (Hsize : size (used :: trailing) * itemsize (mm_dtype m)
                  = used * (size trailing * itemsize (mm_dtype m))).
  { unfold size. simpl. lia. }
  rewrite extend_to_enough by (rewrite length_app, Hsize; lia).
  eexists. eexists. split; [reflexivity |].
  split; [reflexivity |]. split; [simpl; lia |].
  assert (Hdata : memmap_data
            (<[filename m := Raw (h_new ++ data)]>
               (<[filename m := Raw (h_new ++ data)]> fs))
            {| filename := filename m; mm_dtype := mm_dtype m;
               mm_shape := used :: trailing; mm_offset := length h_new |}
          = take (used * (size trailing * itemsize (mm_dtype m))) data).
  { unfold memmap_data, nbytes. simpl filename. rewrite lookup_insert_eq.
    simpl mm_offset. simpl mm_shape. simpl mm_dtype.
    rewrite drop_app_length, Hsize. reflexivity. }
  split.
  - rewrite Hdata. unfold nbytes. simpl mm_shape. simpl mm_dtype.
    rewrite Hsize. reflexivity.
  - intros i Hi. rewrite Hdata. apply entry_take. exact Hi.
Qed.

Lemma resize_npy_file_keeps_entries_witness :
  exists out fs',
    resize_npy_file Samples.labels_fs Samples.labels_memmap [1] = (Ok out, fs')
    /\ mm_shape out = [1]
    /\ mm_offset out = mm_offset Samples.labels_memmap
    /\ memmap_data fs' out = take (nbytes out) (replicate 8 x00)
    /\ forall i, i < 1 ->
         entry (size [] * itemsize (mm_dtype Samples.labels_memmap)) i
               (memmap_data fs' out)
         = entry (size [] * itemsize (mm_dtype Samples.labels_memmap)) i
                 (replicate 8 x00).
Proof.
  apply (resize_npy_file_keeps_entries Samples.labels_fs Samples.labels_memmap
           1 [] (value_or [] (array_header int32 [2]))
           (value_or [] (array_header int32 [1])) (replicate 8 x00)).
  - vm_compute. reflexivity.
  - vm_compute. reflexivity.
  - vm_compute. reflexivity.
  - vm_compute. reflexivity.
  - vm_compute. lia.
Defined.

(** C2 at the labels file of a run that kept one of two images: the
    header is rewritten for one entry and the returned array has one
    entry, but the file keeps its 136 bytes (header and two entries)
    where header and one entry make 132. *)
Theorem resize_npy_file_does_not_truncate :
  file_length Samples.labels_fs "/tmp/labels" = Some 136
  /\ (resize_npy_file Samples.labels_fs Samples.labels_memmap [1]).1
     = Ok {| filename := "/tmp/labels"; mm_dtype := int32; mm_shape := [1];
             mm_offset := 128 |}
  /\ (exists h rest,
        array_header int32 [1] = Ok h /\ length h = 128
        /\ (resize_npy_file Samples.labels_fs Samples.labels_memmap [1]).2
             !! "/tmp/labels" = Some (Raw (h ++ rest)))
  /\ file_length (resize_npy_file Samples.labels_fs Samples.labels_memmap [1]).2
       "/tmp/labels" = Some 136
  /\ 136 <> 128 + 1 * itemsize int32.
Proof.
  split; [vm_compute; reflexivity |].
  split; [vm_compute; reflexivity |].
  split.
  - exists (value_or [] (array_header int32 [1])), (replicate 8 x00).
    split; [vm_compute; reflexivity |].
    split; vm_compute; reflexivity.
  - split; [vm_compute; reflexivity | simpl; lia].
Qed.

(** Without the equal-length condition the entries are lost: going from
    ten entries to nine shortens this header from 192 to 128 bytes, and
    the returned array shows the padding of the old header instead of
    the data. *)
Lemma resize_npy_file_header_shrinks :
  memmap_data Samples.long_fs Samples.long_memmap = Samples.ten_bytes
  /\ (resize_npy_file Samples.long_fs Samples.long_memmap (Samples.long_shape 9)).1
     = Ok {| filename := "/tmp/long"; mm_dtype := uint8;
             mm_shape := Samples.long_shape 9; mm_offset := 128 |}
  /\ memmap_data
       (resize_npy_file Samples.long_fs Samples.long_memmap (Samples.long_shape 9)).2
       {| filename := "/tmp/long"; mm_dtype := uint8;
          mm_shape := Samples.long_shape 9; mm_offset := 128 |}
     = replicate 9 x20.
Proof. repeat split; vm_compute; reflexivity. Qed.

(** *** Header lengths in [create_dataset] *)

Lemma repr_digits_length (fuel n k : nat) (acc : string) :
  n < 10 ^ S k ->
  String.length acc + 1 <= String.length (repr_digits (S fuel) n acc)
  /\ String.length (repr_digits (S fuel) n acc) <= String.length acc + S k.
Proof.
  revert n k acc. induction fuel as [| fuel IH]; intros n k acc Hn.
  - cbn [repr_digits]. destruct (n / 10 =? 0)%nat; cbn [String.length]; lia.
  - rewrite (eq_refl : repr_digits (S (S fuel)) n acc
                       = let acc' := String (digit (n mod 10)) acc in
                         if (n / 10 =? 0)%nat then acc'
                         else repr_digits (S fuel) (n / 10) acc').
    cbv zeta. destruct (Nat.eqb_spec (n / 10) 0) as [Hz | Hnz].
    + cbn [String.length]. lia.
    + destruct k as [| k].
      * exfalso. apply Hnz. apply Nat.div_small. simpl in Hn. lia.
      * assert (Hdiv : n / 10 < 10 ^ S k).
        { apply Nat.Div0.div_lt_upper_bound. rewrite Nat.pow_succ_r' in Hn. lia. }
        destruct (IH (n / 10) k (String (digit (n mod 10)) acc) Hdiv) as [Hlo Hhi].
        cbn [String.length] in Hlo, Hhi. lia.
Qed.

Lemma repr_nat_length (n k : nat) :
  n < 10 ^ S k ->
  1 <= String.length (repr_nat n) /\ String.length (repr_nat n) <= S k.
Proof.
  intros Hn. unfold repr_nat.
  destruct (repr_digits_length n n k "" Hn) as [Hlo Hhi].
  cbn [String.length] in Hlo, Hhi. lia.
Qed.

Local Arguments repr_nat : simpl never.

Lemma header_dict_features_length (n S : nat) :
  String.length (header_dict uint8 [n; S; S; 3])
  = 62 + String.length (repr_nat n) + 2 * String.length (repr_nat S).
Proof.
  unfold header_dict, repr_tuple. cbn [map join_comma dtype_to_descr].
  rewrite !string_length_app. change (repr_nat 3) with "3".
  cbn [String.length]. lia.
Qed.

Lemma header_dict_labels_length (n : nat) :
  String.length (header_dict int32 [n]) = 56 + String.length (repr_nat n).
Proof.
  unfold header_dict, repr_tuple. cbn [dtype_to_descr].
  rewrite !string_length_app. cbn [String.length]. lia.
Qed.

Lemma aligned_128 (x : nat) : 64 <= x < 128 -> aligned x = 128.
Proof.
  intros Hx. unfold aligned, ARRAY_ALIGN.
  replace (x / 64) with 1; [reflexivity |].
  apply (Nat.div_unique x 64 1 (x - 64)); lia.
Qed.

(** The header of the features file takes 128 bytes whatever the leading
    dimension, as long as the dimensions have at most 18 digits. *)
Lemma features_header_length (n S : nat) :
  n < 10 ^ 18 -> S < 10 ^ 18 ->
  exists h, array_header uint8 [n; S; S; 3] = Ok h /\ length h = 128.
Proof.
  intros Hn HS.
  destruct (repr_nat_length n 17 Hn) as [Hn1 Hn2].
  destruct (repr_nat_length S 17 HS) as [HS1 HS2].
  assert (Hlen := header_dict_features_length n S).
  destruct (array_header_short uint8 [n; S; S; 3]) as (h & Hh & Hl); [lia |].
  exists h. split; [exact Hh |]. rewrite Hl. apply aligned_128. lia.
Qed.

Lemma labels_header_length (n : nat) :
  n < 10 ^ 18 ->
  exists h, array_header int32 [n] = Ok h /\ length h = 128.
Proof.
  intros Hn.
  destruct (repr_nat_length n 17 Hn) as [Hn1 Hn2].
  assert (Hlen := header_dict_labels_length n).
  destruct (array_header_short int32 [n]) as (h & Hh & Hl); [lia |].
  exists h. split; [exact Hh |]. rewrite Hl. apply aligned_128. lia.
Qed.

End NpyFacts.

(** ** The worker threads *)

Module PipelineFacts.
Import Py Image Pipeline.

(** *** Lists of workers *)

Lemma count_insert (P : pc -> bool) (l : list pc) (i : nat) (p q : pc) :
  l !! i = Some p ->
  count P (<[i := q]> l) + (if P p then 1 else 0)
  = count P l + (if P q then 1 else 0).
Proof.
  revert i. induction l as [| x l IH]; intros i Hi; [discriminate |].
  destruct i as [| i]; simpl in *.
  - injection Hi as ->. lia.
  - specialize (IH i Hi). lia.
Qed.

Lemma count_pos (P : pc -> bool) (l : list pc) (i : nat) (p : pc) :
  l !! i = Some p -> P p = true -> 1 <= count P l.
Proof.
  revert i. induction l as [| x l IH]; intros i Hi HP; [discriminate |].
  destruct i as [| i]; simpl in *.
  - injection Hi as ->. rewrite HP. lia.
  - specialize (IH i Hi HP). lia.
Qed.

Lemma count_le_length (P : pc -> bool) (l : list pc) : count P l <= length l.
Proof. induction l as [| x l IH]; simpl; [lia | destruct (P x); lia]. Qed.

(** Two distinct workers in the critical section would count for two. *)
Lemma count_two (l : list pc) (i j : nat) (p q : pc) :
  l !! i = Some p -> l !! j = Some q -> i <> j ->
  in_critical p = true -> in_critical q = true ->
  2 <= count in_critical l.
Proof.
  intros Hi Hj Hne Hp Hq.
  assert (H := count_insert in_critical l i p Start Hi).
  rewrite Hp in H. simpl in H.
  assert (Hj' : <[i := Start]> l !! j = Some q)
    by (rewrite list_lookup_insert_ne; assumption).
  assert (H1 := count_pos in_critical _ j q Hj' Hq). lia.
Qed.

Lemma omap_insert_same (l : list pc) (i : nat) (p q : pc) :
  l !! i = Some p -> slot q = slot p ->
  omap slot (<[i := q]> l) = omap slot l.
Proof.
  revert i. induction l as [| x l IH]; intros i Hi Hs; [discriminate |].
  destruct i as [| i]; simpl in *.
  - injection Hi as ->. rewrite Hs. reflexivity.
  - specialize (IH i Hi Hs). destruct (slot x); [f_equal |]; exact IH.
Qed.

Lemma omap_insert_new (l : list pc) (i : nat) (p q : pc) (r : nat) :
  l !! i = Some p -> slot p = None -> slot q = Some r ->
  omap slot (<[i := q]> l) ≡ₚ r :: omap slot l.
Proof.
  revert i. induction l as [| x l IH]; intros i Hi Hp Hq; [discriminate |].
  destruct i as [| i]; simpl in *.
  - injection Hi as ->. rewrite Hp, Hq. reflexivity.
  - specialize (IH i Hi Hp Hq). destruct (slot x) as [s |]; simpl.
    + etransitivity; [apply perm_skip, IH | apply perm_swap].
    + exact IH.
Qed.

Lemma slot_in_omap (l : list pc) (i : nat) (p : pc) (r : nat) :
  l !! i = Some p -> slot p = Some r -> r ∈ omap slot l.
Proof.
  intros Hi Hs. apply list_elem_of_omap. exists p. split; [| exact Hs].
  apply list_elem_of_lookup. exists i. exact Hi.
Qed.

(** Without duplicates among the reservations, a reservation names its
    worker. *)
Lemma slot_owner_unique (l : list pc) (i j : nat) (p q : pc) (r : nat) :
  NoDup (omap slot l) ->
  l !! i = Some p -> l !! j = Some q ->
  slot p = Some r -> slot q = Some r -> i = j.
Proof.
  revert i j. induction l as [| x l IH]; intros i j Hnd Hi Hj Hp Hq; [discriminate |].
  destruct i as [| i], j as [| j]; simpl in *; try reflexivity.
  - injection Hi as ->. rewrite Hp in Hnd. apply NoDup_cons in Hnd as [Hnotin _].
    exfalso. apply Hnotin. eapply slot_in_omap; eassumption.
  - injection Hj as ->. rewrite Hq in Hnd. apply NoDup_cons in Hnd as [Hnotin _].
    exfalso. apply Hnotin. eapply slot_in_omap; eassumption.
  - f_equal. apply IH; try assumption.
    destruct (slot x); [apply NoDup_cons in Hnd as [_ Hnd] |]; exact Hnd.
Qed.

Lemma length_omap_le (l : list pc) : length (omap slot l) <= length l.
Proof.
  induction l as [| x l IH]; [simpl; lia |].
  change (omap slot (x :: l))
    with (match slot x with Some y => y :: omap slot l | None => omap slot l end).
  destruct (slot x); simpl; lia.
Qed.

Lemma work_insert (l : list pc) (i : nat) (p q : pc) :
  l !! i = Some p ->
  total_remaining (<[i := q]> l) + remaining p
  = total_remaining l + remaining q.
Proof.
  revert i. induction l as [| x l IH]; intros i Hi; [discriminate |].
  destruct i as [| i]; simpl in *.
  - injection Hi as ->. lia.
  - specialize (IH i Hi). lia.
Qed.

Section Workers.

Variable cv2_imread : string -> option image.
Variable resample : interpolation -> image -> nat -> nat -> nat -> nat -> nat -> byte.
Variable files : list string.
Variable classes : list nat.
Variable image_size : nat.

Local Abbreviation load := (load cv2_imread resample image_size).
Local Abbreviation step := (process cv2_imread resample files classes image_size).
Local Abbreviation init := (init files).
Local Abbreviation reachable := (reachable cv2_imread resample files classes image_size).
Local Abbreviation invariant := (invariant cv2_imread resample files classes image_size).
Local Abbreviation thread_ok := (thread_ok cv2_imread resample files classes image_size).
Local Abbreviation loaded := (loaded cv2_imread resample files image_size).

Local Abbreviation move := (move cv2_imread resample files classes image_size).

(** The function [step] and the relation [move] describe the same
    steps. *)
Lemma step_move (i : nat) (st st' : state) :
  step i st = Some st' ->
  exists p p' st0,
    threads st !! i = Some p /\ move i st p p' st0 /\ st' = set_thread i p' st0.
Proof.
  unfold Pipeline.process. intros H.
  destruct (threads st !! i) as [p |] eqn:Hp; [| discriminate].
  exists p.
  destruct p; repeat case_match; simplify_eq/=;
    repeat match goal with
      | H : (_ <? _)%nat = true |- _ => apply Nat.ltb_lt in H
      | H : (_ <? _)%nat = false |- _ => apply Nat.ltb_ge in H
      | H : list_eqb _ _ = true |- _ => apply bool_decide_eq_true in H
      | H : list_eqb _ _ = false |- _ => apply bool_decide_eq_false in H
      end;
    do 2 eexists; (split; [reflexivity |]); (split; [| reflexivity]);
    try (econstructor; eauto; fail).
  all: eapply move_fail; eauto; intros size' ?; discriminate.
Qed.

Lemma move_step (i : nat) (st : state) (p p' : pc) (st0 : state) :
  threads st !! i = Some p -> move i st p p' st0 ->
  step i st = Some (set_thread i p' st0).
Proof.
  intros Hp Hm. unfold Pipeline.process. rewrite Hp.
  destruct Hm;
    repeat match goal with
      | H : files !! _ = _ |- _ => rewrite H
      | H : classes !! _ = _ |- _ => rewrite H
      | H : load _ = _ |- _ => rewrite H
      | H : lock _ = _ |- _ => rewrite H
      | H : _ < _ |- _ => apply Nat.ltb_lt in H; rewrite H
      | H : _ <= _ |- _ => apply Nat.ltb_ge in H; rewrite H
      | H : shape _ = _ |- _ => apply (bool_decide_eq_true_2 _) in H;
                                unfold list_eqb; rewrite H
      | H : shape _ <> _ |- _ => apply (bool_decide_eq_false_2 _) in H;
                                 unfold list_eqb; rewrite H
      end; try reflexivity.
  destruct e; try reflexivity. exfalso. eapply H1. reflexivity.
Qed.

Lemma move_remaining (i : nat) (st : state) (p p' : pc) (st0 : state) :
  move i st p p' st0 -> remaining p' < remaining p.
Proof. destruct 1; simpl; lia. Qed.

Lemma move_threads (i : nat) (st : state) (p p' : pc) (st0 : state) :
  move i st p p' st0 -> threads st0 = threads st.
Proof. destruct 1; reflexivity. Qed.

Lemma step_work (i : nat) (st st' : state) :
  step i st = Some st' -> work st' < work st.
Proof.
  intros H. destruct (step_move i st st' H) as (p & p' & st0 & Hp & Hm & ->).
  unfold work. simpl. rewrite (move_threads _ _ _ _ _ Hm).
  assert (Hw := work_insert (threads st) i p p' Hp).
  assert (Hr := move_remaining _ _ _ _ _ Hm). lia.
Qed.

Lemma move_lock (i : nat) (st : state) (p p' : pc) (st0 : state) :
  invariant st -> threads st !! i = Some p -> move i st p p' st0 ->
  count in_critical (<[i := p']> (threads st)) = if lock st0 then 1 else 0.
Proof.
  intros Hinv Hp Hm. assert (Hl := inv_lock _ _ _ _ _ _ Hinv).
  assert (Hc := count_insert in_critical (threads st) i p p' Hp).
  assert (Hpos := count_pos in_critical (threads st) i p Hp).
  destruct Hm; simpl in *; destruct (lock st); try discriminate; try lia.
  all: specialize (Hpos eq_refl); lia.
Qed.

Lemma move_returned (i : nat) (st : state) (p p' : pc) (st0 : state) :
  invariant st -> threads st !! i = Some p -> move i st p p' st0 ->
  omap slot (<[i := p']> (threads st)) ≡ₚ seq 0 (target st0).
Proof.
  intros Hinv Hp Hm. assert (Hr := inv_returned _ _ _ _ _ _ Hinv).
  assert (Hloc := inv_local _ _ _ _ _ _ Hinv i p Hp).
  unfold returned in Hr.
  destruct Hm; simpl in *;
    try (erewrite omap_insert_same; [exact Hr | exact Hp | reflexivity]).
  destruct Hloc as (_ & -> & ->).
  etransitivity; [eapply omap_insert_new; [exact Hp | reflexivity | reflexivity] |].
  rewrite Hr. replace (target st + 1) with (S (target st)) by lia.
  rewrite seq_S. simpl. apply Permutation_cons_append.
Qed.

Lemma returned_NoDup (st : state) : invariant st -> NoDup (returned st).
Proof.
  intros Hinv. rewrite (inv_returned _ _ _ _ _ _ Hinv). apply NoDup_seq.
Qed.

Lemma slot_bound (st : state) (i : nat) (p : pc) (r : nat) :
  invariant st -> threads st !! i = Some p -> slot p = Some r -> r < target st.
Proof.
  intros Hinv Hp Hs.
  assert (Hin : r ∈ returned st) by (eapply slot_in_omap; eassumption).
  rewrite (inv_returned _ _ _ _ _ _ Hinv) in Hin.
  apply elem_of_seq in Hin. lia.
Qed.

Lemma target_bound (st : state) : invariant st -> target st <= num_files files.
Proof.
  intros Hinv.
  assert (Hlen : length (returned st) = target st).
  { rewrite (inv_returned _ _ _ _ _ _ Hinv). apply length_seq. }
  rewrite <- Hlen, <- (inv_threads _ _ _ _ _ _ Hinv).
  apply length_omap_le.
Qed.

(** A worker is not affected by what it does not read. *)
Lemma thread_ok_frame (st st' : state) (j : nat) (q : pc) :
  thread_ok st j q ->
  (in_critical q = true -> target st' = target st) ->
  (forall r, slot q = Some r -> features st' !! r = features st !! r) ->
  (forall r, slot q = Some r -> labels st' !! r = labels st !! r) ->
  (forall m, m ∈ warnings st -> m ∈ warnings st') ->
  thread_ok st' j q.
Proof.
  intros Hok Ht Hf Hl Hw.
  destruct q as [| | | | | | | r | [r |] |]; simpl in *; try exact Hok.
  - rewrite Ht by reflexivity. exact Hok.
  - rewrite Ht by reflexivity. exact Hok.
  - destruct Hok as (img & Hload & Hfeat). exists img.
    rewrite Hf by reflexivity. auto.
  - destruct Hok as (img & c & Hload & Hfeat & Hc & Hlab). exists img, c.
    rewrite Hf, Hl by reflexivity. auto.
  - destruct Hok as (f & size & Hfile & Hload & Hin). exists f, size. auto.
Qed.

Lemma move_local (i : nat) (st : state) (p p' : pc) (st0 : state) :
  invariant st -> threads st !! i = Some p -> move i st p p' st0 ->
  forall j q, <[i := p']> (threads st) !! j = Some q ->
              thread_ok (set_thread i p' st0) j q.
Proof.
  intros Hinv Hp Hm j q Hj.
  assert (Hloc := inv_local _ _ _ _ _ _ Hinv).
  assert (Hnd := returned_NoDup st Hinv).
  assert (Hlock := inv_lock _ _ _ _ _ _ Hinv).
  apply list_lookup_insert_Some in Hj as [(-> & <- & Hlt) | (Hne & Hj)].
  - (* the worker that moved *)
    specialize (Hloc _ _ Hp).
    destruct Hm; simpl in *; try exact I; try tauto.
    + exists f. auto.
    + exists f, size. repeat split; try assumption.
      apply elem_of_app. right. apply list_elem_of_singleton. reflexivity.
    + exists img. split; [exact Hloc |].
      apply list_lookup_insert_eq. assumption.
    + destruct Hloc as (img & Hload & Hfeat). exists img, c.
      repeat split; try assumption.
      apply list_lookup_insert_eq. assumption.
  - (* the others *)
    specialize (Hloc _ _ Hj).
    eapply thread_ok_frame; [exact Hloc | | | |];
      destruct Hm; simpl; try (intros; reflexivity); try (intros; assumption).
    + intros Hq. exfalso.
      assert (H2 := count_two (threads st) i j _ q Hp Hj Hne eq_refl Hq).
      destruct (lock st); lia.
    + intros r' Hs. apply list_lookup_insert_ne. intros ->.
      apply Hne. eapply (slot_owner_unique (threads st)); try eassumption.
      reflexivity.
    + intros r' Hs. apply list_lookup_insert_ne. intros ->.
      apply Hne. eapply (slot_owner_unique (threads st)); try eassumption.
      reflexivity.
    + intros m Hin. apply elem_of_app. left. exact Hin.
Qed.

Lemma move_lengths (i : nat) (st : state) (p p' : pc) (st0 : state) :
  move i st p p' st0 ->
  length (features st0) = length (features st)
  /\ length (labels st0) = length (labels st).
Proof. destruct 1; simpl; rewrite ?length_insert; auto. Qed.

Lemma init_invariant : invariant init.
Proof.
  unfold Pipeline.init. constructor; simpl.
  - apply length_replicate.
  - apply length_replicate.
  - apply length_replicate.
  - induction (num_files files) as [| n IH]; simpl; [reflexivity | exact IH].
  - unfold returned. simpl.
    induction (num_files files) as [| n IH]; simpl; [reflexivity | exact IH].
  - intros i p Hi. apply lookup_replicate in Hi as [-> _]. exact I.
Qed.

Lemma step_invariant (i : nat) (st st' : state) :
  invariant st -> step i st = Some st' -> invariant st'.
Proof.
  intros Hinv H.
  destruct (step_move i st st' H) as (p & p' & st0 & Hp & Hm & ->).
  destruct (move_lengths _ _ _ _ _ Hm) as (Hf & Hl).
  constructor; simpl.
  - rewrite length_insert, (move_threads _ _ _ _ _ Hm).
    apply (inv_threads _ _ _ _ _ _ Hinv).
  - rewrite Hf. apply (inv_features _ _ _ _ _ _ Hinv).
  - rewrite Hl. apply (inv_labels _ _ _ _ _ _ Hinv).
  - rewrite (move_threads _ _ _ _ _ Hm). eapply move_lock; eassumption.
  - unfold returned. simpl. rewrite (move_threads _ _ _ _ _ Hm).
    eapply move_returned; eassumption.
  - rewrite (move_threads _ _ _ _ _ Hm). eapply move_local; eassumption.
Qed.

(** The invariant holds in every state the workers can reach, under any
    interleaving. *)
Lemma reachable_invariant (st : state) : reachable st -> invariant st.
Proof.
  induction 1 as [| st i st' _ IH Hstep].
  - apply init_invariant.
  - eapply step_invariant; eassumption.
Qed.

(** *** Runs *)

Local Abbreviation run := (run cv2_imread resample files classes image_size).
Local Abbreviation next := (next cv2_imread resample files classes image_size).
Local Abbreviation drain := (drain cv2_imread resample files classes image_size).
Local Abbreviation parallel := (parallel cv2_imread resample files classes image_size).

Lemma run_reachable (schedule : list nat) (st : state) :
  reachable st -> reachable (run schedule st).
Proof.
  revert st. induction schedule as [| i rest IH]; intros st Hr; simpl.
  - destruct (crashed st); exact Hr.
  - destruct (crashed st); [exact Hr |].
    apply IH. destruct (step i st) as [st' |] eqn:Hs; simpl; [| exact Hr].
    eapply reachable_step; eassumption.
Qed.

Lemma run_work (schedule : list nat) (st : state) :
  work (run schedule st) <= work st.
Proof.
  revert st. induction schedule as [| i rest IH]; intros st; simpl.
  - destruct (crashed st); lia.
  - destruct (crashed st); [lia |].
    etransitivity; [apply IH |].
    destruct (step i st) as [st' |] eqn:Hs; simpl; [| lia].
    apply step_work in Hs. lia.
Qed.

Lemma total_remaining_replicate (n : nat) :
  total_remaining (replicate n Start) = 8 * n.
Proof. induction n as [| n IH]; simpl; [reflexivity | rewrite IH; lia]. Qed.

Lemma work_init : work init = 8 * num_files files.
Proof. apply total_remaining_replicate. Qed.

Lemma next_sound (st st' : state) :
  next st = Some st' -> exists i, step i st = Some st'.
Proof.
  unfold Pipeline.next. intros H.
  destruct (list_find _ _) as [[k i] |]; [| discriminate].
  simpl in H. exists i. exact H.
Qed.

Lemma next_complete (st : state) (i : nat) :
  is_Some (step i st) -> is_Some (next st).
Proof.
  intros Hi. unfold Pipeline.next.
  assert (Hlt : i < length (threads st)).
  { destruct Hi as [st' Hs]. unfold Pipeline.process in Hs.
    destruct (threads st !! i) eqn:Hp; [| discriminate].
    eapply lookup_lt_Some. exact Hp. }
  destruct (list_find (fun i => is_Some (step i st)) (seq 0 (length (threads st))))
    as [[k j] |] eqn:Hf.
  - apply list_find_Some in Hf as (_ & Hj & _). simpl. exact Hj.
  - exfalso. apply list_find_None in Hf.
    rewrite Forall_forall in Hf. apply (Hf i); [| exact Hi].
    apply elem_of_seq. lia.
Qed.

Lemma count_exists (P : pc -> bool) (l : list pc) :
  1 <= count P l -> exists i p, l !! i = Some p /\ P p = true.
Proof.
  induction l as [| x l IH]; simpl; [lia |].
  destruct (P x) eqn:HP.
  - intros _. exists 0, x. auto.
  - intros H. destruct IH as (i & p & Hi & Hp); [lia |].
    exists (S i), p. auto.
Qed.

Lemma not_finished_exists (l : list pc) :
  forallb is_done l = false -> exists i p, l !! i = Some p /\ is_done p = false.
Proof.
  induction l as [| x l IH]; simpl; [discriminate |].
  destruct (is_done x) eqn:Hd; simpl.
  - intros H. destruct (IH H) as (i & p & Hi & Hp). exists (S i), p. auto.
  - intros _. exists 0, x. auto.
Qed.

Lemma crashed_None (st : state) (i : nat) (e : exn) (s : option nat) :
  crashed st = None -> threads st !! i <> Some (Crashed e s).
Proof.
  unfold crashed. intros Hc Hi.
  destruct (list_find _ (threads st)) as [[k p] |] eqn:Hf.
  - apply list_find_Some in Hf as (_ & [e' He'] & _). simpl in Hc.
    rewrite He' in Hc. discriminate.
  - apply list_find_None in Hf. rewrite Forall_forall in Hf.
    apply (Hf (Crashed e s)).
    + apply list_elem_of_lookup. exists i. exact Hi.
    + simpl. eexists. reflexivity.
Qed.

Lemma crashed_Some (st : state) (e : exn) :
  crashed st = Some e -> exists i s, threads st !! i = Some (Crashed e s).
Proof.
  unfold crashed. intros Hc.
  destruct (list_find _ (threads st)) as [[k p] |] eqn:Hf; [| discriminate].
  apply list_find_Some in Hf as (Hk & _ & _). simpl in Hc.
  destruct p as [| | | | | | | | | e' s']; try discriminate.
  simpl in Hc. injection Hc as ->.
  exists k, s'. exact Hk.
Qed.

(** No deadlock: while some worker has not returned and none has
    crashed, some worker can move. *)
Lemma progress (st : state) :
  invariant st -> crashed st = None -> finished st = false ->
  exists i, is_Some (step i st).
Proof.
  intros Hinv Hc Hf. assert (Hl := inv_lock _ _ _ _ _ _ Hinv).
  destruct (lock st) eqn:Hlock.
  - destruct (count_exists in_critical (threads st)) as (i & p & Hp & Hcrit); [lia |].
    exists i. unfold Pipeline.process. rewrite Hp.
    destruct p; try discriminate; eexists; reflexivity.
  - destruct (not_finished_exists _ Hf) as (i & p & Hp & Hd).
    exists i. unfold Pipeline.process. rewrite Hp.
    assert (Hnc : in_critical p = false).
    { destruct (in_critical p) eqn:Hcrit; [| reflexivity].
      assert (H1 := count_pos in_critical _ _ _ Hp Hcrit). lia. }
    destruct p; try discriminate; repeat case_match;
      try (eexists; reflexivity); try congruence.
    exfalso. eapply crashed_None; eassumption.
Qed.

Lemma work_zero_finished (st : state) :
  work st = 0 -> crashed st = None -> finished st = true.
Proof.
  intros Hw Hc. destruct (finished st) eqn:Hf; [reflexivity |].
  destruct (not_finished_exists _ Hf) as (i & p & Hp & Hd).
  assert (Hr : remaining p <= work st).
  { unfold work. clear -Hp. revert i Hp.
    induction (threads st) as [| x l IH]; intros i Hp; [discriminate |].
    destruct i; simpl in *; [injection Hp as ->; lia |].
    specialize (IH _ Hp). lia. }
  destruct p; simpl in *; try discriminate; try lia.
  exfalso. eapply crashed_None; eassumption.
Qed.

(** With enough fuel, [drain] ends with every worker returned, or with
    a crash. *)
Lemma drain_spec (fuel : nat) (st : state) :
  reachable st -> work st <= fuel ->
  reachable (drain fuel st)
  /\ (is_Some (crashed (drain fuel st)) \/ finished (drain fuel st) = true).
Proof.
  revert st. induction fuel as [| fuel IH]; intros st Hr Hw; simpl.
  - split; [exact Hr |].
    destruct (crashed st) eqn:Hc; [left; eauto |].
    right. apply work_zero_finished; [lia | exact Hc].
  - destruct (crashed st) eqn:Hc; [split; [exact Hr | left; rewrite Hc; eauto] |].
    destruct (next st) as [st' |] eqn:Hn.
    + destruct (next_sound _ _ Hn) as [i Hs].
      apply IH; [eapply reachable_step; eassumption |].
      apply step_work in Hs. lia.
    + split; [exact Hr |]. right.
      destruct (finished st) eqn:Hf; [reflexivity |].
      destruct (progress st (reachable_invariant st Hr) Hc Hf) as [i Hi].
      apply next_complete in Hi. rewrite Hn in Hi. destruct Hi; discriminate.
Qed.

(** [Parallel] always comes back: with a state in which every worker
    has returned, or with the exception of a crashed worker. *)
Lemma parallel_spec (schedule : list nat) :
  (exists st, parallel schedule = Ok st /\ reachable st
              /\ finished st = true /\ crashed st = None)
  \/ (exists e st, parallel schedule = Raise e /\ reachable st
                   /\ crashed st = Some e).
Proof.
  unfold Pipeline.parallel.
  destruct (drain_spec (8 * num_files files) (run schedule init)) as [Hr Hend].
  - apply run_reachable. constructor.
  - rewrite <- work_init. apply run_work.
  - destruct (crashed _) as [e |] eqn:Hc.
    + right. eauto 10.
    + left. destruct Hend as [[e He] | Hf]; [discriminate |]. eauto 10.
Qed.

(** *** What the workers leave behind *)

Lemma finished_lookup (st : state) (i : nat) (p : pc) :
  finished st = true -> threads st !! i = Some p -> exists s, p = Done s.
Proof.
  unfold finished. intros Hf Hp.
  apply ImageFacts.forallb_Forall in Hf. rewrite Forall_forall in Hf.
  assert (Hd : is_done p = true).
  { apply Hf. apply list_elem_of_lookup. exists i. exact Hp. }
  destruct p; try discriminate. eauto.
Qed.

(** Every reservation below the counter has its worker. *)
Lemma returned_owner (st : state) (r : nat) :
  invariant st -> r < target st ->
  exists i p, threads st !! i = Some p /\ slot p = Some r.
Proof.
  intros Hinv Hr.
  assert (Hin : r ∈ returned st).
  { rewrite (inv_returned _ _ _ _ _ _ Hinv). apply elem_of_seq. lia. }
  apply list_elem_of_omap in Hin as (p & Hp & Hs).
  apply list_elem_of_lookup in Hp as [i Hi]. eauto.
Qed.

Lemma colour_lookup (i : nat) (f : string) (img : image) :
  colour_images cv2_imread files = true ->
  files !! i = Some f -> cv2_imread f = Some img -> bgr_image img = true.
Proof.
  unfold colour_images. intros Hc Hf Hread.
  apply ImageFacts.forallb_Forall in Hc. rewrite Forall_forall in Hc.
  assert (Hin : f ∈ files) by (apply list_elem_of_lookup; eauto).
  specialize (Hc f Hin). simpl in Hc. rewrite Hread in Hc. exact Hc.
Qed.

Lemma loaded_shape (i : nat) (img : image) :
  colour_images cv2_imread files = true ->
  loaded i img ->
  shape img = [image_size; image_size; 3] /\ rect image_size img.
Proof.
  intros Hc (f & Hf & Hload).
  eapply ImageFacts.load_ok_shape; [| exact Hload].
  intros im Hread. eapply colour_lookup; eassumption.
Qed.

(** With as many classes as files and colour images only, a worker
    crashes only because its file does not load. *)
Lemma crash_origin (st : state) :
  length classes = length files ->
  colour_images cv2_imread files = true ->
  reachable st ->
  forall i e s, threads st !! i = Some (Crashed e s) ->
    exists f, files !! i = Some f /\ load f = Raise e
              /\ forall size, e <> ImageTooSmall size.
Proof.
  intros Hcl Hcol Hr. induction Hr as [| st i0 st' Hr IH Hstep]; intros i e s Hi.
  - apply lookup_replicate in Hi as [? _]. discriminate.
  - assert (Hinv := reachable_invariant st Hr).
    destruct (step_move i0 st st' Hstep) as (p & p' & st0 & Hp & Hm & ->).
    simpl in Hi. rewrite (move_threads _ _ _ _ _ Hm) in Hi.
    apply list_lookup_insert_Some in Hi as [(-> & -> & Hlt) | (Hne & Hi)];
      [| eapply IH; exact Hi].
    assert (Hloc := inv_local _ _ _ _ _ _ Hinv _ _ Hp).
    assert (Hn := inv_threads _ _ _ _ _ _ Hinv).
    assert (Hnf := inv_features _ _ _ _ _ _ Hinv).
    assert (Hnl := inv_labels _ _ _ _ _ _ Hinv).
    assert (Htb := target_bound st Hinv).
    unfold num_files in *.
    inversion Hm; subst; simpl in *; try (eauto; fail); exfalso;
      repeat match goal with
        | H : files !! _ = None |- _ => apply lookup_ge_None in H
        | H : classes !! _ = None |- _ => apply lookup_ge_None in H
        end;
      try lia.
    + destruct (loaded_shape i img Hcol Hloc) as [Hshape _]. congruence.
    + assert (Hb := slot_bound _ i _ r Hinv Hp eq_refl). lia.
    + assert (Hb := slot_bound _ i _ r Hinv Hp eq_refl). lia.
Qed.

(** When every file decodes, no worker crashes and [Parallel] returns. *)
Lemma parallel_completes (schedule : list nat) :
  0 < image_size ->
  length classes = length files ->
  colour_images cv2_imread files = true ->
  (forall f, f ∈ files -> is_Some (cv2_imread f)) ->
  exists st, parallel schedule = Ok st /\ reachable st /\ finished st = true.
Proof.
  intros HS Hcl Hcol Hdec.
  destruct (parallel_spec schedule) as [(st & Hp & Hr & Hf & _) | (e & st & Hp & Hr & Hc)].
  - eauto.
  - exfalso. apply crashed_Some in Hc as (i & s & Hi).
    destruct (crash_origin st Hcl Hcol Hr i e s Hi) as (f & Hf & Hload & Hnot).
    destruct (Hdec f) as [img Hread]; [apply list_elem_of_lookup; eauto |].
    destruct (ImageFacts.load_decodable cv2_imread resample f img image_size Hread)
      as [[out Hout] | Hsmall]; try assumption.
    + eapply colour_lookup; eassumption.
    + unfold Pipeline.load in Hload. congruence.
    + unfold Pipeline.load in Hload. rewrite Hsmall in Hload.
      injection Hload as <-. eapply Hnot. reflexivity.
Qed.

(** A file that does not decode makes [Parallel] raise the
    [AttributeError] of its worker, under every schedule. *)
Lemma parallel_unreadable (schedule : list nat) (i : nat) (f : string) :
  0 < image_size ->
  length classes = length files ->
  colour_images cv2_imread files = true ->
  files !! i = Some f -> cv2_imread f = None ->
  parallel schedule
  = Raise (AttributeError "'NoneType' object has no attribute 'shape'").
Proof.
  intros HS Hcl Hcol Hf Hread.
  assert (Hload : load f
                  = Raise (AttributeError "'NoneType' object has no attribute 'shape'"))
    by (apply ImageFacts.load_crop_resize_img_unreadable; exact Hread).
  destruct (parallel_spec schedule)
    as [(st & Hp & Hr & Hfin & _) | (e & st & Hp & Hr & Hc)].
  - exfalso. assert (Hinv := reachable_invariant st Hr).
    assert (Hlt : i < length (threads st)).
    { rewrite (inv_threads _ _ _ _ _ _ Hinv). eapply lookup_lt_Some. exact Hf. }
    apply lookup_lt_is_Some in Hlt as [p Hi].
    destruct (finished_lookup st i p Hfin Hi) as [s ->].
    assert (Hloc := inv_local _ _ _ _ _ _ Hinv _ _ Hi).
    destruct s as [r |]; simpl in Hloc.
    + destruct Hloc as (img & c & (f' & Hf' & Hl') & _). congruence.
    + destruct Hloc as (f' & size & Hf' & Hl' & _). congruence.
  - rewrite Hp. f_equal.
    apply crashed_Some in Hc as (j & s & Hj).
    destruct (crash_origin st Hcl Hcol Hr j e s Hj) as (f' & Hf' & Hl' & Hnot).
    apply ImageFacts.load_raise_cases in Hl'
      as [[_ ->] | [(img & _ & _ & ->) | (img & msg & Hread' & Hge & ->)]].
    + reflexivity.
    + exfalso. eapply Hnot. reflexivity.
    + exfalso.
      assert (Hbgr : bgr_image img = true) by (eapply colour_lookup; eassumption).
      destruct (ImageFacts.load_large_enough cv2_imread resample f' img image_size
                  Hread' Hbgr HS Hge) as (_ & _ & out & Hout & _).
      destruct (crash_origin st Hcl Hcol Hr j _ s Hj) as (f'' & Hf'' & Hl'' & _).
      unfold Pipeline.load in Hl''. congruence.
Qed.

Lemma omap_filter_count (l : list pc) (fs : list string) :
  length l = length fs ->
  (forall i p f, l !! i = Some p -> fs !! i = Some f ->
                 (slot p = None <-> is_too_small (load f) = true)) ->
  length (omap slot l)
  + length (List.filter (fun f => is_too_small (load f)) fs)
  = length fs.
Proof.
  revert fs. induction l as [| p l IH]; intros [| f fs] Hlen Hpt;
    try discriminate; [reflexivity |].
  simpl in Hlen.
  assert (Htail := IH fs ltac:(lia) (fun i => Hpt (S i))).
  assert (Hhead := Hpt 0 p f eq_refl eq_refl).
  change (omap slot (p :: l))
    with (match slot p with Some y => y :: omap slot l | None => omap slot l end).
  simpl List.filter.
  destruct (slot p) as [r |], (is_too_small (load f)); simpl length.
  - exfalso. destruct Hhead as [_ H]. specialize (H eq_refl). discriminate.
  - lia.
  - lia.
  - exfalso. destruct Hhead as [H _]. specialize (H eq_refl). discriminate.
Qed.

(** When every worker has returned, the counter stands at the number of
    files minus the number of files that were too small. *)
Lemma finished_count (st : state) :
  invariant st -> finished st = true ->
  target st + length (List.filter (fun f => is_too_small (load f)) files)
  = num_files files.
Proof.
  intros Hinv Hfin.
  assert (Hlen : length (returned st) = target st).
  { rewrite (inv_returned _ _ _ _ _ _ Hinv). apply length_seq. }
  rewrite <- Hlen. unfold returned. apply omap_filter_count.
  - apply (inv_threads _ _ _ _ _ _ Hinv).
  - intros i p f Hi Hf.
    destruct (finished_lookup st i p Hfin Hi) as [s ->].
    assert (Hloc := inv_local _ _ _ _ _ _ Hinv _ _ Hi).
    destruct s as [r |]; simpl in *.
    + destruct Hloc as (img & c & (f' & Hf' & Hl') & _).
      assert (f' = f) by congruence. subst f'. rewrite Hl'. simpl.
      split; discriminate.
    + destruct Hloc as (f' & size & Hf' & Hl' & _).
      assert (f' = f) by congruence. subst f'. rewrite Hl'. simpl.
      split; reflexivity.
Qed.

(** When every worker has returned, every row below the counter holds
    the image and the class of the worker that reserved it. *)
Lemma finished_rows (st : state) (r : nat) :
  invariant st -> finished st = true -> r < target st ->
  exists i img c,
    loaded i img /\ classes !! i = Some c
    /\ features st !! r = Some (Some img)
    /\ labels st !! r = Some (Some c).
Proof.
  intros Hinv Hfin Hr.
  destruct (returned_owner st r Hinv Hr) as (i & p & Hi & Hs).
  destruct (finished_lookup st i p Hfin Hi) as [s ->].
  simpl in Hs. subst s.
  destruct (inv_local _ _ _ _ _ _ Hinv _ _ Hi) as (img & c & Hl & Hf & Hc & Hlab).
  exists i, img, c. auto.
Qed.

(** *** The reservation *)

(** The counter never decreases. *)
Lemma step_target_mono (st : state) (i : nat) (st' : state) :
  invariant st -> step i st = Some st' -> target st <= target st'.
Proof.
  intros Hinv Hs.
  destruct (step_move i st st' Hs) as (p & p' & st0 & Hp & Hm & ->).
  assert (Hloc := inv_local _ _ _ _ _ _ Hinv _ _ Hp).
  destruct Hm; simpl in *; lia.
Qed.




(** C5: the counter never exceeds the number of files discovered and
    never decreases, no index is handed out twice, and once every
    worker has returned each row below the counter holds an image of
    shape S x S x 3 and one of the discovered labels. *)
Theorem create_dataset_store_invariant (st : state) :
  colour_images cv2_imread files = true ->
  reachable st ->
  target st <= num_files files
  /\ (forall i st', step i st = Some st' -> target st <= target st')
  /\ NoDup (returned st)
  /\ (finished st = true ->
      forall r, r < target st ->
        exists img c,
          features st !! r = Some (Some img)
          /\ shape img = [image_size; image_size; 3]
          /\ rect image_size img
          /\ labels st !! r = Some (Some c)
          /\ c ∈ classes).
Proof.
  intros Hcol Hr. assert (Hinv := reachable_invariant st Hr).
  split; [apply target_bound; exact Hinv |].
  split; [intros i st'; apply step_target_mono; exact Hinv |].
  split; [apply returned_NoDup; exact Hinv |].
  intros Hfin r Hlt.
  destruct (finished_rows st r Hinv Hfin Hlt) as (i & img & c & Hl & Hc & Hf & Hlab).
  destruct (loaded_shape i img Hcol Hl) as [Hshape Hrect].
  exists img, c. repeat split; try assumption.
  apply list_elem_of_lookup. exists i. exact Hc.
Qed.



Lemma parallel_count (schedule : list nat) (st : state) :
  parallel schedule = Ok st ->
  target st + length (List.filter (fun f => is_too_small (load f)) files)
  = num_files files.
Proof.
  intros Hp.
  destruct (parallel_spec schedule)
    as [(st1 & Hp1 & Hr & Hfin & _) | (e & st1 & Hp1 & _)]; [| congruence].
  assert (st1 = st) by congruence. subst st1.
  apply finished_count; [apply reachable_invariant; exact Hr | exact Hfin].
Qed.


End Workers.

(** *** The sample run *)

Lemma sample_state_reachable :
  reachable Samples.sample_imread Samples.nearest Samples.sample_files
    Samples.sample_classes 2 Samples.sample_state.
Proof.
  unfold Samples.sample_state.
  apply drain_spec.
  - apply run_reachable. constructor.
  - vm_compute. lia.
Qed.


Lemma create_dataset_store_invariant_witness :
  target Samples.sample_state <= num_files Samples.sample_files
  /\ forall r, r < target Samples.sample_state ->
       exists img c,
         features Samples.sample_state !! r = Some (Some img)
         /\ shape img = [2; 2; 3]
         /\ rect 2 img
         /\ labels Samples.sample_state !! r = Some (Some c)
         /\ c ∈ Samples.sample_classes.
Proof.
  destruct (create_dataset_store_invariant Samples.sample_imread Samples.nearest
              Samples.sample_files Samples.sample_classes 2 Samples.sample_state)
    as (Hle & _ & _ & Hrows).
  - vm_compute. reflexivity.
  - apply sample_state_reachable.
  - split; [exact Hle |]. apply Hrows. vm_compute. reflexivity.
Defined.


End PipelineFacts.

(** ** Temporary files and the outcome of create_dataset *)

Module DatasetFacts.
Import Py Image Npy Discovery Dataset.

Lemma os_remove_gone (name : string) (fs : gmap string file) :
  (os_remove name fs).2 !! name = None.
Proof.
  unfold os_remove. destruct (fs !! name) eqn:H; simpl.
  - apply lookup_delete_eq.
  - exact H.
Qed.

Lemma os_remove_keeps_absent (name other : string) (fs : gmap string file) :
  fs !! other = None -> (os_remove name fs).2 !! other = None.
Proof.
  intros H. unfold os_remove. destruct (fs !! name); simpl; [| exact H].
  apply lookup_delete_None. right. exact H.
Qed.

Section CreateDataset.

Variable cv2_imread : string -> option image.
Variable resample : interpolation -> image -> nat -> nat -> nat -> nat -> nat -> byte.
Variable mkstemp : gmap string file -> string.
Variable os_fault : io_op -> option exn.
Variable schedule : list nat.

Local Abbreviation temporary_file := (@temporary_file mkstemp).
Local Abbreviation build := (build cv2_imread resample os_fault schedule).
Local Abbreviation create_dataset :=
  (create_dataset cv2_imread resample mkstemp os_fault schedule).
Local Abbreviation parallel := (Pipeline.parallel cv2_imread resample).

Lemma temporary_file_outcome {A}
    (body : string -> gmap string file -> result A * gmap string file)
    (fs : gmap string file) :
  (temporary_file body fs).2
  = (os_remove (mkstemp fs) (body (mkstemp fs) (<[mkstemp fs := Raw []]> fs)).2).2.
Proof.
  unfold Dataset.temporary_file.
  destruct (body (mkstemp fs) (<[mkstemp fs := Raw []]> fs)) as [outcome fs'].
  simpl. destruct (os_remove (mkstemp fs) fs') as [[u | e] fs'']; reflexivity.
Qed.

(** The file of a [with temporary_file()] block is gone when the block
    is left, however it is left. *)
Lemma temporary_file_removed {A}
    (body : string -> gmap string file -> result A * gmap string file)
    (fs : gmap string file) :
  (temporary_file body fs).2 !! mkstemp fs = None.
Proof. rewrite temporary_file_outcome. apply os_remove_gone. Qed.

Lemma temporary_file_keeps_absent {A}
    (body : string -> gmap string file -> result A * gmap string file)
    (fs : gmap string file) (other : string) :
  (body (mkstemp fs) (<[mkstemp fs := Raw []]> fs)).2 !! other = None ->
  (temporary_file body fs).2 !! other = None.
Proof.
  intros H. rewrite temporary_file_outcome. apply os_remove_keeps_absent, H.
Qed.

Lemma temporary_file_raises {A}
    (body : string -> gmap string file -> result A * gmap string file)
    (fs : gmap string file) :
  (forall name fs1, raises (body name fs1).1 = true) ->
  raises (temporary_file body fs).1 = true.
Proof.
  intros H. unfold Dataset.temporary_file.
  specialize (H (mkstemp fs) (<[mkstemp fs := Raw []]> fs)).
  destruct (body (mkstemp fs) (<[mkstemp fs := Raw []]> fs)) as [outcome fs'].
  simpl in H. destruct (os_remove (mkstemp fs) fs') as [[u | e] fs'']; simpl;
    [exact H | reflexivity].
Qed.

(** C9: whenever [create_dataset] gets as far as its two temporary
    files, neither exists when it is left, whether it returns or raises
    (a worker crashed, the operating system refused a resize or a write
    of the archive). *)
Theorem temporary_files_are_removed (root : list subdirectory)
    (data_dir output_npz : string) (image_size : nat) (fs : gmap string file) :
  (glob_image_files data_dir root).1 <> [] ->
  let features_file := mkstemp fs in
  let labels_file := mkstemp (<[features_file := Raw []]> fs) in
  let outcome := create_dataset root data_dir output_npz image_size fs in
  outcome.2 !! features_file = None /\ outcome.2 !! labels_file = None.
Proof.
  intros Hne features_file labels_file outcome. subst outcome.
  unfold Dataset.create_dataset.
  destruct (glob_image_files data_dir root) as [files classes]. simpl in Hne.
  destruct (Nat.eqb_spec (length files) 0) as [H0 | _].
  { destruct files; [congruence | discriminate]. }
  split.
  - apply temporary_file_removed.
  - apply temporary_file_keeps_absent. apply temporary_file_removed.
Qed.

Lemma build_raises (files : list string) (classes : list nat)
    (output_npz : string) (image_size : nat) (features_file labels_file : string)
    (fs : gmap string file) (e : exn) :
  parallel files classes image_size schedule = Raise e ->
  raises (build files classes output_npz image_size features_file labels_file fs).1
  = true.
Proof.
  intros Hp. unfold Dataset.build.
  destruct (guarded _ _ _ fs) as [[features | e1] fs1]; [| reflexivity].
  destruct (guarded _ _ _ fs1) as [[labels | e2] fs2]; [| reflexivity].
  rewrite Hp. reflexivity.
Qed.

Lemma create_dataset_unreadable (root : list subdirectory)
    (data_dir output_npz : string) (image_size : nat) (fs : gmap string file)
    (i : nat) (f : string) :
  0 < image_size ->
  Pipeline.colour_images cv2_imread (glob_image_files data_dir root).1 = true ->
  (glob_image_files data_dir root).1 !! i = Some f ->
  cv2_imread f = None ->
  parallel (glob_image_files data_dir root).1 (glob_image_files data_dir root).2
    image_size schedule
  = Raise (AttributeError "'NoneType' object has no attribute 'shape'")
  /\ raises (create_dataset root data_dir output_npz image_size fs).1 = true.
Proof.
  intros HS Hcol Hf Hread.
  assert (Hlen := DiscoveryFacts.glob_image_files_lengths data_dir root).
  assert (Hp := PipelineFacts.parallel_unreadable cv2_imread resample
                  (glob_image_files data_dir root).1
                  (glob_image_files data_dir root).2 image_size schedule i f
                  HS (eq_sym Hlen) Hcol Hf Hread).
  split; [exact Hp |].
  unfold Dataset.create_dataset.
  destruct (glob_image_files data_dir root) as [files classes]. simpl in *.
  destruct (Nat.eqb (length files) 0); [reflexivity |].
  apply temporary_file_raises. intros name1 fs1.
  apply temporary_file_raises. intros name2 fs2.
  eapply build_raises. exact Hp.
Qed.

(** C3 (amended): images that are too small are absorbed, so that with
    every file decodable the workers all return and the run keeps the
    other images; a file that does not decode is not absorbed: its
    worker raises [AttributeError], [Parallel] raises it again and
    [create_dataset] ends with an exception. *)
Theorem only_too_small_images_are_absorbed (root : list subdirectory)
    (data_dir output_npz : string) (image_size : nat) (fs : gmap string file) :
  0 < image_size ->
  Pipeline.colour_images cv2_imread (glob_image_files data_dir root).1 = true ->
  let files := (glob_image_files data_dir root).1 in
  let classes := (glob_image_files data_dir root).2 in
  ((forall f, f ∈ files -> is_Some (cv2_imread f)) ->
   exists st,
     parallel files classes image_size schedule = Ok st
     /\ Pipeline.finished st = true
     /\ Pipeline.target st
        + length (List.filter
                    (fun f => Pipeline.is_too_small
                                (Pipeline.load cv2_imread resample image_size f))
                    files)
        = length files)
  /\ (forall i f,
        files !! i = Some f -> cv2_imread f = None ->
        parallel files classes image_size schedule
        = Raise (AttributeError "'NoneType' object has no attribute 'shape'")
        /\ raises (create_dataset root data_dir output_npz image_size fs).1 = true).
Proof.
  intros HS Hcol files classes. split.
  - intros Hdec.
    assert (Hlen := DiscoveryFacts.glob_image_files_lengths data_dir root).
    destruct (PipelineFacts.parallel_completes cv2_imread resample files classes
                image_size schedule HS (eq_sym Hlen) Hcol Hdec)
      as (st & Hp & Hr & Hfin).
    exists st. split; [exact Hp |]. split; [exact Hfin |].
    eapply PipelineFacts.parallel_count. exact Hp.
  - intros i f Hf Hread.
    apply (create_dataset_unreadable root data_dir output_npz image_size fs i f);
      assumption.
Qed.

End CreateDataset.

Lemma temporary_files_are_removed_witness :
  let features_file := Samples.sample_mkstemp ∅ in
  let labels_file := Samples.sample_mkstemp (<[features_file := Raw []]> ∅) in
  let outcome :=
    Dataset.create_dataset Samples.sample_imread Samples.nearest Samples.sample_mkstemp
      Samples.no_fault Samples.sample_schedule Samples.sample_tree "d" "out.npz" 2 ∅ in
  outcome.2 !! features_file = None /\ outcome.2 !! labels_file = None.
Proof.
  apply (temporary_files_are_removed Samples.sample_imread Samples.nearest
           Samples.sample_mkstemp Samples.no_fault Samples.sample_schedule
           Samples.sample_tree "d" "out.npz" 2 ∅).
  vm_compute. discriminate.
Defined.

Lemma sample_files_decode (f : string) :
  f ∈ (glob_image_files "d" Samples.sample_tree).1 ->
  is_Some (Samples.sample_imread f).
Proof.
  intros Hf.
  replace ((glob_image_files "d" Samples.sample_tree).1)
    with ["d/a/x.jpg"; "d/a/y.jpg"; "d/b/z.jpg"] in Hf by (vm_compute; reflexivity).
  repeat (apply elem_of_cons in Hf as [-> | Hf]; [eexists; vm_compute; reflexivity |]).
  apply elem_of_nil in Hf. destruct Hf.
Qed.

Lemma only_too_small_images_are_absorbed_witness :
  exists st,
    Pipeline.parallel Samples.sample_imread Samples.nearest
      (glob_image_files "d" Samples.sample_tree).1
      (glob_image_files "d" Samples.sample_tree).2 2 Samples.sample_schedule = Ok st
    /\ Pipeline.finished st = true.
Proof.
  destruct (only_too_small_images_are_absorbed Samples.sample_imread Samples.nearest
              Samples.sample_mkstemp Samples.no_fault Samples.sample_schedule
              Samples.sample_tree "d" "out.npz" 2 ∅) as [Hok _].
  - lia.
  - vm_compute. reflexivity.
  - destruct (Hok sample_files_decode) as (st & Hp & Hfin & _).
    exists st. split; assumption.
Defined.

(** C3 as the specification words it, on a tree with a file that does not
    decode: no warning is logged for it and the batch is aborted;
    [create_dataset] raises [AttributeError] and writes no archive. *)
Lemma unreadable_file_aborts_the_batch :
  "d/b/w.jpg" ∈ (glob_image_files "d" Samples.broken_tree).1
  /\ Samples.sample_imread "d/b/w.jpg" = None
  /\ Dataset.create_dataset Samples.sample_imread Samples.nearest Samples.sample_mkstemp
       Samples.no_fault Samples.sample_schedule Samples.broken_tree "d" "out.npz" 2 ∅
     = (Raise (AttributeError "'NoneType' object has no attribute 'shape'"), ∅).
Proof.
  split; [| split].
  - vm_compute. do 2 right. left.
  - reflexivity.
  - vm_compute. reflexivity.
Qed.

End DatasetFacts.

(** ** Devices and per-replica batches *)

Module DevicesFacts.
Import Py Replica Devices.

Lemma get_strategy_devices (local_devices : list device) :
  get_strategy local_devices = strategy_devices (get_gpus local_devices).
Proof. unfold get_strategy, strategy_devices. destruct (get_gpus local_devices); reflexivity. Qed.

Lemma get_gpus_spec (local_devices : list device) (n : string) :
  n ∈ get_gpus local_devices
  <-> exists d, d ∈ local_devices /\ device_type d = "GPU" /\ name d = n.
Proof.
  unfold get_gpus. rewrite list_elem_of_In, in_map_iff. split.
  - intros (d & Hn & Hd). apply filter_In in Hd as [Hin Ht].
    exists d. rewrite list_elem_of_In. apply String.eqb_eq in Ht. auto.
  - intros (d & Hin & Ht & Hn). exists d. split; [exact Hn |].
    apply filter_In. rewrite <- list_elem_of_In. split; [exact Hin |].
    apply String.eqb_eq. exact Ht.
Qed.

(** X1: whenever [get_per_replica_batch_size] returns, the per-replica
    batch size times the number of devices of the strategy ([get_gpus()]
    or the one CPU) is the global batch size; the strategy is never
    empty and holds GPU names only, unless it is the CPU fallback. *)
Theorem replicas_share_the_global_batch (local_devices : list device) (b r : Z) :
  get_per_replica_batch_size (get_gpus local_devices) b = Ok r ->
  (r * Z.of_nat (length (get_strategy local_devices)))%Z = b
  /\ get_strategy local_devices <> []
  /\ (get_strategy local_devices = ["/CPU:0"]
      \/ forall n, n ∈ get_strategy local_devices ->
           exists d, d ∈ local_devices /\ device_type d = "GPU" /\ name d = n).
Proof.
  intros Hr. rewrite get_strategy_devices.
  rewrite ReplicaFacts.get_per_replica_batch_size_strategy in Hr. cbv zeta in Hr.
  set (gpus := get_gpus local_devices) in *.
  assert (Hpos : (0 < Z.of_nat (length (strategy_devices gpus)))%Z).
  { destruct gpus; simpl length; lia. }
  split; [| split].
  - destruct (Z.eqb_spec (b mod Z.of_nat (length (strategy_devices gpus))) 0)
      as [Hm | Hm]; [| discriminate].
    injection Hr as <-.
    apply ReplicaFacts.mod_zero_divide in Hm; [| exact Hpos].
    destruct Hm as [q ->]. rewrite Z.div_mul by lia. reflexivity.
  - destruct gpus; discriminate.
  - destruct gpus as [| g gpus'] eqn:Hg; [left; reflexivity |].
    right. intros n Hn. apply get_gpus_spec. fold gpus. rewrite Hg. exact Hn.
Qed.

Lemma replicas_share_the_global_batch_witness :
  (4 * Z.of_nat (length (get_strategy
      [ {| name := "/CPU:0"; device_type := "CPU" |};
        {| name := "/GPU:0"; device_type := "GPU" |};
        {| name := "/GPU:1"; device_type := "GPU" |} ])))%Z = 8%Z.
Proof.
  apply (replicas_share_the_global_batch
           [ {| name := "/CPU:0"; device_type := "CPU" |};
             {| name := "/GPU:0"; device_type := "GPU" |};
             {| name := "/GPU:1"; device_type := "GPU" |} ] 8 4).
  vm_compute. reflexivity.
Defined.

End DevicesFacts.

(** ** The custom layers *)

Module LayersFacts.
Import Py Layers.

Lemma transpose_spec {A} (x : tensor A) (perm : list nat) :
  length perm = rank x -> is_permutation perm = true ->
  exists y,
    transpose x perm = Ok y
    /\ shape y = map (fun p => nth p (shape x) 0) perm
    /\ forall j, at_index y j
         = at_index x (map (fun d => nth (position d perm) j 0) (seq 0 (rank x))).
Proof.
  intros Hlen Hperm. unfold transpose.
  rewrite Hperm. apply Nat.eqb_eq in Hlen. rewrite Hlen.
  eexists. split; [reflexivity |]. split; [reflexivity |]. reflexivity.
Qed.

Lemma tile_spec {A} (x : tensor A) (multiples : list nat) :
  length multiples = rank x ->
  exists y,
    tile x multiples = Ok y
    /\ shape y = zip_with Nat.mul (shape x) multiples
    /\ forall j, at_index y j = at_index x (zip_with Nat.modulo j (shape x)).
Proof.
  intros Hlen. unfold tile. apply Nat.eqb_eq in Hlen. rewrite Hlen.
  eexists. split; [reflexivity |]. split; reflexivity.
Qed.

Lemma batch_to_space_spec {A} (x : tensor A) (b0 b1 batch h w : nat) (rest : list nat) :
  shape x = batch :: h :: w :: rest ->
  0 < b0 * b1 -> batch mod (b0 * b1) = 0 ->
  exists y,
    batch_to_space x b0 b1 = Ok y
    /\ shape y = batch / (b0 * b1) :: h * b0 :: w * b1 :: rest
    /\ forall n r s idx,
         at_index y (n :: r :: s :: idx)
         = at_index x (((r mod b0) * b1 + s mod b1) * (batch / (b0 * b1)) + n
                         :: r / b0 :: s / b1 :: idx).
Proof.
  intros Hs Hpos Hmod. unfold batch_to_space. rewrite Hs.
  apply Nat.ltb_lt in Hpos. apply Nat.eqb_eq in Hmod. rewrite Hpos, Hmod.
  eexists. split; [reflexivity |]. split; reflexivity.
Qed.

Lemma getitem0_spec {A} (x : tensor A) (k n : nat) (rest : list nat) :
  shape x = n :: rest -> k < n ->
  exists y,
    getitem0 x k = Ok y /\ shape y = rest
    /\ forall j, at_index y j = at_index x (k :: j).
Proof.
  intros Hs Hk. unfold getitem0. rewrite Hs.
  apply Nat.ltb_lt in Hk. rewrite Hk.
  eexists. split; [reflexivity |]. split; reflexivity.
Qed.

(** X2: on a tensor of shape [n, h, w, c], [UnPooling2D] returns a
    tensor of the shape its [output_shape] declares, [n, 2h, 2w, c], in
    which every pixel is repeated in a 2 x 2 block: element
    [i, y, z, k] of the result is element [i, y / 2, z / 2, k] of the
    input. *)
Theorem UnPooling2D_doubles_pixels {A} (x : tensor A) (n h w c : nat) :
  shape x = [n; h; w; c] ->
  exists y,
    UnPooling2D_call x = Ok y
    /\ UnPooling2D_output_shape (shape x) = Ok (shape y)
    /\ shape y = [n; h * 2; w * 2; c]
    /\ forall i r s k,
         i < n -> r < h * 2 -> s < w * 2 -> k < c ->
         at_index y [i; r; s; k] = at_index x [i; r / 2; s / 2; k].
Proof.
  intros Hs. unfold UnPooling2D_call.
  destruct (transpose_spec x [1; 2; 3; 0]) as (x1 & -> & Hs1 & Hat1);
    [unfold rank; rewrite Hs; reflexivity | reflexivity |].
  rewrite Hs in Hs1. cbn [map nth] in Hs1. cbn [bind].
  destruct (tile_spec (expand_dims0 x1) [4; 1; 1; 1; 1]) as (x2 & -> & Hs2 & Hat2);
    [unfold rank; cbn [expand_dims0 shape]; rewrite Hs1; reflexivity |].
  cbn [expand_dims0 shape] in Hs2. rewrite Hs1 in Hs2. cbn [zip_with] in Hs2.
  cbn [bind].
  destruct (batch_to_space_spec x2 2 2 _ _ _ _ Hs2) as (x3 & -> & Hs3 & Hat3);
    [lia | reflexivity |].
  change ((1 * 4) / (2 * 2)) with 1 in Hs3. cbn [bind].
  destruct (getitem0_spec x3 0 _ _ Hs3) as (x4 & -> & Hs4 & Hat4); [lia |].
  cbn [bind].
  destruct (transpose_spec x4 [3; 0; 1; 2]) as (y & -> & Hsy & Haty);
    [unfold rank; rewrite Hs4; reflexivity | reflexivity |].
  rewrite Hs4 in Hsy. cbn [map nth] in Hsy.
  rewrite !Nat.mul_1_r in Hsy.
  exists y. split; [reflexivity |].
  rewrite Hs, Hsy. split; [reflexivity |]. split; [reflexivity |].
  intros i r s k Hi Hr Hs' Hk.
  rewrite Haty. unfold rank. rewrite Hs4. cbn [length seq map].
  change (position 0 [3; 0; 1; 2]) with 1.
  change (position 1 [3; 0; 1; 2]) with 2.
  change (position 2 [3; 0; 1; 2]) with 3.
  change (position 3 [3; 0; 1; 2]) with 0.
  cbn [nth]. rewrite Hat4, Hat3, Hat2.
  cbn [expand_dims0 shape at_index]. rewrite Hs1. cbn [zip_with tail].
  rewrite Hat1. unfold rank. rewrite Hs. cbn [length seq map].
  change (position 0 [1; 2; 3; 0]) with 3.
  change (position 1 [1; 2; 3; 0]) with 0.
  change (position 2 [1; 2; 3; 0]) with 1.
  change (position 3 [1; 2; 3; 0]) with 2.
  cbn [nth].
  assert (Hr2 : r / 2 < h) by (apply Nat.Div0.div_lt_upper_bound; lia).
  assert (Hs2' : s / 2 < w) by (apply Nat.Div0.div_lt_upper_bound; lia).
  rewrite (Nat.mod_small (r / 2) h), (Nat.mod_small (s / 2) w),
    (Nat.mod_small k c), (Nat.mod_small i n) by assumption.
  reflexivity.
Qed.

Lemma UnPooling2D_doubles_pixels_witness :
  exists y,
    UnPooling2D_call
      {| shape := [1; 1; 2; 1]; at_index := fun idx => nth 2 idx 0 |} = Ok y
    /\ shape y = [1; 1 * 2; 2 * 2; 1].
Proof.
  destruct (UnPooling2D_doubles_pixels
              {| shape := [1; 1; 2; 1]; at_index := fun idx => nth 2 idx 0 |}
              1 1 2 1 eq_refl) as (y & Hy & _ & Hsy & _).
  exists y. split; assumption.
Defined.

(** A tensor that is not of rank 4 is refused. *)
Lemma UnPooling2D_rank {A} (x : tensor A) :
  rank x <> 4 -> raises (UnPooling2D_call x) = true.
Proof.
  intros Hr. unfold UnPooling2D_call, transpose.
  destruct (Nat.eqb_spec (length [1; 2; 3; 0]) (rank x)) as [He | _];
    [simpl in He; congruence |].
  reflexivity.
Qed.

(** X3: [DropChannels(output_dim)] keeps every leading axis and the
    elements; the shape of its result is the one its [output_shape]
    declares exactly when [0 <= output_dim <= channels]. *)
Theorem DropChannels_declared_shape {A} (output_dim : Z) (x : tensor A) :
  shape x <> [] ->
  exists y,
    DropChannels_call output_dim x = Ok y
    /\ removelast (shape y) = removelast (shape x)
    /\ (forall idx, at_index y idx = at_index x idx)
    /\ (map Z.of_nat (shape y) = DropChannels_output_shape output_dim (shape x)
        <-> (0 <= output_dim <= Z.of_nat (List.last (shape x) 0%nat))%Z).
Proof.
  intros Hne. unfold DropChannels_call.
  destruct (shape x) as [| d ds] eqn:Hs; [congruence |].
  eexists. split; [reflexivity |]. cbn [shape at_index].
  split; [apply removelast_last |]. split; [reflexivity |].
  unfold DropChannels_output_shape. rewrite map_app. cbn [map].
  set (c := List.last (d :: ds) 0).
  split.
  - intros H. apply app_inv_head in H. injection H as H.
    unfold slice_stop in H. destruct (Z.ltb_spec output_dim 0); lia.
  - intros [H0 Hc]. f_equal. f_equal.
    unfold slice_stop. destruct (Z.ltb_spec output_dim 0); lia.
Qed.

Lemma DropChannels_declared_shape_witness :
  exists y,
    DropChannels_call 5 {| shape := [2; 3]; at_index := fun idx => nth 1 idx 0 |} = Ok y
    /\ shape y = [2; 3].
Proof.
  destruct (DropChannels_declared_shape 5
              {| shape := [2; 3]; at_index := fun idx => nth 1 idx 0 |})
    as (y & Hy & _).
  - discriminate.
  - exists y. split; [exact Hy |].
    vm_compute in Hy. injection Hy as <-. reflexivity.
Defined.

End LayersFacts.

(** ** More on file discovery *)

Module DiscoveryMore.
Import Py Discovery.

Lemma insert_sorted_elem (x y : string) (l : list string) :
  In y (insert_sorted x l) <-> y = x \/ In y l.
Proof.
  induction l as [| z l IH]; simpl.
  - intuition.
  - destruct (String.leb x z); simpl; [intuition |].
    rewrite IH. intuition.
Qed.

Lemma sorted_elem (y : string) (l : list string) : In y (sorted l) <-> In y l.
Proof.
  induction l as [| x l IH]; simpl; [reflexivity |].
  rewrite insert_sorted_elem, IH. intuition.
Qed.

Lemma insert_sorted_length (x : string) (l : list string) :
  length (insert_sorted x l) = S (length l).
Proof.
  induction l as [| z l IH]; simpl; [reflexivity |].
  destruct (String.leb x z); simpl; [reflexivity | rewrite IH; reflexivity].
Qed.

Lemma sorted_length (l : list string) : length (sorted l) = length l.
Proof.
  induction l as [| x l IH]; simpl; [reflexivity |].
  rewrite insert_sorted_length, IH. reflexivity.
Qed.

(** [sorted] gives an ascending list. *)
Lemma insert_sorted_ascending (x : string) (l : list string) :
  Sorted (fun a b => String.leb a b = true) l ->
  Sorted (fun a b => String.leb a b = true) (insert_sorted x l).
Proof.
  induction l as [| z l IH]; intros Hs; simpl.
  - repeat constructor.
  - destruct (String.leb x z) eqn:Hxz.
    + constructor; [exact Hs | constructor; exact Hxz].
    + inversion Hs as [| ? ? Hs' Hhd]; subst.
      constructor; [apply IH; exact Hs' |].
      destruct l as [| w l']; simpl.
      * constructor. destruct (String.leb_total z x) as [H | H]; [exact H | congruence].
      * destruct (String.leb x w).
        -- constructor.
           destruct (String.leb_total z x) as [H | H]; [exact H | congruence].
        -- inversion Hhd; subst. constructor. assumption.
Qed.

Lemma sorted_ascending (l : list string) :
  Sorted (fun a b => String.leb a b = true) (sorted l).
Proof.
  induction l as [| x l IH]; simpl; [constructor |].
  apply insert_sorted_ascending, IH.
Qed.




(** The path of a subdirectory, as the first [glob] returns it. *)
Lemma glob_subdirs_elem (data_dir : string) (root : list subdirectory)
    (q : string * subdirectory) :
  In q (glob_subdirs data_dir root)
  <-> In q.2 root /\ hidden (dirname q.2) = false
      /\ q.1 = path_join data_dir (dirname q.2 ++ "/").
Proof.
  unfold glob_subdirs. rewrite in_map_iff. split.
  - intros (d & <- & Hd). apply list_elem_of_In, list_elem_of_filter in Hd as [Hh Hin].
    simpl. apply list_elem_of_In in Hin. split; [exact Hin |]. split; [| reflexivity].
    destruct (hidden (dirname d)); [destruct Hh | reflexivity].
  - intros (Hin & Hh & Hp). exists q.2. split.
    + destruct q as [p d]. simpl in *. rewrite Hp. reflexivity.
    + apply list_elem_of_In, list_elem_of_filter. split.
      * rewrite Hh. exact I.
      * apply list_elem_of_In. exact Hin.
Qed.

Lemma sorted_subdirs_sound (data_dir : string) (root : list subdirectory)
    (q : string * subdirectory) :
  In q (sorted_subdirs data_dir root) -> In q (glob_subdirs data_dir root).
Proof.
  unfold sorted_subdirs. rewrite in_flat_map. intros (p & _ & Hq).
  destruct (find _ _) as [q' |] eqn:Hf; [| destruct Hq].
  destruct Hq as [<- | []]. apply find_some in Hf as [Hin _]. exact Hin.
Qed.




Lemma glob_extension_elem (p : string) (d : subdirectory) (e f : string) :
  In f (sorted (glob_extension p d e))
  <-> exists name, In name (entries d) /\ hidden name = false
                   /\ endswith ("." ++ e) name = true /\ f = path_join p name.
Proof.
  rewrite sorted_elem. unfold glob_extension. rewrite in_map_iff. split.
  - intros (name & <- & Hn). apply list_elem_of_In, list_elem_of_filter in Hn as [Hp Hin].
    exists name. apply list_elem_of_In in Hin.
    destruct (hidden name); [destruct Hp |]. simpl in Hp.
    destruct (endswith ("." ++ e) name); [| destruct Hp]. auto.
  - intros (name & Hin & Hh & He & ->). exists name. split; [reflexivity |].
    apply list_elem_of_In, list_elem_of_filter. split.
    + rewrite Hh, He. exact I.
    + apply list_elem_of_In. exact Hin.
Qed.

Lemma subdir_groups_elem (sd : string * subdirectory) (f : string) :
  (exists g, In g (subdir_groups sd) /\ In f g)
  <-> exists extension name,
        In extension extensions /\ In name (entries sd.2) /\ hidden name = false
        /\ (endswith ("." ++ upper extension) name = true
            \/ endswith ("." ++ lower extension) name = true)
        /\ f = path_join sd.1 name.
Proof.
  unfold subdir_groups. split.
  - intros (g & Hg & Hf). apply in_flat_map in Hg as (ext & Hext & Hg).
    destruct Hg as [<- | [<- | []]]; apply glob_extension_elem in Hf
      as (name & Hin & Hh & He & ->); exists ext, name; auto 10.
  - intros (ext & name & Hext & Hin & Hh & [He | He] & ->).
    + exists (sorted (glob_extension sd.1 sd.2 (upper ext))). split.
      * apply in_flat_map. exists ext. split; [exact Hext | left; reflexivity].
      * apply glob_extension_elem. exists name. auto.
    + exists (sorted (glob_extension sd.1 sd.2 (lower ext))). split.
      * apply in_flat_map. exists ext. split; [exact Hext | right; left; reflexivity].
      * apply glob_extension_elem. exists name. auto.
Qed.

Lemma files_elem (data_dir : string) (root : list subdirectory) (f : string) :
  In f (glob_image_files data_dir root).1
  <-> exists sd g, In sd (sorted_subdirs data_dir root)
                   /\ In g (subdir_groups sd) /\ In f g.
Proof.
  unfold glob_image_files, groups, all_groups. cbn [fst].
  rewrite in_flat_map. split.
  - intros (g & Hg & Hf). apply list_elem_of_In, list_elem_of_filter in Hg as [_ Hg].
    apply list_elem_of_In, in_flat_map in Hg as (sd & Hsd & Hg). eauto.
  - intros (sd & g & Hsd & Hg & Hf). exists g. split; [| exact Hf].
    apply list_elem_of_In, list_elem_of_filter. split.
    + destruct g; [destruct Hf | exact I].
    + apply list_elem_of_In, in_flat_map. eauto.
Qed.

(** A discovered file is a visible image of a visible subdirectory. *)
Lemma discovered_sound (data_dir : string) (root : list subdirectory) (f : string) :
  In f (glob_image_files data_dir root).1 ->
  exists d name extension,
    In d root /\ hidden (dirname d) = false
    /\ In name (entries d) /\ hidden name = false
    /\ In extension extensions
    /\ (endswith ("." ++ upper extension) name = true
        \/ endswith ("." ++ lower extension) name = true)
    /\ f = path_join (path_join data_dir (dirname d ++ "/")) name.
Proof.
  intros Hf. apply files_elem in Hf as (sd & g & Hsd & Hg & Hf).
  apply sorted_subdirs_sound, glob_subdirs_elem in Hsd as (Hd & Hh & Hp).
  destruct (proj1 (subdir_groups_elem sd f)) as (ext & name & Hext & Hn & Hhn & He & ->);
    [eauto |].
  exists sd.2, name, ext. rewrite Hp. auto 10.
Qed.




(** *** The labels *)

Lemma StronglySorted_app_le (l1 l2 : list nat) :
  StronglySorted le l1 -> StronglySorted le l2 ->
  (forall a b, In a l1 -> In b l2 -> a <= b) ->
  StronglySorted le (l1 ++ l2).
Proof.
  induction l1 as [| x l1 IH]; intros H1 H2 H; simpl; [exact H2 |].
  inversion H1 as [| ? ? Hs Hall]; subst.
  constructor.
  - apply IH; [exact Hs | exact H2 |]. intros a b Ha Hb. apply H; [right |]; assumption.
  - apply Forall_app. split; [exact Hall |].
    apply Forall_forall. intros b Hb. apply H; [left; reflexivity |].
    apply list_elem_of_In. exact Hb.
Qed.

Lemma constant_sorted {A} (k : nat) (g : list A) :
  StronglySorted le (map (fun _ => k) g).
Proof.
  induction g as [| x g IH]; simpl; constructor; [exact IH |].
  apply Forall_forall. intros y Hy. apply list_elem_of_In, in_map_iff in Hy as (? & <- & _).
  lia.
Qed.

Lemma labels_range {A} (groups : list (list A)) (k l : nat) :
  Forall (fun g => g <> []) groups ->
  In l (flat_map (fun ig : nat * list A => map (fun _ => ig.1) ig.2)
                 (enumerate_from k groups))
  <-> k <= l < k + length groups.
Proof.
  revert k. induction groups as [| g groups IH]; intros k Hne; simpl.
  - split; [intros [] | lia].
  - inversion Hne as [| ? ? Hg Hrest]; subst.
    rewrite in_app_iff, (IH (S k) Hrest), in_map_iff. split.
    + intros [(x & <- & _) | H]; lia.
    + intros H. destruct (Nat.eq_dec l k) as [-> | Hlk]; [| right; lia].
      left. destruct g as [| x g]; [congruence |]. exists x. split; [reflexivity | left; reflexivity].
Qed.

Lemma labels_sorted {A} (groups : list (list A)) (k : nat) :
  StronglySorted le
    (flat_map (fun ig : nat * list A => map (fun _ => ig.1) ig.2)
              (enumerate_from k groups)).
Proof.
  revert k. induction groups as [| g groups IH]; intros k; simpl; [constructor |].
  apply StronglySorted_app_le; [apply constant_sorted | apply IH |].
  intros a b Ha Hb. apply in_map_iff in Ha as (? & <- & _).
  clear -Hb. revert k Hb. induction groups as [| g' groups IH]; intros k Hb; simpl in Hb;
    [destruct Hb |].
  apply in_app_iff in Hb as [Hb | Hb].
  - apply in_map_iff in Hb as (? & <- & _). lia.
  - specialize (IH (S k) Hb). lia.
Qed.

Lemma groups_nonempty (data_dir : string) (root : list subdirectory) :
  Forall (fun g => g <> []) (groups data_dir root).
Proof.
  unfold groups. apply Forall_forall. intros g Hg.
  apply list_elem_of_filter in Hg as [Hn _]. destruct g; [destruct Hn | discriminate].
Qed.

Lemma groups_ascending (data_dir : string) (root : list subdirectory) :
  Forall (Sorted (fun a b => String.leb a b = true)) (groups data_dir root).
Proof.
  unfold groups, all_groups. apply Forall_forall. intros g Hg.
  apply list_elem_of_filter in Hg as [_ Hg].
  apply list_elem_of_In, in_flat_map in Hg as (sd & _ & Hg).
  unfold subdir_groups in Hg. apply in_flat_map in Hg as (ext & _ & Hg).
  destruct Hg as [<- | [<- | []]]; apply sorted_ascending.
Qed.

(** X5: the files are the non-empty (subdirectory, extension, case)
    groups one after the other, each group in ascending order of its
    paths; the labels never decrease along the list and are exactly the
    numbers below the number of groups, so that [labels.max() + 1]
    counts the groups. *)
Theorem glob_image_files_labels_number_the_groups
    (data_dir : string) (root : list subdirectory) :
  let files := (glob_image_files data_dir root).1 in
  let labels := (glob_image_files data_dir root).2 in
  files = concat (groups data_dir root)
  /\ Forall (fun g => g <> [] /\ Sorted (fun a b => String.leb a b = true) g)
            (groups data_dir root)
  /\ StronglySorted le labels
  /\ (forall l, l ∈ labels <-> l < length (groups data_dir root)).
Proof.
  cbv zeta. unfold glob_image_files. cbn [fst snd].
  split; [| split; [| split]].
  - generalize (groups data_dir root). intros gs.
    induction gs as [| g gs IH]; simpl; [reflexivity | rewrite IH; reflexivity].
  - assert (H1 := groups_nonempty data_dir root).
    assert (H2 := groups_ascending data_dir root).
    rewrite Forall_forall in *. intros g Hg. split; [apply H1 | apply H2]; exact Hg.
  - apply labels_sorted.
  - intros l. rewrite list_elem_of_In. unfold enumerate.
    rewrite labels_range by apply groups_nonempty. lia.
Qed.

End DiscoveryMore.

(** ** More on the workers *)

Module PipelineMore.
Import Py Image Pipeline Retained.

Lemma omap_insert_same_gen {A B} (g : A -> option B) (l : list A) (i : nat) (x y : A) :
  l !! i = Some x -> g y = g x -> omap g (<[i := y]> l) = omap g l.
Proof.
  revert i. induction l as [| z l IH]; intros i Hi Hg; [discriminate |].
  destruct i as [| i]; simpl in *.
  - injection Hi as ->. rewrite Hg. reflexivity.
  - specialize (IH i Hi Hg). destruct (g z); [f_equal |]; exact IH.
Qed.

Lemma omap_insert_new_gen {A B} (g : A -> option B) (l : list A) (i : nat)
    (x y : A) (v : B) :
  l !! i = Some x -> g x = None -> g y = Some v ->
  omap g (<[i := y]> l) ≡ₚ v :: omap g l.
Proof.
  revert i. induction l as [| z l IH]; intros i Hi Hx Hy; [discriminate |].
  destruct i as [| i]; simpl in *.
  - injection Hi as ->. rewrite Hx, Hy. reflexivity.
  - specialize (IH i Hi Hx Hy). destruct (g z) as [w |]; simpl.
    + etransitivity; [apply perm_skip, IH | apply perm_swap].
    + exact IH.
Qed.

Lemma omap_pointwise {A B C} (g1 : A -> option C) (g2 : B -> option C)
    (l1 : list A) (l2 : list B) :
  length l1 = length l2 ->
  (forall i a b, l1 !! i = Some a -> l2 !! i = Some b -> g1 a = g2 b) ->
  omap g1 l1 = omap g2 l2.
Proof.
  revert l2. induction l1 as [| a l1 IH]; intros [| b l2] Hlen Hpt;
    try discriminate; [reflexivity |].
  simpl in Hlen.
  assert (Hhead := Hpt 0 a b eq_refl eq_refl).
  assert (Htail := IH l2 ltac:(lia) (fun i => Hpt (S i))).
  change (omap g1 (a :: l1))
    with (match g1 a with Some y => y :: omap g1 l1 | None => omap g1 l1 end).
  change (omap g2 (b :: l2))
    with (match g2 b with Some y => y :: omap g2 l2 | None => omap g2 l2 end).
  rewrite Hhead, Htail. reflexivity.
Qed.

Lemma zip_insert_r {A B} (l : list A) (k : list B) (i : nat) (x : A) (y : B) :
  l !! i = Some x -> zip l (<[i := y]> k) = <[i := (x, y)]> (zip l k).
Proof.
  revert k i. induction l as [| a l IH]; intros k i Hi; [discriminate |].
  destruct k as [| b k]; [destruct i; reflexivity |].
  destruct i as [| i]; simpl in *.
  - injection Hi as ->. reflexivity.
  - rewrite (IH k i Hi). reflexivity.
Qed.

Lemma zip_insert_r_beyond {A B} (l : list A) (k : list B) (i : nat) (y : B) :
  l !! i = None -> zip l (<[i := y]> k) = zip l k.
Proof.
  revert k i. induction l as [| a l IH]; intros k i Hi; [reflexivity |].
  destruct k as [| b k]; [destruct i; reflexivity |].
  destruct i as [| i]; simpl in *; [discriminate |].
  rewrite (IH k i Hi). reflexivity.
Qed.

Lemma zip_take_rows {A B} `{Inhabited A, Inhabited B} (F : list A) (L : list B) (K : nat) :
  K <= length F -> K <= length L ->
  zip (take K F) (take K L) = (fun r => (F !!! r, L !!! r)) <$> seq 0 K.
Proof.
  intros HF HL. apply list_eq. intros r.
  rewrite list_lookup_fmap.
  destruct (Nat.lt_ge_cases r K) as [Hr | Hr].
  - rewrite lookup_seq_lt by exact Hr. simpl.
    destruct (lookup_lt_is_Some_2 F r) as [a Ha]; [lia |].
    destruct (lookup_lt_is_Some_2 L r) as [b Hb]; [lia |].
    rewrite (list_lookup_total_correct _ _ _ Ha), (list_lookup_total_correct _ _ _ Hb).
    apply lookup_zip_with_Some. exists a, b.
    rewrite !lookup_take_lt by exact Hr. auto.
  - rewrite lookup_seq_ge by exact Hr. simpl.
    apply lookup_ge_None. rewrite length_zip_with, !length_take. lia.
Qed.

Lemma count_done (l : list pc) :
  forallb is_done l = true -> count in_critical l = 0.
Proof.
  induction l as [| p l IH]; simpl; [reflexivity |].
  intros H. apply andb_true_iff in H as [Hp Hl].
  destruct p; try discriminate. simpl. apply IH, Hl.
Qed.

Section Workers.

Variable cv2_imread : string -> option image.
Variable resample : interpolation -> image -> nat -> nat -> nat -> nat -> nat -> byte.
Variable files : list string.
Variable classes : list nat.
Variable image_size : nat.

Local Abbreviation load := (load cv2_imread resample image_size).
Local Abbreviation step := (process cv2_imread resample files classes image_size).
Local Abbreviation reachable := (reachable cv2_imread resample files classes image_size).
Local Abbreviation invariant := (invariant cv2_imread resample files classes image_size).
Local Abbreviation parallel := (parallel cv2_imread resample files classes image_size).
Local Abbreviation move := (move cv2_imread resample files classes image_size).
Local Abbreviation logged := (logged cv2_imread resample image_size).
Local Abbreviation skip_warning := (skip_warning cv2_imread resample image_size).

(** Every row of the features memmap is blank or an image a worker
    loaded. *)
Lemma reachable_rows (st : state) :
  colour_images cv2_imread files = true ->
  reachable st ->
  Forall (fun row => forall img, row = Some img ->
            shape img = [image_size; image_size; 3] /\ rect image_size img)
         (features st).
Proof.
  intros Hcol. induction 1 as [| st i st' Hr IH Hs].
  - simpl. apply Forall_forall. intros row Hrow img ->.
    apply elem_of_replicate in Hrow as [? _]. discriminate.
  - assert (Hinv : invariant st) by (apply PipelineFacts.reachable_invariant, Hr).
    destruct (PipelineFacts.step_move _ _ _ _ _ i st st' Hs)
      as (p & p' & st0 & Hp & Hm & ->).
    assert (Hok := inv_local _ _ _ _ _ _ Hinv i _ Hp).
    simpl. destruct Hm; simpl; try exact IH.
    apply Forall_insert; [exact IH |].
    intros img' [= <-].
    eapply PipelineFacts.loaded_shape; [exact Hcol | exact Hok].
Qed.

(** X6: the workers cannot deadlock and cannot run forever: in every
    state reachable under any interleaving, either every worker has
    returned, or one has crashed, or some worker can take a step; each
    step uses up one of at most 8 steps per file; and when every
    worker has returned the lock is free. *)
Theorem workers_never_deadlock (st : state) :
  reachable st ->
  (finished st = true \/ is_Some (crashed st)
   \/ exists i st', step i st = Some st')
  /\ (forall i st', step i st = Some st' -> work st' < work st)
  /\ work st <= 8 * num_files files
  /\ (finished st = true -> lock st = false).
Proof.
  intros Hr. assert (Hinv : invariant st).
  { apply PipelineFacts.reachable_invariant, Hr. }
  split; [| split; [| split]].
  - destruct (finished st) eqn:Hf; [left; reflexivity | right].
    destruct (crashed st) as [e |] eqn:Hc; [left; eauto | right].
    destruct (PipelineFacts.progress _ _ _ _ _ st Hinv Hc Hf) as [i [st' Hs]].
    eauto.
  - intros i st' Hs. eapply PipelineFacts.step_work, Hs.
  - clear Hinv. induction Hr as [| st i st' Hr IH Hs].
    + rewrite PipelineFacts.work_init. lia.
    + apply PipelineFacts.step_work in Hs. lia.
  - intros Hf. assert (Hl := inv_lock _ _ _ _ _ _ Hinv).
    unfold finished in Hf. rewrite (count_done _ Hf) in Hl.
    destruct (lock st); [discriminate | reflexivity].
Qed.

Lemma move_logged (i : nat) (st : state) (p p' : pc) (st0 : state) :
  threads st !! i = Some p -> move i st p p' st0 ->
  warnings st ≡ₚ omap logged (zip files (threads st)) ->
  warnings st0 ≡ₚ omap logged (zip files (<[i := p']> (threads st))).
Proof.
  intros Hp Hm Hw.
  destruct (files !! i) as [f |] eqn:Hf.
  - assert (Hz : zip files (threads st) !! i = Some (f, p)).
    { apply lookup_zip_with_Some. exists f, p. auto. }
    rewrite (zip_insert_r _ _ _ f _ Hf).
    destruct Hm;
      try (rewrite (omap_insert_same_gen logged _ i (f, _) _ Hz) by reflexivity;
           exact Hw).
    match goal with
    | H1 : files !! i = Some ?g, H2 : load ?g = _ |- _ =>
        rewrite Hf in H1; injection H1 as <-; rename H2 into Hload
    end.
    simpl. rewrite Permutation_app_comm. simpl.
    rewrite (omap_insert_new_gen logged _ i (f, Start) (f, Done None)
               (skip_message size f) Hz).
    + apply perm_skip, Hw.
    + reflexivity.
    + unfold Retained.logged, Retained.skip_warning. simpl.
      fold (load f). rewrite Hload. reflexivity.
  - rewrite (zip_insert_r_beyond _ _ _ _ Hf).
    destruct Hm; try exact Hw.
    match goal with H1 : files !! i = Some _ |- _ => rewrite Hf in H1; discriminate end.
Qed.

Lemma reachable_logged (st : state) :
  reachable st -> warnings st ≡ₚ omap logged (zip files (threads st)).
Proof.
  induction 1 as [| st i st' Hr IH Hs].
  - simpl. unfold Pipeline.init. simpl.
    generalize (num_files files). generalize files as l.
    induction l as [| f l IHl]; intros [| n]; simpl; try reflexivity.
    apply IHl.
  - destruct (PipelineFacts.step_move _ _ _ _ _ i st st' Hs)
      as (p & p' & st0 & Hp & Hm & ->).
    simpl. rewrite (PipelineFacts.move_threads _ _ _ _ _ _ _ _ _ _ Hm).
    eapply move_logged; eassumption.
Qed.

Lemma finished_logged (st : state) :
  invariant st -> finished st = true ->
  omap logged (zip files (threads st)) = omap skip_warning files.
Proof.
  intros Hinv Hfin.
  assert (Hlen := inv_threads _ _ _ _ _ _ Hinv).
  apply omap_pointwise.
  - rewrite length_zip_with. unfold num_files in Hlen. lia.
  - intros i [f p] f' Hz Hf'.
    apply lookup_zip_with_Some in Hz as (f0 & p0 & [= <- <-] & Hf & Hp).
    rewrite Hf in Hf'. injection Hf' as <-.
    destruct (PipelineFacts.finished_lookup st i p Hfin Hp) as [s ->].
    assert (Hok := inv_local _ _ _ _ _ _ Hinv i _ Hp).
    unfold Retained.logged. simpl.
    destruct s as [r |]; [| reflexivity].
    destruct Hok as (img & c & (f0 & Hf0 & Hload) & _).
    rewrite Hf in Hf0. injection Hf0 as <-.
    unfold Retained.skip_warning. fold (load f). rewrite Hload. reflexivity.
Qed.

(** X7: when the workers all return, the log holds one warning for
    each file that is too small, and nothing else, whatever the
    interleaving (which only decides their order). *)
Theorem each_small_file_is_logged_once (schedule : list nat) (st : state) :
  parallel schedule = Ok st ->
  warnings st ≡ₚ skip_warnings cv2_imread resample image_size files.
Proof.
  intros Hp.
  destruct (PipelineFacts.parallel_spec cv2_imread resample files classes
              image_size schedule)
    as [(st1 & Hp1 & Hr & Hf & _) | (e & st1 & Hp1 & _)];
    rewrite Hp in Hp1; [| discriminate].
  injection Hp1 as <-.
  rewrite (reachable_logged st Hr).
  rewrite (finished_logged st); [reflexivity | | exact Hf].
  apply PipelineFacts.reachable_invariant, Hr.
Qed.

Lemma finished_kept_rows (st : state) :
  length classes = length files ->
  invariant st -> finished st = true ->
  kept_rows st ≡ₚ loaded_pairs cv2_imread resample image_size files classes.
Proof.
  intros Hcl Hinv Hfin.
  assert (Hlen := inv_threads _ _ _ _ _ _ Hinv).
  assert (HF := inv_features _ _ _ _ _ _ Hinv).
  assert (HL := inv_labels _ _ _ _ _ _ Hinv).
  assert (Hk : target st <= num_files files).
  { rewrite <- (PipelineFacts.finished_count _ _ _ _ _ st Hinv Hfin). lia. }
  unfold kept_rows. rewrite zip_take_rows by lia.
  rewrite <- (inv_returned _ _ _ _ _ _ Hinv).
  unfold returned. rewrite list_fmap_omap.
  unfold loaded_pairs.
  erewrite omap_pointwise; [reflexivity | |].
  - rewrite length_zip_with. unfold num_files in Hlen. lia.
  - intros i p [f c] Hp Hz.
    apply lookup_zip_with_Some in Hz as (f0 & c0 & [= <- <-] & Hf & Hc).
    destruct (PipelineFacts.finished_lookup st i p Hfin Hp) as [s ->].
    assert (Hok := inv_local _ _ _ _ _ _ Hinv i _ Hp).
    unfold loaded_pair. simpl.
    destruct s as [r |]; simpl.
    + destruct Hok as (img & c' & (f0 & Hf0 & Hload) & Hfr & Hc' & Hlr).
      rewrite Hf in Hf0. injection Hf0 as <-.
      rewrite Hc in Hc'. injection Hc' as <-.
      fold (load f). rewrite Hload.
      rewrite (list_lookup_total_correct _ _ _ Hfr),
              (list_lookup_total_correct _ _ _ Hlr).
      reflexivity.
    + destruct Hok as (f0 & size & Hf0 & Hload & _).
      rewrite Hf in Hf0. injection Hf0 as <-.
      fold (load f). rewrite Hload. reflexivity.
Qed.

(** X8: the retained data does not depend on the interleaving: when
    the workers all return, the rows below the counter are, up to
    their order, the (image, class) pairs of the files that load,
    each file once and each image still beside its own class. *)
Theorem kept_rows_are_the_loaded_files (schedule : list nat) (st : state) :
  length classes = length files ->
  parallel schedule = Ok st ->
  kept_rows st ≡ₚ loaded_pairs cv2_imread resample image_size files classes.
Proof.
  intros Hcl Hp.
  destruct (PipelineFacts.parallel_spec cv2_imread resample files classes
              image_size schedule)
    as [(st1 & Hp1 & Hr & Hf & _) | (e & st1 & Hp1 & _)];
    rewrite Hp in Hp1; [| discriminate].
  injection Hp1 as <-.
  apply finished_kept_rows; [exact Hcl | | exact Hf].
  apply PipelineFacts.reachable_invariant, Hr.
Qed.

End Workers.

Lemma workers_never_deadlock_witness :
  work Samples.sample_state <= 8 * num_files Samples.sample_files
  /\ (finished Samples.sample_state = true -> lock Samples.sample_state = false).
Proof.
  destruct (workers_never_deadlock Samples.sample_imread Samples.nearest
              Samples.sample_files Samples.sample_classes 2 Samples.sample_state
              PipelineFacts.sample_state_reachable) as (_ & _ & Hw & Hl).
  split; [exact Hw | exact Hl].
Defined.

Lemma each_small_file_is_logged_once_witness :
  warnings Samples.sample_state
  ≡ₚ skip_warnings Samples.sample_imread Samples.nearest 2 Samples.sample_files.
Proof.
  apply (each_small_file_is_logged_once Samples.sample_imread Samples.nearest
           Samples.sample_files Samples.sample_classes 2 Samples.sample_schedule).
  vm_compute. reflexivity.
Defined.

Lemma kept_rows_are_the_loaded_files_witness :
  kept_rows Samples.sample_state
  ≡ₚ loaded_pairs Samples.sample_imread Samples.nearest 2
       Samples.sample_files Samples.sample_classes.
Proof.
  apply (kept_rows_are_the_loaded_files Samples.sample_imread Samples.nearest
           Samples.sample_files Samples.sample_classes 2 Samples.sample_schedule).
  - vm_compute. reflexivity.
  - vm_compute. reflexivity.
Defined.

End PipelineMore.

(** ** The archive create_dataset writes *)

Module DatasetMore.
Import Py Image Npy Discovery Dataset Tree.

Lemma existsb_false_In {A} (f : A -> bool) (l : list A) (x : A) :
  existsb f l = false -> In x l -> f x = false.
Proof.
  intros H Hx. destruct (f x) eqn:Hfx; [| reflexivity].
  rewrite <- H. symmetry. apply existsb_exists. eauto.
Qed.

Lemma no_images_no_files (data_dir : string) (root : list subdirectory) :
  has_images root = false -> (glob_image_files data_dir root).1 = [].
Proof.
  intros H. destruct (glob_image_files data_dir root).1 as [| f l] eqn:E;
    [reflexivity | exfalso].
  destruct (DiscoveryMore.discovered_sound data_dir root f)
    as (d & name & ext & Hd & Hh & Hn & Hhn & Hext & He & _).
  { rewrite E. left. reflexivity. }
  apply (existsb_false_In _ _ d) in H; [| exact Hd].
  cbv beta in H. rewrite Hh in H. simpl negb in H. rewrite andb_true_l in H.
  apply (existsb_false_In _ _ name) in H; [| exact Hn].
  unfold image_name in H. rewrite Hhn in H. simpl negb in H.
  rewrite andb_true_l in H.
  apply (existsb_false_In _ _ ext) in H; [| exact Hext].
  cbv beta in H. apply orb_false_iff in H as [H1 H2].
  destruct He as [He | He]; congruence.
Qed.

Lemma length_concat_uniform {A} (e : nat) (l : list (list A)) :
  Forall (fun x => length x = e) l -> length (concat l) = length l * e.
Proof.
  induction 1 as [| x l Hx _ IH]; simpl; [reflexivity |].
  rewrite length_app, IH, Hx. reflexivity.
Qed.

Lemma take_concat_uniform {A} (e : nat) (l : list (list A)) (k : nat) :
  Forall (fun x => length x = e) l ->
  take (k * e) (concat l) = concat (take k l).
Proof.
  intros H. revert k. induction H as [| x l Hx _ IH]; intros k.
  - simpl. rewrite !take_nil. reflexivity.
  - destruct k as [| k]; [reflexivity |].
    simpl. rewrite <- Hx at 1. rewrite take_app_add, IH. reflexivity.
Qed.

Lemma length_feature_bytes (S : nat) (row : option image) :
  (forall img, row = Some img -> shape img = [S; S; 3] /\ rect S img) ->
  length (feature_bytes S row) = S * S * 3.
Proof.
  intros H. destruct row as [img |]; simpl; [| apply length_replicate].
  destruct (H img eq_refl) as [Hs Hr]. unfold shape in Hs.
  injection Hs as Hh _ _. unfold height in Hh. unfold rect in Hr.
  unfold image, pixel in *.
  rewrite (length_concat_uniform 3).
  - rewrite (length_concat_uniform S), Hh; [reflexivity |].
    eapply Forall_impl; [exact Hr |]. intros row [Hl _]. exact Hl.
  - apply Forall_concat. eapply Forall_impl; [exact Hr |]. intros row [_ Hp]. exact Hp.
Qed.

Lemma length_label_bytes (row : option nat) : length (label_bytes row) = 4.
Proof. apply NpyFacts.length_pack_le. Qed.

(** *** The steps of the body on the file system *)

Lemma open_memmap_layout (fs : gmap string file) (name : string)
    (shape : list nat) (d : dtype) (h : bytes) :
  array_header d shape = Ok h ->
  open_memmap fs name shape d
  = (Ok {| filename := name; mm_dtype := d; mm_shape := shape;
           mm_offset := length h |},
     <[name := Raw (h ++ replicate (size shape * itemsize d) x00)]> fs).
Proof.
  intros Hh. unfold open_memmap, write_header_in_place.
  rewrite lookup_insert_eq, Hh. unfold np_memmap. rewrite lookup_insert_eq.
  rewrite !insert_insert_eq. unfold pwrite, extend_to. simpl take.
  rewrite drop_nil, app_nil_r. simpl.
  replace (length h + size shape * itemsize d - length h)
    with (size shape * itemsize d) by lia.
  reflexivity.
Qed.

Lemma memmap_store_whole (fs : gmap string file) (m : memmap) (h old data : bytes) :
  fs !! filename m = Some (Raw (h ++ old)) ->
  mm_offset m = length h ->
  length data = length old ->
  memmap_store fs m data = <[filename m := Raw (h ++ data)]> fs.
Proof.
  intros Hf Hoff Hlen. unfold memmap_store. rewrite Hf, Hoff. unfold pwrite.
  rewrite take_app_length.
  replace (length h - length (h ++ old)) with 0 by (rewrite length_app; lia).
  rewrite Hlen, <- length_app, drop_all, app_nil_r. reflexivity.
Qed.

Lemma resize_npy_file_same_header (fs : gmap string file) (m : memmap)
    (new_shape : list nat) (h_old h_new data : bytes) :
  fs !! filename m = Some (Raw (h_old ++ data)) ->
  mm_offset m = length h_old ->
  array_header (mm_dtype m) new_shape = Ok h_new ->
  length h_new = length h_old ->
  size new_shape * itemsize (mm_dtype m) <= length data ->
  resize_npy_file fs m new_shape
  = (Ok {| filename := filename m; mm_dtype := mm_dtype m; mm_shape := new_shape;
           mm_offset := length h_new |},
     <[filename m := Raw (h_new ++ data)]> fs).
Proof.
  intros Hf Hoff Hh Hlen Hfit.
  unfold resize_npy_file, write_header_in_place. rewrite Hf, Hh.
  unfold np_memmap. rewrite lookup_insert_eq.
  rewrite NpyFacts.pwrite_header by exact Hlen.
  rewrite NpyFacts.extend_to_enough by (rewrite length_app; lia).
  rewrite insert_insert_eq. reflexivity.
Qed.

Lemma memmap_data_whole (fs : gmap string file) (m : memmap) (h data : bytes) :
  fs !! filename m = Some (Raw (h ++ data)) ->
  mm_offset m = length h ->
  memmap_data fs m = take (nbytes m) data.
Proof.
  intros Hf Hoff. unfold memmap_data. rewrite Hf, Hoff, drop_app_length. reflexivity.
Qed.

(** *** What each step leaves alone *)

Lemma open_memmap_frame (fs fs' : gmap string file) (name : string)
    (shape : list nat) (d : dtype) (r : result memmap) (k : string) :
  open_memmap fs name shape d = (r, fs') ->
  k <> name -> fs' !! k = fs !! k.
Proof.
  unfold open_memmap, write_header_in_place. rewrite lookup_insert_eq.
  destruct (array_header d shape) as [h | e].
  - unfold np_memmap. rewrite lookup_insert_eq. intros [= _ <-] Hk.
    rewrite !lookup_insert_ne by congruence. reflexivity.
  - intros [= _ <-] Hk. rewrite lookup_insert_ne by congruence. reflexivity.
Qed.

Lemma open_memmap_filename (fs fs' : gmap string file) (name : string)
    (shape : list nat) (d : dtype) (m : memmap) :
  open_memmap fs name shape d = (Ok m, fs') -> filename m = name.
Proof.
  unfold open_memmap, write_header_in_place. rewrite lookup_insert_eq.
  destruct (array_header d shape) as [h | e]; [| discriminate].
  unfold np_memmap. rewrite lookup_insert_eq. intros [= <- _]. reflexivity.
Qed.

Lemma memmap_store_frame (fs : gmap string file) (m : memmap) (data : bytes)
    (k : string) :
  k <> filename m -> memmap_store fs m data !! k = fs !! k.
Proof.
  intros Hk. unfold memmap_store.
  destruct (fs !! filename m) as [[content | entries] |]; try reflexivity.
  rewrite lookup_insert_ne by congruence. reflexivity.
Qed.

Lemma np_memmap_frame (fs fs' : gmap string file) (name : string) (d : dtype)
    (shape : list nat) (offset : nat) (r : result memmap) (k : string) :
  np_memmap fs name d shape offset = (r, fs') ->
  k <> name -> fs' !! k = fs !! k.
Proof.
  unfold np_memmap.
  destruct (fs !! name) as [[content | entries] |]; intros [= _ <-] Hk;
    try reflexivity.
  rewrite lookup_insert_ne by congruence. reflexivity.
Qed.

Lemma np_memmap_filename (fs fs' : gmap string file) (name : string) (d : dtype)
    (shape : list nat) (offset : nat) (m : memmap) :
  np_memmap fs name d shape offset = (Ok m, fs') -> filename m = name.
Proof.
  unfold np_memmap.
  destruct (fs !! name) as [[content | entries] |]; intros [= <- _]. reflexivity.
Qed.

Lemma write_header_in_place_frame (fs fs' : gmap string file) (name : string)
    (d : dtype) (shape : list nat) (r : result nat) (k : string) :
  write_header_in_place fs name d shape = (r, fs') ->
  k <> name -> fs' !! k = fs !! k.
Proof.
  unfold write_header_in_place.
  destruct (fs !! name) as [[content | entries] |];
    [destruct (array_header d shape) | |]; intros [= _ <-] Hk; try reflexivity.
  rewrite lookup_insert_ne by congruence. reflexivity.
Qed.

Lemma resize_npy_file_frame (fs fs' : gmap string file) (m : memmap)
    (new_shape : list nat) (r : result memmap) (k : string) :
  resize_npy_file fs m new_shape = (r, fs') ->
  k <> filename m -> fs' !! k = fs !! k.
Proof.
  unfold resize_npy_file.
  destruct (write_header_in_place fs (filename m) (mm_dtype m) new_shape)
    as [[offset | e] fs1] eqn:E1; intros E2 Hk.
  - rewrite (np_memmap_frame _ _ _ _ _ _ _ _ E2 Hk).
    apply (write_header_in_place_frame _ _ _ _ _ _ _ E1 Hk).
  - injection E2 as _ <-. apply (write_header_in_place_frame _ _ _ _ _ _ _ E1 Hk).
Qed.

Lemma resize_npy_file_filename (fs fs' : gmap string file) (m m' : memmap)
    (new_shape : list nat) :
  resize_npy_file fs m new_shape = (Ok m', fs') -> filename m' = filename m.
Proof.
  unfold resize_npy_file.
  destruct (write_header_in_place fs (filename m) (mm_dtype m) new_shape)
    as [[offset | e] fs1]; [| discriminate].
  apply np_memmap_filename.
Qed.

Lemma os_remove_frame (name : string) (fs : gmap string file) (k : string) :
  k <> name -> (os_remove name fs).2 !! k = fs !! k.
Proof.
  intros Hk. unfold os_remove. destruct (fs !! name); simpl; [| reflexivity].
  rewrite lookup_delete_ne by congruence. reflexivity.
Qed.

Lemma size_features (n S : nat) :
  size [n; S; S; 3] * itemsize uint8 = n * (S * S * 3).
Proof. unfold size. simpl. lia. Qed.

Lemma size_labels (n : nat) : size [n] * itemsize int32 = n * 4.
Proof. unfold size. simpl. lia. Qed.

Section CreateDataset.

Variable cv2_imread : string -> option image.
Variable resample : interpolation -> image -> nat -> nat -> nat -> nat -> nat -> byte.
Variable mkstemp : gmap string file -> string.
Variable os_fault : io_op -> option exn.
Variable schedule : list nat.

Local Abbreviation build := (Dataset.build cv2_imread resample os_fault schedule).
Local Abbreviation create_dataset :=
  (Dataset.create_dataset cv2_imread resample mkstemp os_fault schedule).
Local Abbreviation parallel := (Pipeline.parallel cv2_imread resample).

Lemma create_dataset_no_files (root : list subdirectory)
    (data_dir output_npz : string) (image_size : nat) (fs : gmap string file) :
  (glob_image_files data_dir root).1 = [] ->
  create_dataset root data_dir output_npz image_size fs
  = (Raise (IOError (no_files_message data_dir)), fs).
Proof.
  intros H. unfold Dataset.create_dataset.
  destruct (glob_image_files data_dir root) as [files classes].
  simpl in H. subst files. reflexivity.
Qed.

(** X9: on a tree where no visible subdirectory holds a visible entry
    with one of the six suffixes, [create_dataset] raises the
    [IOError] of its first check and touches no file: no temporary
    file is created and no archive is opened. *)
Theorem create_dataset_without_images (root : list subdirectory)
    (data_dir output_npz : string) (image_size : nat) (fs : gmap string file) :
  has_images root = false ->
  create_dataset root data_dir output_npz image_size fs
  = (Raise (IOError (no_files_message data_dir)), fs).
Proof.
  intros H. apply create_dataset_no_files, no_images_no_files, H.
Qed.

Section NoFault.

Hypothesis no_fault : forall op, os_fault op = None.

Lemma guarded_ok {A} (op : io_op)
    (k : gmap string file -> result A * gmap string file) (fs : gmap string file) :
  guarded os_fault op k fs = k fs.
Proof. unfold guarded. rewrite no_fault. reflexivity. Qed.

Lemma write_entry_ok (output_npz key : string) (val : memmap)
    (fs : gmap string file) (h : bytes) (entries : list (string * bytes)) :
  array_header (mm_dtype val) (mm_shape val) = Ok h ->
  fs !! output_npz = Some (Zip entries) ->
  write_entry os_fault output_npz key val fs
  = (Ok tt, <[output_npz := Zip (entries ++ [(key, h ++ memmap_data fs val)])]> fs).
Proof.
  intros Hh Hf. unfold write_entry. rewrite guarded_ok, Hh, Hf. reflexivity.
Qed.

Lemma build_ok (files : list string) (classes : list nat)
    (output_npz : string) (image_size : nat) (features_file labels_file : string)
    (fs : gmap string file) (st : Pipeline.state) (hf0 hl0 hf hl : bytes) :
  features_file <> labels_file ->
  output_npz <> features_file ->
  output_npz <> labels_file ->
  Pipeline.colour_images cv2_imread files = true ->
  parallel files classes image_size schedule = Ok st ->
  array_header uint8 [length files; image_size; image_size; 3] = Ok hf0 ->
  array_header int32 [length files] = Ok hl0 ->
  array_header uint8 [Pipeline.target st; image_size; image_size; 3] = Ok hf ->
  array_header int32 [Pipeline.target st] = Ok hl ->
  length hf = length hf0 ->
  length hl = length hl0 ->
  build files classes output_npz image_size features_file labels_file fs
  = (Ok tt,
     <[output_npz :=
         Zip [("features.npy",
               hf ++ concat (map (feature_bytes image_size)
                                 (take (Pipeline.target st) (Pipeline.features st))));
              ("labels.npy",
               hl ++ concat (map label_bytes
                                 (take (Pipeline.target st) (Pipeline.labels st))))]]>
       (<[labels_file :=
            Raw (hl ++ concat (map label_bytes (Pipeline.labels st)))]>
          (<[features_file :=
               Raw (hf ++ concat (map (feature_bytes image_size)
                                      (Pipeline.features st)))]> fs))).
Proof.
  intros Hfl Hof Hol Hcol Hp Hhf0 Hhl0 Hhf Hhl Hlf Hll.
  destruct (PipelineFacts.parallel_spec cv2_imread resample files classes
              image_size schedule)
    as [(st1 & Hp1 & Hr & Hfin & _) | (e & st1 & Hp1 & _)];
    rewrite Hp in Hp1; [| discriminate].
  injection Hp1 as <-.
  assert (Hinv : Pipeline.invariant cv2_imread resample files classes image_size st)
    by (apply PipelineFacts.reachable_invariant, Hr).
  assert (HK : Pipeline.target st <= length files).
  { apply (PipelineFacts.target_bound _ _ _ _ _ st Hinv). }
  assert (HF := Pipeline.inv_features _ _ _ _ _ _ Hinv).
  assert (HL := Pipeline.inv_labels _ _ _ _ _ _ Hinv).
  unfold Pipeline.num_files in HF, HL.
  assert (Hrows : Forall (fun x => length x = image_size * image_size * 3)
                    (map (feature_bytes image_size) (Pipeline.features st))).
  { apply Forall_map. eapply Forall_impl.
    - apply (PipelineMore.reachable_rows _ _ _ _ _ st Hcol Hr).
    - intros row Hrow. apply length_feature_bytes, Hrow. }
  assert (Hlabs : Forall (fun x => length x = 4)
                    (map label_bytes (Pipeline.labels st))).
  { apply Forall_map, Forall_forall. intros row _. apply length_label_bytes. }
  assert (Hdf : length (concat (map (feature_bytes image_size) (Pipeline.features st)))
                = length files * (image_size * image_size * 3)).
  { rewrite (length_concat_uniform _ _ Hrows), length_map, HF. reflexivity. }
  assert (Hdl : length (concat (map label_bytes (Pipeline.labels st)))
                = length files * 4).
  { rewrite (length_concat_uniform _ _ Hlabs), length_map, HL. reflexivity. }
  unfold Dataset.build.
  rewrite guarded_ok, (open_memmap_layout _ _ _ _ _ Hhf0).
  rewrite guarded_ok, (open_memmap_layout _ _ _ _ _ Hhl0).
  rewrite Hp. cbv zeta.
  rewrite size_features, size_labels.
  set (mf := {| filename := features_file; mm_dtype := uint8;
                mm_shape := [length files; image_size; image_size; 3];
                mm_offset := length hf0 |}).
  set (ml := {| filename := labels_file; mm_dtype := int32;
                mm_shape := [length files]; mm_offset := length hl0 |}).
  (* features[...] and labels[...] as the workers left them *)
  erewrite (memmap_store_whole _ mf hf0);
    [| simpl filename; rewrite lookup_insert_ne by congruence;
       apply lookup_insert_eq
     | reflexivity
     | rewrite length_replicate; exact Hdf].
  simpl filename. rewrite (insert_insert_ne _ features_file labels_file) by congruence.
  rewrite insert_insert_eq.
  erewrite (memmap_store_whole _ ml hl0);
    [| simpl filename; apply lookup_insert_eq
     | reflexivity
     | rewrite length_replicate; exact Hdl].
  simpl filename. rewrite insert_insert_eq.
  (* the two resizes *)
  rewrite guarded_ok. simpl app.
  erewrite (resize_npy_file_same_header _ mf _ hf0 hf);
    [| simpl filename; rewrite lookup_insert_ne by congruence;
       apply lookup_insert_eq
     | reflexivity
     | exact Hhf
     | exact Hlf
     | simpl mm_dtype; rewrite size_features, Hdf; nia].
  simpl filename. simpl mm_dtype.
  rewrite (insert_insert_ne _ features_file labels_file) by congruence.
  rewrite insert_insert_eq.
  rewrite guarded_ok.
  erewrite (resize_npy_file_same_header _ ml _ hl0 hl);
    [| simpl filename; apply lookup_insert_eq
     | reflexivity
     | exact Hhl
     | exact Hll
     | simpl mm_dtype; rewrite size_labels, Hdl; lia].
  simpl filename. simpl mm_dtype. rewrite insert_insert_eq.
  (* the archive *)
  rewrite guarded_ok.
  erewrite (write_entry_ok _ _ _ _ hf []);
    [| exact Hhf | apply lookup_insert_eq].
  erewrite (memmap_data_whole _ _ hf);
    [| simpl filename; rewrite !lookup_insert_ne by congruence;
       apply lookup_insert_eq
     | reflexivity].
  erewrite (write_entry_ok _ _ _ _ hl);
    [| exact Hhl | apply lookup_insert_eq].
  erewrite (memmap_data_whole _ _ hl);
    [| simpl filename; rewrite !lookup_insert_ne by congruence;
       apply lookup_insert_eq
     | reflexivity].
  rewrite !insert_insert_eq.
  unfold nbytes. simpl mm_shape. simpl mm_dtype.
  rewrite size_features, size_labels.
  rewrite (take_concat_uniform _ _ _ Hrows), (take_concat_uniform _ _ _ Hlabs).
  rewrite !firstn_map. reflexivity.
Qed.

(** X10: the whole of [create_dataset] when nothing fails.  If the
    operating system refuses nothing, the workers all return, every
    decoded file is a colour image and [mkstemp] hands out two
    names that differ from each other and from the output path,
    then [create_dataset] returns normally and leaves exactly this:
    the two temporary files are gone, every other file is as it
    was, and the archive at [output_npz] holds two entries, in
    this order: "features.npy", the header of a uint8 array of
    shape (K, S, S, 3) followed by the first K rows of the features
    memmap, and "labels.npy", the header of an int32 array of shape
    (K,) followed by the first K labels, 4 bytes each, where K is
    the final value of the counter. *)
Theorem create_dataset_writes_the_archive (root : list subdirectory)
    (data_dir output_npz : string) (image_size : nat) (fs : gmap string file)
    (st : Pipeline.state) :
  let files := (glob_image_files data_dir root).1 in
  let classes := (glob_image_files data_dir root).2 in
  let features_file := mkstemp fs in
  let labels_file := mkstemp (<[features_file := Raw []]> fs) in
  files <> [] ->
  Pipeline.colour_images cv2_imread files = true ->
  parallel files classes image_size schedule = Ok st ->
  length files < 10 ^ 18 ->
  image_size < 10 ^ 18 ->
  features_file <> labels_file ->
  output_npz <> features_file ->
  output_npz <> labels_file ->
  exists hf hl,
    array_header uint8 [Pipeline.target st; image_size; image_size; 3] = Ok hf
    /\ array_header int32 [Pipeline.target st] = Ok hl
    /\ create_dataset root data_dir output_npz image_size fs
       = (Ok tt,
          <[output_npz :=
              Zip [("features.npy",
                    hf ++ concat (map (feature_bytes image_size)
                                      (take (Pipeline.target st)
                                            (Pipeline.features st))));
                   ("labels.npy",
                    hl ++ concat (map label_bytes
                                      (take (Pipeline.target st)
                                            (Pipeline.labels st))))]]>
            (delete labels_file (delete features_file fs))).
Proof.
  intros files classes features_file labels_file
    Hne Hcol Hp Hn HS Hfl Hof Hol.
  assert (HK : Pipeline.target st <= length files).
  { destruct (PipelineFacts.parallel_spec cv2_imread resample files classes
                image_size schedule)
      as [(st1 & Hp1 & Hr & _) | (e & st1 & Hp1 & _)];
      rewrite Hp in Hp1; [| discriminate].
    injection Hp1 as <-.
    apply (PipelineFacts.target_bound cv2_imread resample files classes image_size).
    apply PipelineFacts.reachable_invariant, Hr. }
  destruct (NpyFacts.features_header_length (length files) image_size Hn HS)
    as (hf0 & Hhf0 & Hlf0).
  destruct (NpyFacts.labels_header_length (length files) Hn) as (hl0 & Hhl0 & Hll0).
  destruct (NpyFacts.features_header_length (Pipeline.target st) image_size)
    as (hf & Hhf & Hlf); [lia | exact HS |].
  destruct (NpyFacts.labels_header_length (Pipeline.target st))
    as (hl & Hhl & Hll); [lia |].
  exists hf, hl. split; [exact Hhf |]. split; [exact Hhl |].
  unfold Dataset.create_dataset.
  subst files classes.
  destruct (glob_image_files data_dir root) as [files classes].
  simpl fst in *. simpl snd in *.
  destruct (Nat.eqb_spec (length files) 0) as [H0 | _].
  { destruct files; [congruence | discriminate]. }
  unfold temporary_file.
  fold features_file. fold labels_file.
  rewrite (build_ok files classes output_npz image_size features_file labels_file
             _ st hf0 hl0 hf hl) by (assumption || congruence).
  unfold os_remove.
  rewrite lookup_insert_ne by congruence. rewrite lookup_insert_eq.
  rewrite lookup_delete_ne by congruence.
  rewrite lookup_insert_ne by congruence.
  rewrite lookup_insert_ne by congruence. rewrite lookup_insert_eq.
  f_equal. apply map_eq. intros k.
  destruct (decide (k = output_npz)) as [E1 | N1];
    destruct (decide (k = features_file)) as [E2 | N2];
    destruct (decide (k = labels_file)) as [E3 | N3];
    try congruence;
    rewrite ?E1, ?E2, ?E3;
    repeat first [ rewrite lookup_insert_eq
                 | rewrite lookup_delete_eq
                 | rewrite lookup_insert_ne by congruence
                 | rewrite lookup_delete_ne by congruence ];
    reflexivity.
Qed.

End NoFault.

(** *** Whatever the operating system answers *)

Lemma guarded_cases {A} (op : io_op)
    (k : gmap string file -> result A * gmap string file)
    (fs fs' : gmap string file) (r : result A) :
  guarded os_fault op k fs = (r, fs') ->
  (exists e, r = Raise e /\ fs' = fs) \/ k fs = (r, fs').
Proof.
  unfold guarded. destruct (os_fault op) as [e |]; [| auto].
  intros [= <- <-]. left. eauto.
Qed.

Lemma open_memmap_guarded (fs fs' : gmap string file) (name : string)
    (shape : list nat) (d : dtype) (r : result memmap) :
  guarded os_fault (OpOpenMemmap name)
    (fun fs => open_memmap fs name shape d) fs = (r, fs') ->
  (forall k, k <> name -> fs' !! k = fs !! k)
  /\ (forall m, r = Ok m -> filename m = name).
Proof.
  intros E. destruct (guarded_cases _ _ _ _ _ E) as [(e & -> & ->) | E'].
  - split; [reflexivity | discriminate].
  - split.
    + intros k. apply (open_memmap_frame _ _ _ _ _ _ _ E').
    + intros m ->. apply (open_memmap_filename _ _ _ _ _ _ E').
Qed.

Lemma resize_guarded (fs fs' : gmap string file) (m : memmap)
    (new_shape : list nat) (r : result memmap) :
  guarded os_fault (OpResize (filename m))
    (fun fs => resize_npy_file fs m new_shape) fs = (r, fs') ->
  (forall k, k <> filename m -> fs' !! k = fs !! k)
  /\ (forall m', r = Ok m' -> filename m' = filename m).
Proof.
  intros E. destruct (guarded_cases _ _ _ _ _ E) as [(e & -> & ->) | E'].
  - split; [reflexivity | discriminate].
  - split.
    + intros k. apply (resize_npy_file_frame _ _ _ _ _ _ E').
    + intros m' ->. apply (resize_npy_file_filename _ _ _ _ _ E').
Qed.

Lemma write_entry_frame (output_npz key : string) (val : memmap)
    (fs : gmap string file) (k : string) :
  k <> output_npz ->
  (write_entry os_fault output_npz key val fs).2 !! k = fs !! k.
Proof.
  intros Hk. unfold write_entry, guarded.
  destruct (os_fault (OpWriteEntry key)); [reflexivity |].
  destruct (array_header (mm_dtype val) (mm_shape val)) as [h | e];
    [| reflexivity].
  destruct (fs !! output_npz) as [[content | entries] |]; try reflexivity.
  simpl. rewrite lookup_insert_ne by congruence. reflexivity.
Qed.

Lemma build_frame (files : list string) (classes : list nat)
    (output_npz : string) (image_size : nat) (features_file labels_file : string)
    (fs : gmap string file) (k : string) :
  k <> features_file -> k <> labels_file -> k <> output_npz ->
  (build files classes output_npz image_size features_file labels_file fs).2 !! k
  = fs !! k.
Proof.
  intros Hf Hl Ho. unfold Dataset.build.
  destruct (guarded os_fault (OpOpenMemmap features_file) _ fs)
    as [[mf | e1] fs1] eqn:E1;
    apply open_memmap_guarded in E1 as [F1 N1];
    [| simpl; apply F1, Hf].
  specialize (N1 mf eq_refl).
  destruct (guarded os_fault (OpOpenMemmap labels_file) _ fs1)
    as [[ml | e2] fs2] eqn:E2;
    apply open_memmap_guarded in E2 as [F2 N2];
    [| simpl; rewrite F2 by exact Hl; apply F1, Hf].
  specialize (N2 ml eq_refl).
  assert (H2 : fs2 !! k = fs !! k) by (rewrite F2 by exact Hl; apply F1, Hf).
  destruct (Pipeline.parallel _ _ _ _ _ _) as [st | e3]; [| exact H2].
  cbv zeta.
  set (fs3 := memmap_store (memmap_store fs2 mf _) ml _).
  assert (H3 : fs3 !! k = fs !! k).
  { unfold fs3. rewrite !memmap_store_frame by congruence. exact H2. }
  clearbody fs3.
  rewrite <- N1 at 1.
  destruct (guarded os_fault (OpResize (filename mf)) _ fs3)
    as [[mf' | e4] fs4] eqn:E4;
    apply resize_guarded in E4 as [F4 N4];
    [| simpl; rewrite F4 by congruence; exact H3].
  specialize (N4 mf' eq_refl).
  assert (H4 : fs4 !! k = fs !! k) by (rewrite F4 by congruence; exact H3).
  rewrite <- N2 at 1.
  destruct (guarded os_fault (OpResize (filename ml)) _ fs4)
    as [[ml' | e5] fs5] eqn:E5;
    apply resize_guarded in E5 as [F5 N5];
    [| simpl; rewrite F5 by congruence; exact H4].
  assert (H5 : fs5 !! k = fs !! k) by (rewrite F5 by congruence; exact H4).
  unfold guarded at 1.
  destruct (os_fault (OpOpenArchive output_npz)); [exact H5 |].
  destruct (write_entry os_fault output_npz "features.npy" mf' _)
    as [[u | e6] fs6] eqn:E6.
  - rewrite write_entry_frame by exact Ho.
    change fs6 with (Ok u, fs6).2. rewrite <- E6.
    rewrite write_entry_frame by exact Ho.
    rewrite lookup_insert_ne by congruence. exact H5.
  - change fs6 with (@Raise unit e6, fs6).2 at 1. simpl.
    change fs6 with (@Raise unit e6, fs6).2. rewrite <- E6.
    rewrite write_entry_frame by exact Ho.
    rewrite lookup_insert_ne by congruence. exact H5.
Qed.

Lemma build_crash_frame (files : list string) (classes : list nat)
    (output_npz : string) (image_size : nat) (features_file labels_file : string)
    (fs : gmap string file) (e : exn) (k : string) :
  parallel files classes image_size schedule = Raise e ->
  k <> features_file -> k <> labels_file ->
  (build files classes output_npz image_size features_file labels_file fs).2 !! k
  = fs !! k.
Proof.
  intros Hp Hf Hl. unfold Dataset.build.
  destruct (guarded os_fault (OpOpenMemmap features_file) _ fs)
    as [[mf | e1] fs1] eqn:E1;
    apply open_memmap_guarded in E1 as [F1 _];
    [| simpl; apply F1, Hf].
  destruct (guarded os_fault (OpOpenMemmap labels_file) _ fs1)
    as [[ml | e2] fs2] eqn:E2;
    apply open_memmap_guarded in E2 as [F2 _];
    [| simpl; rewrite F2 by exact Hl; apply F1, Hf].
  rewrite Hp. simpl. rewrite F2 by exact Hl. apply F1, Hf.
Qed.

(** X11: whatever happens (any interleaving, any refusal of the
    operating system, any outcome), [create_dataset] changes no file
    but the output archive and its two temporary files. *)
Theorem create_dataset_touches_only_its_files (root : list subdirectory)
    (data_dir output_npz : string) (image_size : nat) (fs : gmap string file)
    (k : string) :
  k <> output_npz ->
  k <> mkstemp fs ->
  k <> mkstemp (<[mkstemp fs := Raw []]> fs) ->
  (create_dataset root data_dir output_npz image_size fs).2 !! k = fs !! k.
Proof.
  intros Ho Hf Hl. unfold Dataset.create_dataset.
  destruct (glob_image_files data_dir root) as [files classes].
  destruct (length files =? 0)%nat; [reflexivity |].
  rewrite DatasetFacts.temporary_file_outcome.
  rewrite os_remove_frame by exact Hf.
  rewrite DatasetFacts.temporary_file_outcome.
  rewrite os_remove_frame by exact Hl.
  rewrite build_frame by assumption.
  rewrite !lookup_insert_ne by congruence. reflexivity.
Qed.

(** X12: when a worker crashes, [create_dataset] raises and the
    output path is left exactly as it was: no archive is written, not
    even an empty one. *)
Theorem crash_leaves_no_archive (root : list subdirectory)
    (data_dir output_npz : string) (image_size : nat) (fs : gmap string file)
    (e : exn) :
  parallel (glob_image_files data_dir root).1 (glob_image_files data_dir root).2
    image_size schedule = Raise e ->
  output_npz <> mkstemp fs ->
  output_npz <> mkstemp (<[mkstemp fs := Raw []]> fs) ->
  raises (create_dataset root data_dir output_npz image_size fs).1 = true
  /\ (create_dataset root data_dir output_npz image_size fs).2 !! output_npz
     = fs !! output_npz.
Proof.
  intros Hp Hf Hl. unfold Dataset.create_dataset.
  destruct (glob_image_files data_dir root) as [files classes].
  simpl fst in Hp. simpl snd in Hp.
  destruct (length files =? 0)%nat; [split; reflexivity |].
  split.
  - apply DatasetFacts.temporary_file_raises. intros name fs1.
    apply DatasetFacts.temporary_file_raises. intros name' fs2.
    eapply DatasetFacts.build_raises. exact Hp.
  - rewrite DatasetFacts.temporary_file_outcome.
    rewrite os_remove_frame by exact Hf.
    rewrite DatasetFacts.temporary_file_outcome.
    rewrite os_remove_frame by exact Hl.
    rewrite (build_crash_frame _ _ _ _ _ _ _ e) by assumption.
    rewrite !lookup_insert_ne by congruence. reflexivity.
Qed.

End CreateDataset.

Lemma create_dataset_without_images_witness :
  Dataset.create_dataset Samples.sample_imread Samples.nearest Samples.sample_mkstemp
    Samples.no_fault Samples.sample_schedule MoreSamples.barren_tree "d" "out.npz" 2 ∅
  = (Raise (IOError (no_files_message "d")), ∅).
Proof.
  apply (create_dataset_without_images Samples.sample_imread Samples.nearest
           Samples.sample_mkstemp Samples.no_fault Samples.sample_schedule
           MoreSamples.barren_tree "d" "out.npz" 2 ∅).
  vm_compute. reflexivity.
Defined.

Lemma create_dataset_writes_the_archive_witness :
  (Dataset.create_dataset Samples.sample_imread Samples.nearest Samples.sample_mkstemp
     Samples.no_fault Samples.sample_schedule Samples.sample_tree "d" "out.npz" 2 ∅).1
  = Ok tt.
Proof.
  destruct (create_dataset_writes_the_archive Samples.sample_imread Samples.nearest
              Samples.sample_mkstemp Samples.no_fault Samples.sample_schedule
              (fun _ => eq_refl) Samples.sample_tree "d" "out.npz" 2 ∅
              Samples.sample_state)
    as (hf & hl & _ & _ & H).
  - vm_compute. discriminate.
  - vm_compute. reflexivity.
  - vm_compute. reflexivity.
  - apply (Nat.lt_le_trans _ (10 ^ 1)); [vm_compute; lia |].
    apply Nat.pow_le_mono_r; lia.
  - apply (Nat.lt_le_trans _ (10 ^ 1)); [vm_compute; lia |].
    apply Nat.pow_le_mono_r; lia.
  - vm_compute. discriminate.
  - vm_compute. discriminate.
  - vm_compute. discriminate.
  - rewrite H. reflexivity.
Defined.

Lemma create_dataset_touches_only_its_files_witness :
  (Dataset.create_dataset Samples.sample_imread Samples.nearest Samples.sample_mkstemp
     Samples.no_fault Samples.sample_schedule Samples.sample_tree "d" "out.npz" 2
     (<["notes.txt" := Raw [x01]]> ∅)).2 !! "notes.txt"
  = (<["notes.txt" := Raw [x01]]> ∅ : gmap string file) !! "notes.txt".
Proof.
  apply (create_dataset_touches_only_its_files Samples.sample_imread Samples.nearest
           Samples.sample_mkstemp Samples.no_fault Samples.sample_schedule
           Samples.sample_tree "d" "out.npz" 2 (<["notes.txt" := Raw [x01]]> ∅)
           "notes.txt").
  - vm_compute. discriminate.
  - vm_compute. discriminate.
  - vm_compute. discriminate.
Defined.

Lemma crash_leaves_no_archive_witness :
  raises (Dataset.create_dataset Samples.sample_imread Samples.nearest
            Samples.sample_mkstemp Samples.no_fault Samples.sample_schedule
            Samples.broken_tree "d" "out.npz" 2 ∅).1 = true
  /\ (Dataset.create_dataset Samples.sample_imread Samples.nearest
        Samples.sample_mkstemp Samples.no_fault Samples.sample_schedule
        Samples.broken_tree "d" "out.npz" 2 ∅).2 !! "out.npz"
     = (∅ : gmap string file) !! "out.npz".
Proof.
  apply (crash_leaves_no_archive Samples.sample_imread Samples.nearest
           Samples.sample_mkstemp Samples.no_fault Samples.sample_schedule
           Samples.broken_tree "d" "out.npz" 2 ∅
           (AttributeError "'NoneType' object has no attribute 'shape'")).
  - vm_compute. reflexivity.
  - vm_compute. discriminate.
  - vm_compute. discriminate.
Defined.

End DatasetMore.
